(** * Witness policy and witness store of the orb anchoring node

    A shallow embedding of [pkg/anchor/witness/policy] (policy evaluation and
    witness selection) and of the anchor witness store
    ([package witness]: Put, Get, Delete, AddProof, UpdateWitnessSelection,
    HandleExpiredKeys), followed by the properties proved about them.

    Conventions.
    - Go [int] values are counts and small configuration numbers; they are
      modelled by [Z] (no operation below can leave the 64-bit range for
      slices that fit in memory).
    - Go [float64] is IEEE binary64; it is modelled by the Standard Library's
      executable specification [spec_float] at precision 53, which rounds
      exactly as the hardware does.
    - a Go slice of bytes that may be [nil] is an [option (list byte)]:
      [None] is [nil], [Some []] is the empty, non-nil slice.
    - a function that returns [(T, error)] returns a [result T]. *)

From Stdlib Require Import ZArith QArith Qround Lia String Ascii List Bool.
From Stdlib Require Import Strings.Byte.
From Stdlib Require Import Floats.SpecFloat.
From stdpp Require Import base gmap strings list pretty.

Open Scope Z_scope.

(** ** Errors *)

(** [fmt.Errorf] values, the [%w] wrapping of an inner error, and the
    [orberrors.NewTransient] marker. *)
Inductive error : Type :=
| Errorf (msg : string)
| Wrap (msg : string) (inner : error)
| Transient (inner : error).

Inductive result (A : Type) : Type :=
| Ok (a : A)
| Err (e : error).
Arguments Ok {A} a.
Arguments Err {A} e.

(** ** float64 *)

Module float64.

Definition prec : Z := 53.
Definition emax : Z := 1024.

Definition t : Type := spec_float.

(** [float64(n)] for an integer [n]: the nearest binary64 value. *)
Definition of_int (n : Z) : t := binary_normalize prec emax n 0 false.

Definition div (x y : t) : t := SFdiv prec emax x y.
Definition mul (x y : t) : t := SFmul prec emax x y.

(** [x >= y]; false when either side is a NaN. *)
Definition geb (x y : t) : bool := SFleb y x.

(** [math.Ceil] followed by the conversion [int(...)], on finite values.
    Infinities and NaN convert to the "integer indefinite" value of the
    amd64 conversion; no caller below produces them. *)
Definition ceil_to_int (x : t) : Z :=
  match x with
  | S754_zero _ => 0
  | S754_finite s m e =>
      let v := if s then Z.neg m else Z.pos m in
      match e with
      | Z.neg p => - ((- v) / 2 ^ Z.pos p)
      | _ => v * 2 ^ e
      end
  | S754_infinity _ | S754_nan => - 2 ^ 63
  end.

End float64.

(** ** package proof: witnesses and witness proofs *)

Module proof.

(** Modelled from the spec: the declarations of package [proof] are not part
    of the sources; section 3 gives a witness a [Type] in {BATCH, SYSTEM}, a
    [URI] (identity key, compared through its string form), [HasLog] and
    [Selected], and a witness record an additional opaque [Proof]. *)
Inductive WitnessType : Type :=
| WitnessTypeBatch
| WitnessTypeSystem.

Record Witness : Type := {
  Type_ : WitnessType;
  URI : string;
  HasLog : bool;
  Selected : bool
}.

Record WitnessProof : Type := {
  witness :> Witness;
  Proof_ : option (list byte)
}.

End proof.
Export proof.

Global Instance WitnessType_eq_dec : EqDecision WitnessType.
Proof. solve_decision. Defined.

Global Instance Witness_eq_dec : EqDecision Witness.
Proof. solve_decision. Defined.

(** ** package config: the parsed policy *)

Module config.

Inductive Operator : Type :=
| AND
| OR.

(** Modelled from the spec: package [config] (the parser and the
    configuration record) is not part of the sources. Section 3 lists the
    fields; section 4.4 fixes the operator function: AND is conjunction, OR
    is disjunction. *)
Record WitnessPolicyConfig : Type := {
  MinNumberSystem : Z;
  MinNumberBatch : Z;
  MinPercentSystem : Z;
  MinPercentBatch : Z;
  Operator_ : Operator;
  LogRequired : bool
}.

Definition OperatorFnc (cfg : WitnessPolicyConfig) : bool -> bool -> bool :=
  match Operator_ cfg with
  | AND => andb
  | OR => orb
  end.

(** Modelled from the spec: what section 3 promises of a parsed policy
    (numbers are non-negative, percentages lie in [0,100]). *)
Definition parsed (cfg : WitnessPolicyConfig) : Prop :=
  0 <= MinNumberBatch cfg /\ 0 <= MinNumberSystem cfg /\
  0 <= MinPercentBatch cfg <= 100 /\ 0 <= MinPercentSystem cfg <= 100.

End config.
Export config.

Global Instance Operator_eq_dec : EqDecision Operator.
Proof. solve_decision. Defined.

(** ** package policy *)

Module policy.

Definition maxPercent : Z := 100.

Definition evaluate (collected total minNumber minPercent : Z) : bool :=
  let percentCollected :=
    if negb (total =? 0)
    then float64.div (float64.of_int collected) (float64.of_int total)
    else float64.of_int maxPercent in
  (negb (minNumber =? 0) && (collected >=? minNumber))
  || float64.geb percentCollected
       (float64.div (float64.of_int minPercent) (float64.of_int maxPercent)).

Definition checkLog (logRequired hasLog : bool) : bool :=
  if logRequired then hasLog else true.

(** [w.Proof != nil] *)
Definition proofNotNil (w : WitnessProof) : bool :=
  match Proof_ w with
  | Some _ => true
  | None => false
  end.

(** The four counters of the loop of [Evaluate]. *)
Record counters : Type := {
  totalSystemWitnesses : Z;
  collectedSystemWitnesses : Z;
  totalBatchWitnesses : Z;
  collectedBatchWitnesses : Z
}.

Definition countWitness (cfg : WitnessPolicyConfig) (c : counters)
    (w : WitnessProof) : counters :=
  let logOK := checkLog (LogRequired cfg) (HasLog w) in
  match Type_ w with
  | WitnessTypeBatch =>
      {| totalSystemWitnesses := totalSystemWitnesses c;
         collectedSystemWitnesses := collectedSystemWitnesses c;
         totalBatchWitnesses := totalBatchWitnesses c + 1;
         collectedBatchWitnesses :=
           if logOK && proofNotNil w
           then collectedBatchWitnesses c + 1
           else collectedBatchWitnesses c |}
  | WitnessTypeSystem =>
      {| totalSystemWitnesses := totalSystemWitnesses c + 1;
         collectedSystemWitnesses :=
           if logOK && proofNotNil w
           then collectedSystemWitnesses c + 1
           else collectedSystemWitnesses c;
         totalBatchWitnesses := totalBatchWitnesses c;
         collectedBatchWitnesses := collectedBatchWitnesses c |}
  end.

Definition countWitnesses (cfg : WitnessPolicyConfig)
    (witnesses : list WitnessProof) : counters :=
  fold_left (countWitness cfg) witnesses
    {| totalSystemWitnesses := 0; collectedSystemWitnesses := 0;
       totalBatchWitnesses := 0; collectedBatchWitnesses := 0 |}.

(** [Evaluate]; [policyCfg] is the outcome of [getWitnessPolicyConfig] (the
    policy cache and the parser, both outside the sources). *)
Definition Evaluate (policyCfg : result WitnessPolicyConfig)
    (witnesses : list WitnessProof) : result bool :=
  match policyCfg with
  | Err e => Err e
  | Ok cfg =>
      let c := countWitnesses cfg witnesses in
      let batchCondition :=
        evaluate (collectedBatchWitnesses c) (totalBatchWitnesses c)
          (MinNumberBatch cfg) (MinPercentBatch cfg) in
      let systemCondition :=
        evaluate (collectedSystemWitnesses c) (totalSystemWitnesses c)
          (MinNumberSystem cfg) (MinPercentSystem cfg) in
      Ok (OperatorFnc cfg batchCondition systemCondition)
  end.

Definition isExcluded (w : Witness) (excluded : list Witness) : bool :=
  existsb (fun e => String.eqb (URI w) (URI e)) excluded.

Definition intersection (a b : list Witness) : list Witness :=
  let hash : gmap string bool :=
    fold_left (fun h e => <[URI e := false]> h) a ∅ in
  fst (fold_left
         (fun (acc : list Witness * gmap string bool) e =>
            match snd acc !! URI e with
            | Some false => (fst acc ++ [e], <[URI e := true]> (snd acc))
            | _ => acc
            end)
         b ([], hash)).

Definition difference (a b : list Witness) : list Witness :=
  let hash : gmap string bool :=
    fold_left (fun h e => <[URI e := true]> h) b ∅ in
  fold_left
    (fun result e =>
       match hash !! URI e with
       | Some _ => result
       | None => result ++ [e]
       end)
    a [].

(** The number of witnesses [selectMinWitnesses] asks the selection strategy
    for, in addition to the preferred ones. *)
Definition minSelection (eligible : list Witness)
    (minNumber minPercent totalWitnesses : Z) (preferred : list Witness) : Z :=
  if minNumber >? 0 then
    minNumber - Z.of_nat (length preferred)
  else if minPercent >=? 0 then
    float64.ceil_to_int
      (float64.mul
         (float64.div (float64.of_int minPercent) (float64.of_int maxPercent))
         (float64.of_int totalWitnesses))
    - Z.of_nat (length preferred)
  else
    Z.of_nat (length eligible) - Z.of_nat (length preferred).

Section WithSelector.

(** The selection strategy is an interface ([selector]); the default one
    draws at random. [G] is the state of its source of randomness. *)
Variable G : Type.
Variable selector : list Witness -> Z -> G -> result (list Witness) * G.

Definition selectMinWitnesses (eligible : list Witness)
    (minNumber minPercent totalWitnesses : Z) (preferred : list Witness)
    (g : G) : result (list Witness) * G :=
  let selected := preferred in
  let n := minSelection eligible minNumber minPercent totalWitnesses preferred in
  match selector (difference eligible preferred) n g with
  | (Err e, g') => (Err e, g')
  | (Ok selection, g') => (Ok (selected ++ selection), g')
  end.

(** The partition loop of [selectBatchAndSystemWitnesses]. *)
Record partition : Type := {
  eligibleBatchWitnesses : list Witness;
  eligibleSystemWitnesses : list Witness;
  totalSystem : Z;
  totalBatch : Z
}.

Definition partitionStep (cfg : WitnessPolicyConfig) (exclude : list Witness)
    (p : partition) (w : Witness) : partition :=
  let logOK := checkLog (LogRequired cfg) (HasLog w) in
  match Type_ w with
  | WitnessTypeBatch =>
      {| eligibleBatchWitnesses :=
           if logOK && negb (isExcluded w exclude)
           then eligibleBatchWitnesses p ++ [w]
           else eligibleBatchWitnesses p;
         eligibleSystemWitnesses := eligibleSystemWitnesses p;
         totalSystem := totalSystem p;
         totalBatch := totalBatch p + 1 |}
  | WitnessTypeSystem =>
      {| eligibleBatchWitnesses := eligibleBatchWitnesses p;
         eligibleSystemWitnesses :=
           if logOK && negb (isExcluded w exclude)
           then eligibleSystemWitnesses p ++ [w]
           else eligibleSystemWitnesses p;
         totalSystem := totalSystem p + 1;
         totalBatch := totalBatch p |}
  end.

Definition partitionWitnesses (cfg : WitnessPolicyConfig)
    (witnesses exclude : list Witness) : partition :=
  fold_left (partitionStep cfg exclude) witnesses
    {| eligibleBatchWitnesses := []; eligibleSystemWitnesses := [];
       totalSystem := 0; totalBatch := 0 |}.

Definition commonWitnesses (cfg : WitnessPolicyConfig) (p : partition)
    : list Witness :=
  match Operator_ cfg with
  | AND => intersection (eligibleBatchWitnesses p) (eligibleSystemWitnesses p)
  | OR => []
  end.

(** The error of a class selection is wrapped in a message that lists the
    witnesses and the policy; only its fixed beginning is kept here. When
    there is no eligible batch witness the batch selection stays nil. *)
Definition selectBatchAndSystemWitnesses (witnesses : list Witness)
    (cfg : WitnessPolicyConfig) (exclude : list Witness) (g : G)
    : result (list Witness * list Witness) * G :=
  let p := partitionWitnesses cfg witnesses exclude in
  let common := commonWitnesses cfg p in
  let batch :=
    (* it is possible to have zero eligible batch witnesses *)
    if negb (Nat.eqb (length (eligibleBatchWitnesses p)) 0) then
      selectMinWitnesses (eligibleBatchWitnesses p) (MinNumberBatch cfg)
        (MinPercentBatch cfg) (totalBatch p) common g
    else (Ok [], g) in
  match batch with
  | (Err e, g1) => (Err (Wrap "select batch witnesses" e), g1)
  | (Ok selectedBatchWitnesses, g1) =>
      match selectMinWitnesses (eligibleSystemWitnesses p)
              (MinNumberSystem cfg) (MinPercentSystem cfg) (totalSystem p)
              common g1 with
      | (Err e, g2) => (Err (Wrap "select system witnesses" e), g2)
      | (Ok selectedSystemWitnesses, g2) =>
          (Ok (selectedBatchWitnesses, selectedSystemWitnesses), g2)
      end
  end.

Definition Select (policyCfg : result WitnessPolicyConfig)
    (witnesses exclude : list Witness) (g : G)
    : result (list Witness) * G :=
  match policyCfg with
  | Err e => (Err e, g)
  | Ok cfg =>
      match selectBatchAndSystemWitnesses witnesses cfg exclude g with
      | (Err e, g') => (Err e, g')
      | (Ok (selectedBatchWitnesses, selectedSystemWitnesses), g') =>
          if decide (Operator_ cfg = AND) then
            (Ok (selectedBatchWitnesses ++ selectedSystemWitnesses), g')
          else if Nat.eqb (length selectedBatchWitnesses) 0
                  || Nat.ltb (length selectedSystemWitnesses)
                       (length selectedBatchWitnesses) then
            (Ok selectedSystemWitnesses, g')
          else
            (Ok selectedBatchWitnesses, g')
      end
  end.

End WithSelector.

End policy.

(** ** encoding/base64, RawURLEncoding (unpadded, URL-safe alphabet) *)

Module base64.

Definition encodeURL : string :=
  "ABCDEFGHIJKLMNOPQRSTUVWXYZabcdefghijklmnopqrstuvwxyz0123456789-_".

Definition digit (n : N) : ascii :=
  match String.get (N.to_nat n) encodeURL with
  | Some c => c
  | None => "A"%char
  end.

Fixpoint encode (src : list N) : string :=
  match src with
  | [] => EmptyString
  | [a] =>
      String (digit (a / 4)) (String (digit ((a mod 4) * 16)) EmptyString)
  | [a; b] =>
      String (digit (a / 4))
        (String (digit ((a mod 4) * 16 + b / 16))
           (String (digit ((b mod 16) * 4)) EmptyString))
  | a :: b :: c :: rest =>
      String (digit (a / 4))
        (String (digit ((a mod 4) * 16 + b / 16))
           (String (digit ((b mod 16) * 4 + c / 64))
              (String (digit (c mod 64)) (encode rest))))
  end%N.

Definition RawURLEncodeToString (src : string) : string :=
  encode (map N_of_ascii (list_ascii_of_string src)).

(** [decodeMap]: the position of a character in the alphabet, if it has
    one. *)
Fixpoint indexOf (c : ascii) (alphabet : string) (i : N) : option N :=
  match alphabet with
  | EmptyString => None
  | String a rest => if Ascii.eqb a c then Some i else indexOf c rest (i + 1)
  end.

Definition decodeMap (c : ascii) : option N := indexOf c encodeURL 0.

Definition CorruptInputError (offset : Z) : error :=
  Errorf ("illegal base64 data at input byte " +:+ pretty offset).

(** The bytes of a quantum of four, three or two 6-bit digits. *)
Definition val (a b c d : N) : N := (a * 2 ^ 18 + b * 2 ^ 12 + c * 2 ^ 6 + d)%N.

Definition byte0 (v : N) : N := ((v / 2 ^ 16) mod 256)%N.
Definition byte1 (v : N) : N := ((v / 2 ^ 8) mod 256)%N.
Definition byte2 (v : N) : N := (v mod 256)%N.

(** The decoding loop without padding and not in strict mode: [si] is the
    offset of the next input byte and [dbuf] holds the digits of the quantum
    read so far. Carriage returns and line feeds are skipped; any other byte
    that is no digit is an error at its offset. At the end of the input a
    quantum of two or three digits gives one or two bytes (the bits left over
    are dropped) and a single digit is an error. *)
Fixpoint decode (src : list ascii) (si : Z) (dbuf : list N)
    : result (list N) :=
  match src with
  | [] =>
      match dbuf with
      | [] => Ok []
      | [a; b] => Ok [byte0 (val a b 0 0)]
      | [a; b; c] => Ok [byte0 (val a b c 0); byte1 (val a b c 0)]
      | _ => Err (CorruptInputError (si - 1))
      end
  | in_ :: rest =>
      match decodeMap in_ with
      | Some out =>
          match dbuf with
          | [a; b; c] =>
              match decode rest (si + 1) [] with
              | Ok dst =>
                  Ok (byte0 (val a b c out) :: byte1 (val a b c out)
                        :: byte2 (val a b c out) :: dst)
              | Err e => Err e
              end
          | _ => decode rest (si + 1) (dbuf ++ [out])
          end
      | None =>
          if Ascii.eqb in_ "010" || Ascii.eqb in_ "013"
          then decode rest (si + 1) dbuf
          else Err (CorruptInputError si)
      end
  end.

Definition RawURLDecodeString (s : string) : result string :=
  match decode (list_ascii_of_string s) 0 [] with
  | Ok dst => Ok (string_of_list_ascii (map ascii_of_N dst))
  | Err e => Err e
  end.

End base64.

(** ** encoding/json of witness records *)

Module json.

(** The bytes of a stored value. The store only ever writes the JSON form of
    a witness record, so a value is kept as the record it decodes to;
    [Garbage] stands for bytes that do not decode. A [Witness] written by
    [Put] has no proof field and decodes to a record with a nil proof. *)
Inductive bytes : Type :=
| Document (w : WitnessProof)
| Garbage (raw : list byte).

Definition Marshal (w : WitnessProof) : bytes := Document w.

Definition MarshalWitness (w : Witness) : bytes :=
  Document {| witness := w; Proof_ := None |}.

Definition Unmarshal (value : bytes) : result WitnessProof :=
  match value with
  | Document w => Ok w
  | Garbage _ => Err (Errorf "invalid character")
  end.

End json.

(** ** spi/storage: the backend store *)

Module storage.

Record Tag : Type := {
  Name : string;
  Value : string
}.

(** Modelled from the spec: the storage interface is an external
    collaborator; section 6 lists its operations ([Put(key, value, tags...)],
    [Batch], [Query(tagExpr)], [GetTags]) and says that a batch entry with no
    value denotes a delete. [PutOptions] only carries an optimisation hint and
    is left out. *)
Record Operation : Type := {
  Key : string;
  OpValue : option json.bytes;
  Tags : list Tag
}.

(** Modelled from the spec: the backend is the in-memory provider, which the
    package's own tests run against: a map from key to value and tags. Its
    operations do not fail; they keep the [error] result of the interface, so
    that the callers below handle it as the source does. *)
Abbreviation db := (gmap string (json.bytes * list Tag)).

(** A put of an existing key overwrites its value and its tags. *)
Definition Put (s : db) (key : string) (value : json.bytes)
    (tags : list Tag) : result unit * db :=
  (Ok tt, <[key := (value, tags)]> s).

Definition applyOperation (s : db) (op : Operation) : db :=
  match OpValue op with
  | Some value => <[Key op := (value, Tags op)]> s
  | None => delete (Key op) s
  end.

Definition Batch (s : db) (operations : list Operation) : result unit * db :=
  (Ok tt, fold_left applyOperation operations s).

Definition hasTag (name value : string) (tags : list Tag) : bool :=
  existsb (fun t => String.eqb (Name t) name && String.eqb (Value t) value)
    tags.

(** [Query("name:value")]: the keys and values of the entries tagged
    [name] with [value], in the backend's order. The iterator of the source is
    read to its end by every caller; here it is the list of what it yields, a
    snapshot, and its [Next], [Key] and [Value] cannot fail. *)
Definition Query (s : db) (name value : string)
    : result (list (string * json.bytes)) :=
  Ok (map (fun kv => (fst kv, fst (snd kv)))
        (List.filter (fun kv => hasTag name value (snd (snd kv)))
           (map_to_list s))).

Definition GetTags (s : db) (key : string) : result (list Tag) :=
  match s !! key with
  | Some e => Ok (snd e)
  | None => Err (Errorf "data not found")
  end.

End storage.

(** ** package witness: the anchor witness store *)

Module witness.

Import storage.

Definition anchorIndex : string := "anchorID".
Definition expiryTagName : string := "ExpiryTime".

Record Store : Type := {
  store : db;
  expiryPeriod : Z
}.

Definition withStore (s : Store) (d : db) : Store :=
  {| store := d; expiryPeriod := expiryPeriod s |}.

Definition anchorTag (anchorIDEncoded : string) : Tag :=
  {| Name := anchorIndex; Value := anchorIDEncoded |}.

(** [Put]. [uuid i] is the key drawn by [uuid.New()] and [now i] the clock
    reading (unix seconds) in iteration [i] of the loop; the expiry period is
    in seconds. Marshalling a witness cannot fail. *)
Definition Put (s : Store) (anchorID : string) (witnesses : list Witness)
    (uuid : nat -> string) (now : nat -> Z) : result unit * Store :=
  let anchorIDEncoded := base64.RawURLEncodeToString anchorID in
  let operations :=
    imap (fun i w =>
            {| Key := uuid i;
               OpValue := Some (json.MarshalWitness w);
               Tags := [ anchorTag anchorIDEncoded;
                         {| Name := expiryTagName;
                            Value := pretty (now i + expiryPeriod s) |} ] |})
      witnesses in
  match Batch (store s) operations with
  | (Err e, d) =>
      (Err (Transient
              (Wrap ("failed to store witnesses for anchorID[" +:+ anchorID +:+ "]") e)),
       withStore s d)
  | (Ok _, d) => (Ok tt, withStore s d)
  end.

Definition Delete (s : Store) (anchorID : string) : result unit * Store :=
  let anchorIDEncoded := base64.RawURLEncodeToString anchorID in
  let query := anchorIndex +:+ ":" +:+ anchorIDEncoded in
  match Query (store s) anchorIndex anchorIDEncoded with
  | Err e =>
      (Err (Transient (Wrap ("failed to get witnesses for[" +:+ query +:+ "]") e)), s)
  | Ok [] =>
      (* no witnesses to delete, nothing to do *)
      (Ok tt, s)
  | Ok items =>
      let witnessKeys := map fst items in
      let operations :=
        map (fun k => {| Key := k; OpValue := None; Tags := [] |}) witnessKeys in
      match Batch (store s) operations with
      | (Err e, d) =>
          (Err (Transient
                  (Wrap ("failed to delete witnesses for anchorID[" +:+ anchorID +:+ "]") e)),
           withStore s d)
      | (Ok _, d) => (Ok tt, withStore s d)
      end
  end.

(** The loop of [Get]: decode every value, stop at the first that fails. *)
Fixpoint decodeWitnesses (anchorID : string)
    (items : list (string * json.bytes)) : result (list WitnessProof) :=
  match items with
  | [] => Ok []
  | (_, value) :: rest =>
      match json.Unmarshal value with
      | Err e =>
          Err (Wrap ("failed to unmarshal anchor witness from store value for anchorID["
                     +:+ anchorID +:+ "]") e)
      | Ok w =>
          match decodeWitnesses anchorID rest with
          | Err e => Err e
          | Ok witnesses => Ok (w :: witnesses)
          end
      end
  end.

Definition Get (s : Store) (anchorID : string) : result (list WitnessProof) :=
  let anchorIDEncoded := base64.RawURLEncodeToString anchorID in
  let query := anchorIndex +:+ ":" +:+ anchorIDEncoded in
  match Query (store s) anchorIndex anchorIDEncoded with
  | Err e =>
      Err (Transient (Wrap ("failed to get witnesses for[" +:+ query +:+ "]") e))
  | Ok items =>
      match decodeWitnesses anchorID items with
      | Err e => Err e
      | Ok [] => Err (Errorf ("anchorID[" +:+ anchorID +:+ "] not found in the store"))
      | Ok witnesses => Ok witnesses
      end
  end.

Definition getWitnessesMap (witnesses : list string) : gmap string bool :=
  fold_left
    (fun witnessesMap w =>
       match witnessesMap !! w with
       | Some _ => witnessesMap
       | None => <[w := true]> witnessesMap
       end)
    witnesses ∅.

(** [%s] of a slice of URLs: the elements separated by spaces, in brackets. *)
Fixpoint joinURLs (witnesses : list string) : string :=
  match witnesses with
  | [] => ""
  | [w] => w
  | w :: rest => w +:+ " " +:+ joinURLs rest
  end.

Definition witnessNotFound (witnesses : list string) (anchorID : string)
    : error :=
  Errorf ("witness[" +:+ joinURLs witnesses +:+ "] not found for anchorID["
          +:+ anchorID +:+ "]").

(** The loop of [updateWitnessProof] over the queried records. An error
    stops it; the writes made before it stay in the backend. *)
Fixpoint updateWitnesses (anchorID anchorIDEncoded : string)
    (witnessesMap : gmap string bool)
    (updateFnc : WitnessProof -> WitnessProof)
    (items : list (string * json.bytes)) (d : db) (updatedNo : Z)
    : result Z * db :=
  match items with
  | [] => (Ok updatedNo, d)
  | (key, value) :: rest =>
      match json.Unmarshal value with
      | Err e =>
          (Err (Wrap ("failed to unmarshal anchor witness from store value for anchorID["
                      +:+ anchorID +:+ "]") e), d)
      | Ok w =>
          match witnessesMap !! URI w with
          | Some _ =>
              let w' := updateFnc w in
              match storage.Put d key (json.Marshal w')
                      [anchorTag anchorIDEncoded] with
              | (Err e, d') =>
                  (Err (Transient
                          (Wrap ("failed to add proof for anchorID[" +:+ anchorID
                                 +:+ "] and witness[" +:+ URI w' +:+ "]") e)), d')
              | (Ok _, d') =>
                  updateWitnesses anchorID anchorIDEncoded witnessesMap
                    updateFnc rest d' (updatedNo + 1)
              end
          | None =>
              updateWitnesses anchorID anchorIDEncoded witnessesMap
                updateFnc rest d updatedNo
          end
      end
  end.

Definition updateWitnessProof (s : Store) (anchorID : string)
    (witnesses : list string) (updateFnc : WitnessProof -> WitnessProof)
    : result unit * Store :=
  let anchorIDEncoded := base64.RawURLEncodeToString anchorID in
  let query := anchorIndex +:+ ":" +:+ anchorIDEncoded in
  match Query (store s) anchorIndex anchorIDEncoded with
  | Err e =>
      (Err (Transient (Wrap ("failed to get witnesses for[" +:+ query +:+ "]") e)), s)
  | Ok items =>
      let witnessesMap := getWitnessesMap witnesses in
      match updateWitnesses anchorID anchorIDEncoded witnessesMap updateFnc
              items (store s) 0 with
      | (Err e, d) => (Err e, withStore s d)
      | (Ok updatedNo, d) =>
          if updatedNo =? 0
          then (Err (witnessNotFound witnesses anchorID), withStore s d)
          else (Ok tt, withStore s d)
      end
  end.

Definition AddProof (s : Store) (anchorID : string) (witness : string)
    (p : option (list byte)) : result unit * Store :=
  updateWitnessProof s anchorID [witness]
    (fun wf => {| proof.witness := proof.witness wf; Proof_ := p |}).

Definition UpdateWitnessSelection (s : Store) (anchorID : string)
    (witnesses : list string) (selected : bool) : result unit * Store :=
  updateWitnessProof s anchorID witnesses
    (fun wf =>
       {| proof.witness :=
            {| Type_ := Type_ wf; URI := URI wf; HasLog := HasLog wf;
               Selected := selected |};
          Proof_ := Proof_ wf |}).

(** What [HandleExpiredKeys] writes to the error log. *)
Inductive expiryLog : Type :=
| GetTagsFailed (key : string) (e : error)
| DecodeFailed (value : string) (e : error)
| FailedToProcess (anchors : list string).

(** The loop over the tags of one expired key. *)
Fixpoint anchorsOfTags (tags : list Tag) (uniqueAnchors : gmap string bool)
    : expiryLog + gmap string bool :=
  match tags with
  | [] => inr uniqueAnchors
  | tag :: rest =>
      if String.eqb (Name tag) anchorIndex then
        match base64.RawURLDecodeString (Value tag) with
        | Err e => inl (DecodeFailed (Value tag) e)
        | Ok anchor => anchorsOfTags rest (<[anchor := true]> uniqueAnchors)
        end
      else anchorsOfTags rest uniqueAnchors
  end.

(** The loop over the expired keys. *)
Fixpoint anchorsOfKeys (d : db) (keys : list string)
    (uniqueAnchors : gmap string bool) : expiryLog + gmap string bool :=
  match keys with
  | [] => inr uniqueAnchors
  | key :: rest =>
      match GetTags d key with
      | Err e => inl (GetTagsFailed key e)
      | Ok tags =>
          match anchorsOfTags tags uniqueAnchors with
          | inl entry => inl entry
          | inr uniqueAnchors' => anchorsOfKeys d rest uniqueAnchors'
          end
      end
  end.

(** [HandleExpiredKeys] returns nil whatever happens and leaves the expired
    entries where they are; what it finds goes to the error log, which is
    the second component here. The anchors are logged in the iteration order
    of the map that collected them. *)
Definition HandleExpiredKeys (s : Store) (keys : list string)
    : result unit * option expiryLog :=
  match keys with
  | [] => (Ok tt, None)
  | _ =>
      match anchorsOfKeys (store s) keys ∅ with
      | inl entry => (Ok tt, Some entry)
      | inr uniqueAnchors =>
          (Ok tt, Some (FailedToProcess (map fst (map_to_list uniqueAnchors))))
      end
  end.

End witness.

(** ** Rounding to binary64 *)

Module rounding.

(** The float with mantissa [m] and exponent [e], where a mantissa that
    rounding carried to [2 ^ 53] is renormalised. *)
Definition pack (m e : Z) : spec_float :=
  if m =? 2 ^ 53 then S754_finite false (2 ^ 52)%positive (e + 1)
  else S754_finite false (Z.to_pos m) e.

(** The position of the exact value after the mantissa has lost its last
    bit: the round bit is that bit, the sticky bit says whether anything was
    below it. *)
Definition halved_location (m : Z) (l : location) : location :=
  loc_of_shr_record
    {| shr_m := m / 2; shr_r := Z.odd m;
       shr_s := match l with loc_Exact => false | _ => true end |}.

(** [f] is the binary64 value nearest to the quotient [c / t]: its mantissa
    [m], scaled by [2 ^ - k], lies in the binade of the quotient and within
    half a unit in the last place of it. *)
Definition rounds_to (c t : Z) (f : spec_float) : Prop :=
  exists m k,
    f = pack m (- k) /\ 0 <= k /\ 2 ^ 52 <= m <= 2 ^ 53 /\
    2 ^ 52 * t <= c * 2 ^ k < 2 ^ 53 * t /\
    2 * Z.abs (m * t - c * 2 ^ k) <= t.



End rounding.

(** ** Definitions used to state the properties *)

Module spec.

Import policy.

Definition isBatch (w : Witness) : bool :=
  match Type_ w with
  | WitnessTypeBatch => true
  | WitnessTypeSystem => false
  end.

Definition isSystem (w : Witness) : bool := negb (isBatch w).

Definition inClass (ty : WitnessType) (w : Witness) : bool :=
  match ty with
  | WitnessTypeBatch => isBatch w
  | WitnessTypeSystem => isSystem w
  end.

(** The number of records of a class. *)
Definition total (ty : WitnessType) (witnesses : list WitnessProof) : Z :=
  Z.of_nat (length (List.filter (fun w : WitnessProof => inClass ty w) witnesses)).

(** The number of records of a class that pass the log check and carry a
    proof that is not nil. *)
Definition collected (cfg : WitnessPolicyConfig) (ty : WitnessType)
    (witnesses : list WitnessProof) : Z :=
  Z.of_nat
    (length
       (List.filter
          (fun w : WitnessProof =>
             inClass ty w && checkLog (LogRequired cfg) (HasLog w)
             && proofNotNil w)
          witnesses)).

(** Follows the spec's words (section 4.4): a record is collected when the
    log check passes and its proof has positive length. *)
Definition proofNonEmpty (w : WitnessProof) : bool :=
  match Proof_ w with
  | Some (_ :: _) => true
  | _ => false
  end.

Definition collectedNonEmpty (cfg : WitnessPolicyConfig) (ty : WitnessType)
    (witnesses : list WitnessProof) : Z :=
  Z.of_nat
    (length
       (List.filter
          (fun w : WitnessProof =>
             inClass ty w && checkLog (LogRequired cfg) (HasLog w)
             && proofNonEmpty w)
          witnesses)).

(** Follows the spec's words (section 4.4): the ratio of collected to total
    records, where a class without records has the ratio 100%. *)
Definition ratio (collected total : Z) : Q :=
  if total =? 0 then 1%Q else (inject_Z collected / inject_Z total)%Q.

(** Follows the spec's words (section 4.4):
    satisfied_class = (MinNumber > 0 and collected >= MinNumber)
                      or (collected/total >= MinPercent/100),
    in exact rational arithmetic. *)
Definition satisfied_class (collected total minNumber minPercent : Z) : bool :=
  ((minNumber >? 0) && (collected >=? minNumber))
  || Qle_bool (inject_Z minPercent / inject_Z 100) (ratio collected total).

(** Follows the spec's words (section 4.4, Combination). *)
Definition combine (op : Operator) (batch system : bool) : bool :=
  match op with
  | AND => batch && system
  | OR => batch || system
  end.

(** The counters that the loop of [Evaluate] keeps for a class. *)
Definition collectedOf (ty : WitnessType) (c : counters) : Z :=
  match ty with
  | WitnessTypeBatch => collectedBatchWitnesses c
  | WitnessTypeSystem => collectedSystemWitnesses c
  end.

Definition totalOf (ty : WitnessType) (c : counters) : Z :=
  match ty with
  | WitnessTypeBatch => totalBatchWitnesses c
  | WitnessTypeSystem => totalSystemWitnesses c
  end.

(** The number of witnesses of a class in the input of a selection. *)
Definition totalOfClass (ty : WitnessType) (witnesses : list Witness) : Z :=
  Z.of_nat (length (List.filter (inClass ty) witnesses)).

(** What the partition loop lets through. *)
Definition eligibleFor (cfg : WitnessPolicyConfig) (exclude : list Witness)
    (ty : WitnessType) (witnesses : list Witness) (w : Witness) : Prop :=
  In w witnesses /\ Type_ w = ty /\
  checkLog (LogRequired cfg) (HasLog w) = true /\
  isExcluded w exclude = false.




(** A strategy hands out candidates only. *)
Definition draws_from_candidates {G : Type}
    (selector : list Witness -> Z -> G -> result (list Witness) * G) : Prop :=
  forall candidates n g selection g',
    selector candidates n g = (Ok selection, g') ->
    forall w, In w selection -> In w candidates.

(** A deterministic strategy for examples: the first [n] candidates; it
    refuses to select more witnesses than there are candidates. *)
Definition firstN (candidates : list Witness) (n : Z) (g : unit)
    : result (list Witness) * unit :=
  if Z.of_nat (length candidates) <? n
  then (Err (Errorf "unable to select witnesses"), g)
  else (Ok (take (Z.to_nat n) candidates), g).

(** The records of an anchor, as the store's query returns them. *)
Definition records (s : witness.Store) (anchorID : string)
    : list (string * json.bytes) :=
  match storage.Query (witness.store s) witness.anchorIndex
          (base64.RawURLEncodeToString anchorID) with
  | Ok items => items
  | Err _ => []
  end.

Definition encoded (anchorID : string) : string :=
  base64.RawURLEncodeToString anchorID.

(** Every queried value decodes to a witness record. *)
Definition allDecode (items : list (string * json.bytes)) : bool :=
  forallb
    (fun kv => match snd kv with
               | json.Document _ => true
               | json.Garbage _ => false
               end)
    items.

(** The queried record has one of the given URIs. *)
Definition itemMatches (uris : list string) (kv : string * json.bytes) : bool :=
  match snd kv with
  | json.Document w => existsb (String.eqb (URI w)) uris
  | json.Garbage _ => false
  end.

(** The stored entry is a record of the anchor with one of the given URIs. *)
Definition matches (anchorID : string) (uris : list string)
    (e : json.bytes * list storage.Tag) : bool :=
  match fst e with
  | json.Document w =>
      storage.hasTag witness.anchorIndex (encoded anchorID) (snd e)
      && existsb (String.eqb (URI w)) uris
  | json.Garbage _ => false
  end.

(** What an update leaves in place of an entry: a matching entry holds the
    updated record and the anchor tag alone, any other entry is unchanged. *)
Definition rewritten (anchorID : string) (uris : list string)
    (updateFnc : WitnessProof -> WitnessProof)
    (e : json.bytes * list storage.Tag) : json.bytes * list storage.Tag :=
  match fst e with
  | json.Document w =>
      if matches anchorID uris e
      then (json.Document (updateFnc w), [witness.anchorTag (encoded anchorID)])
      else e
  | json.Garbage _ => e
  end.

Definition setProof (p : option (list byte)) (wf : WitnessProof) : WitnessProof :=
  {| witness := witness wf; Proof_ := p |}.

Definition setSelected (selected : bool) (wf : WitnessProof) : WitnessProof :=
  {| witness :=
       {| Type_ := Type_ wf; URI := URI wf; HasLog := HasLog wf;
          Selected := selected |};
     Proof_ := Proof_ wf |}.

Definition notFoundInStore (anchorID : string) : error :=
  Errorf ("anchorID[" +:+ anchorID +:+ "] not found in the store").

(** [sub] occurs in [s]. *)
Definition contains (s sub : string) : Prop :=
  exists pre post, s = pre +:+ sub +:+ post.

(** The state of the second loop of [intersection]: the map [h] knows the
    URIs of [a] and marks those that the result [acc] already holds; [acc]
    holds no URI twice and only URIs of [a]. *)
Definition marks (a acc : list Witness) (h : gmap string bool) : Prop :=
  NoDup (map URI acc) /\
  (forall w, In w acc -> In (URI w) (map URI a)) /\
  forall u, h !! u = if existsb (String.eqb u) (map URI a)
                     then Some (existsb (String.eqb u) (map URI acc))
                     else None.

(** [w'] is the record [w] at a later time: the same witness, with a proof
    if [w] had one. *)
Definition addsProof (w w' : WitnessProof) : Prop :=
  witness w = witness w' /\ (proofNotNil w = true -> proofNotNil w' = true).

(** Two records that agree on their type, on having a log and on having a
    proof. *)
Definition sameForPolicy (w w' : WitnessProof) : Prop :=
  Type_ w = Type_ w' /\ HasLog w = HasLog w' /\ proofNotNil w = proofNotNil w'.

(** The witness records that queried values decode to. *)
Definition documents (items : list (string * json.bytes)) : list WitnessProof :=
  flat_map (fun kv => match snd kv with
                      | json.Document w => [w]
                      | json.Garbage _ => []
                      end) items.

(** The record that the stored form of a witness decodes to. *)
Definition nilProof (w : Witness) : WitnessProof :=
  {| witness := w; Proof_ := None |}.

Definition unmarshalFailed (anchorID : string) (inner : error) : error :=
  Wrap ("failed to unmarshal anchor witness from store value for anchorID["
        +:+ anchorID +:+ "]")
    inner.

(** A record after an update of the witnesses with the given URIs. *)
Definition updated (uris : list string) (updateFnc : WitnessProof -> WitnessProof)
    (w : WitnessProof) : WitnessProof :=
  if existsb (String.eqb (URI w)) uris then updateFnc w else w.

Definition updatedItem (uris : list string)
    (updateFnc : WitnessProof -> WitnessProof) (kv : string * json.bytes)
    : string * json.bytes :=
  match snd kv with
  | json.Document w => (fst kv, json.Document (updated uris updateFnc w))
  | json.Garbage _ => kv
  end.

(** An entry as the witness store writes it: the value decodes and exactly
    one tag names the anchor. *)
Definition consistentEntry (e : json.bytes * list storage.Tag) : bool :=
  match fst e with
  | json.Document _ => true
  | json.Garbage _ => false
  end
  && Nat.eqb
       (length (List.filter
                  (fun t => String.eqb (storage.Name t) witness.anchorIndex)
                  (snd e)))
       1.

Definition consistent (d : storage.db) : bool :=
  forallb (fun kv => consistentEntry (snd kv)) (map_to_list d).

End spec.

(** ** Concrete inputs for the examples *)

Module examples.

Definition mkWitness (ty : WitnessType) (uri : string) (hasLog : bool)
    : Witness :=
  {| Type_ := ty; URI := uri; HasLog := hasLog; Selected := false |}.

(** Two peers, each registered both as a batch and as a system witness. *)
Definition a_batch : Witness := mkWitness WitnessTypeBatch "https://a.com/services/orb" true.
Definition a_system : Witness := mkWitness WitnessTypeSystem "https://a.com/services/orb" true.

(** Batch-only and system-only peers, with and without a log. *)
Definition b1 : Witness := mkWitness WitnessTypeBatch "https://b1.com/services/orb" true.
Definition b2 : Witness := mkWitness WitnessTypeBatch "https://b2.com/services/orb" false.
Definition b3 : Witness := mkWitness WitnessTypeBatch "https://b3.com/services/orb" true.
Definition b4 : Witness := mkWitness WitnessTypeBatch "https://b4.com/services/orb" false.
Definition s1 : Witness := mkWitness WitnessTypeSystem "https://s1.com/services/orb" true.
Definition s2 : Witness := mkWitness WitnessTypeSystem "https://s2.com/services/orb" true.
Definition s3 : Witness := mkWitness WitnessTypeSystem "https://s3.com/services/orb" false.

(** "MinNumber(1,batch) AND MinNumber(1,system)" *)
Definition oneOfEach : WitnessPolicyConfig :=
  {| MinNumberSystem := 1; MinNumberBatch := 1;
     MinPercentSystem := 0; MinPercentBatch := 0;
     Operator_ := AND; LogRequired := false |}.

(** "MinNumber(2,batch) AND MinNumber(2,system)" *)
Definition twoOfEach : WitnessPolicyConfig :=
  {| MinNumberSystem := 2; MinNumberBatch := 2;
     MinPercentSystem := 0; MinPercentBatch := 0;
     Operator_ := AND; LogRequired := false |}.

(** "MinNumber(2,system) OR MinNumber(2,batch)" *)
Definition twoOfEither : WitnessPolicyConfig :=
  {| MinNumberSystem := 2; MinNumberBatch := 2;
     MinPercentSystem := 0; MinPercentBatch := 0;
     Operator_ := OR; LogRequired := false |}.

(** "LogRequired MinPercent(50,batch)" *)
Definition halfOfBatchWithLog : WitnessPolicyConfig :=
  {| MinNumberSystem := 0; MinNumberBatch := 0;
     MinPercentSystem := 0; MinPercentBatch := 50;
     Operator_ := AND; LogRequired := true |}.

(** "MinPercent(100,batch) AND MinPercent(0,system)" *)
Definition allOfBatch : WitnessPolicyConfig :=
  {| MinNumberSystem := 0; MinNumberBatch := 0;
     MinPercentSystem := 0; MinPercentBatch := 100;
     Operator_ := AND; LogRequired := false |}.

Definition withProof (w : Witness) (p : option (list byte)) : WitnessProof :=
  {| witness := w; Proof_ := p |}.

(** An empty store with a ten-second expiry period, and the store after
    [Put] of two batch witnesses for the anchor "id". *)
Definition emptyStore : witness.Store :=
  {| witness.store := ∅; witness.expiryPeriod := 10 |}.

Definition uuid (i : nat) : string := "key-" +:+ pretty i.

Definition storeWithTwo : witness.Store :=
  snd (witness.Put emptyStore "id" [b1; b3] uuid (fun _ => 1000)).

(** The same store after a [Put] of a system witness for the anchor
    "id2". *)
Definition uuid2 (i : nat) : string := "key2-" +:+ pretty i.

Definition storeWithTwoAnchors : witness.Store :=
  snd (witness.Put storeWithTwo "id2" [s1] uuid2 (fun _ => 2000)).

End examples.

(** * Properties *)

Import policy spec rounding examples.

(** ** Generic facts about the loops *)

Lemma fold_left_invariant {A B : Type} (P : A -> Prop) (f : A -> B -> A)
    (l : list B) (init : A) :
  P init -> (forall acc x, In x l -> P acc -> P (f acc x)) ->
  P (fold_left f l init).
Proof.
  revert init. induction l as [|x l IH]; intros init Hinit Hstep; simpl.
  - exact Hinit.
  - apply IH.
    + apply Hstep; [now left | exact Hinit].
    + intros acc y Hy. apply Hstep. now right.
Qed.

(** ** Counting in [Evaluate] *)

Lemma countWitnesses_from (cfg : WitnessPolicyConfig)
    (witnesses : list WitnessProof) (c : counters) :
  let c' := fold_left (countWitness cfg) witnesses c in
  totalBatchWitnesses c' = totalBatchWitnesses c + total WitnessTypeBatch witnesses /\
  totalSystemWitnesses c' = totalSystemWitnesses c + total WitnessTypeSystem witnesses /\
  collectedBatchWitnesses c' =
    collectedBatchWitnesses c + collected cfg WitnessTypeBatch witnesses /\
  collectedSystemWitnesses c' =
    collectedSystemWitnesses c + collected cfg WitnessTypeSystem witnesses.
Proof.
  revert c. induction witnesses as [|w ws IH]; intros c.
  - unfold total, collected; simpl. lia.
  - simpl fold_left. specialize (IH (countWitness cfg c w)).
    cbv zeta in IH. destruct IH as (Htb & Hts & Hcb & Hcs).
    cbv zeta. rewrite Htb, Hts, Hcb, Hcs.
    unfold total, collected, countWitness, inClass, isSystem, isBatch.
    simpl List.filter.
    destruct (Type_ w); simpl;
      destruct (checkLog (LogRequired cfg) (HasLog w) && proofNotNil w);
      simpl; lia.
Qed.

Lemma countWitnesses_counts (cfg : WitnessPolicyConfig)
    (witnesses : list WitnessProof) :
  totalBatchWitnesses (countWitnesses cfg witnesses) = total WitnessTypeBatch witnesses /\
  totalSystemWitnesses (countWitnesses cfg witnesses) = total WitnessTypeSystem witnesses /\
  collectedBatchWitnesses (countWitnesses cfg witnesses) =
    collected cfg WitnessTypeBatch witnesses /\
  collectedSystemWitnesses (countWitnesses cfg witnesses) =
    collected cfg WitnessTypeSystem witnesses.
Proof.
  unfold countWitnesses.
  pose proof (countWitnesses_from cfg witnesses
                {| totalSystemWitnesses := 0; collectedSystemWitnesses := 0;
                   totalBatchWitnesses := 0; collectedBatchWitnesses := 0 |}) as H.
  cbv zeta in H. simpl in H. exact H.
Qed.

Lemma collected_le_total (cfg : WitnessPolicyConfig) (ty : WitnessType)
    (witnesses : list WitnessProof) :
  0 <= collected cfg ty witnesses <= total ty witnesses /\
  total ty witnesses <= Z.of_nat (length witnesses).
Proof.
  unfold collected, total.
  induction witnesses as [|w ws IH]; simpl; [lia|].
  destruct (inClass ty w); simpl;
    try destruct (checkLog (LogRequired cfg) (HasLog w) && proofNotNil w);
    simpl; lia.
Qed.

(** C4 (counterexample): a batch record whose proof is present but empty is
    counted as collected, so the counter of [Evaluate] is not the number of
    records with a proof of positive length. *)
Lemma C4_empty_proof_is_counted :
  ~ (forall (cfg : WitnessPolicyConfig) (ty : WitnessType)
            (witnesses : list WitnessProof),
       collectedOf ty (countWitnesses cfg witnesses)
       = collectedNonEmpty cfg ty witnesses).
Proof.
  intros H.
  specialize (H {| MinNumberSystem := 0; MinNumberBatch := 0;
                   MinPercentSystem := 0; MinPercentBatch := 100;
                   Operator_ := AND; LogRequired := false |}
                WitnessTypeBatch
                [ {| witness := {| Type_ := WitnessTypeBatch; URI := "w1";
                                   HasLog := false; Selected := true |};
                     Proof_ := Some [] |} ]).
  vm_compute in H. discriminate H.
Qed.

(** C4 (amended): for every configuration and every list of records, the
    counters of [Evaluate] are, per class, the number of records of the class
    and the number of those that pass the log check and whose proof is not
    nil; an empty, non-nil proof counts. *)
Theorem C4_collected_counts_non_nil_proofs (cfg : WitnessPolicyConfig)
    (ty : WitnessType) (witnesses : list WitnessProof) :
  totalOf ty (countWitnesses cfg witnesses) = total ty witnesses /\
  collectedOf ty (countWitnesses cfg witnesses) = collected cfg ty witnesses /\
  (forall w : WitnessProof,
     collected cfg ty [w] =
       if inClass ty w && checkLog (LogRequired cfg) (HasLog w)
       then match Proof_ w with Some _ => 1 | None => 0 end
       else 0).
Proof.
  destruct (countWitnesses_counts cfg witnesses) as (Htb & Hts & Hcb & Hcs).
  split; [|split].
  - destruct ty; simpl; assumption.
  - destruct ty; simpl; assumption.
  - intros w. unfold collected, proofNotNil. simpl.
    destruct (inClass ty w && checkLog (LogRequired cfg) (HasLog w));
      destruct (Proof_ w); reflexivity.
Qed.

(** ** binary64 quotients of integers

    [Evaluate] compares two float64 quotients of integers. The lemmas below
    follow the division of [spec_float] through its rounding and show that,
    for the sizes at hand, the comparison of the rounded quotients agrees with
    the comparison of the exact ones. *)

Lemma digits2_pos_bounds (p : positive) :
  2 ^ (Z.pos (digits2_pos p) - 1) <= Z.pos p < 2 ^ Z.pos (digits2_pos p).
Proof.
  induction p as [p IH|p IH|]; cbn [digits2_pos]; rewrite ?Pos2Z.inj_succ.
  - replace (Z.succ (Z.pos (digits2_pos p)) - 1) with (Z.succ (Z.pos (digits2_pos p) - 1)) by lia.
    rewrite !Z.pow_succ_r by lia. lia.
  - replace (Z.succ (Z.pos (digits2_pos p)) - 1) with (Z.succ (Z.pos (digits2_pos p) - 1)) by lia.
    rewrite !Z.pow_succ_r by lia. lia.
  - simpl. lia.
Qed.

Lemma digits2_pos_unique (p : positive) (n : Z) :
  2 ^ (n - 1) <= Z.pos p < 2 ^ n -> Z.pos (digits2_pos p) = n.
Proof.
  intros [Hlo Hhi]. pose proof (digits2_pos_bounds p) as [Dlo Dhi].
  assert (0 < n).
  { destruct (Z_lt_le_dec 0 n) as [|Hn]; [assumption|]. exfalso.
    destruct (Z.eq_dec n 0) as [->|]; [simpl in Hhi; lia|].
    rewrite Z.pow_neg_r in Hhi by lia. lia. }
  assert (Z.pos (digits2_pos p) - 1 < n).
  { apply (Z.pow_lt_mono_r_iff 2); lia. }
  assert (n - 1 < Z.pos (digits2_pos p)).
  { apply (Z.pow_lt_mono_r_iff 2); lia. }
  lia.
Qed.

Lemma iter_xO (p n : positive) : Z.pos (Pos.iter xO p n) = Z.pos p * 2 ^ Z.pos n.
Proof.
  induction n as [|n IH] using Pos.peano_ind.
  - simpl. lia.
  - rewrite Pos.iter_succ. rewrite Pos2Z.inj_succ, Z.pow_succ_r by lia.
    rewrite Pos2Z.inj_xO, IH. lia.
Qed.

Lemma loc_of_shr_record_of_loc (m : Z) (l : location) :
  loc_of_shr_record (shr_record_of_loc m l) = l.
Proof. destruct l as [|[]]; reflexivity. Qed.

Lemma shr_m_record_of_loc (m : Z) (l : location) :
  shr_m (shr_record_of_loc m l) = m.
Proof. destruct l as [|[]]; reflexivity. Qed.

Lemma Zdigits2_of_bounds (m n : Z) :
  2 ^ (n - 1) <= m < 2 ^ n -> 0 < n -> Zdigits2 m = n.
Proof.
  intros H Hn. assert (0 < 2 ^ (n - 1)) by (apply Z.pow_pos_nonneg; lia).
  destruct m as [|p|p]; try lia. simpl. now apply digits2_pos_unique.
Qed.

Lemma shr_fexp_53 (m e : Z) (l : location) :
  2 ^ 52 <= m < 2 ^ 53 -> -1074 <= e ->
  shr_fexp float64.prec float64.emax m e l = (shr_record_of_loc m l, e).
Proof.
  intros Hm He. unfold shr_fexp. rewrite (Zdigits2_of_bounds m 53) by (simpl; lia).
  unfold fexp, emin, float64.prec, float64.emax.
  replace (Z.max (53 + e - 53) (3 - 1024 - 53) - e) with 0 by lia.
  reflexivity.
Qed.

Lemma shr_fexp_54 (m e : Z) (l : location) :
  2 ^ 53 <= m < 2 ^ 54 -> -1075 <= e ->
  shr_fexp float64.prec float64.emax m e l = (shr_1 (shr_record_of_loc m l), e + 1).
Proof.
  intros Hm He. unfold shr_fexp. rewrite (Zdigits2_of_bounds m 54) by (simpl; lia).
  unfold fexp, emin, float64.prec, float64.emax.
  replace (Z.max (54 + e - 53) (3 - 1024 - 53) - e) with 1 by lia.
  reflexivity.
Qed.

Lemma shr_1_pos (m : Z) (r s : bool) :
  0 < m ->
  shr_1 {| shr_m := m; shr_r := r; shr_s := s |}
  = {| shr_m := m / 2; shr_r := Z.odd m; shr_s := r || s |}.
Proof.
  intros Hm. destruct m as [|p|p]; try lia.
  destruct p as [p|p|]; simpl shr_1.
  - f_equal. rewrite Pos2Z.inj_xI. apply Z.div_unique with (r := 1); lia.
  - f_equal. rewrite Pos2Z.inj_xO. apply Z.div_unique with (r := 0); lia.
  - reflexivity.
Qed.

Lemma round_nearest_even_bounds (m : Z) (l : location) :
  round_nearest_even m l = m \/ round_nearest_even m l = m + 1.
Proof.
  destruct l as [|[]]; simpl; auto. destruct (Z.even m); auto.
Qed.

(** The second normalisation of [binary_round_aux], after rounding. *)
Lemma normalise_rounded (m e : Z) :
  2 ^ 52 <= m <= 2 ^ 53 -> -1074 <= e <= 970 ->
  (let '(mrs, e') := shr_fexp float64.prec float64.emax m e loc_Exact in
   match shr_m mrs with
   | Z0 => S754_zero false
   | Z.pos p =>
       if e' <=? float64.emax - float64.prec
       then S754_finite false p e'
       else S754_infinity false
   | Z.neg _ => S754_nan
   end) = pack m e.
Proof.
  intros Hm He. unfold pack.
  destruct (Z.eqb_spec m (2 ^ 53)) as [->|Hne].
  - rewrite shr_fexp_54 by (simpl; lia). simpl shr_m.
    unfold float64.emax, float64.prec.
    assert (E : (e + 1 <=? 1024 - 53) = true) by lia. rewrite E. reflexivity.
  - rewrite shr_fexp_53 by lia. simpl shr_m.
    destruct m as [|p|p]; try lia. unfold float64.emax, float64.prec.
    assert (E : (e <=? 1024 - 53) = true) by lia. rewrite E. reflexivity.
Qed.

Lemma binary_round_aux_53 (m e : Z) (l : location) :
  2 ^ 52 <= m < 2 ^ 53 -> -1074 <= e <= 970 ->
  binary_round_aux float64.prec float64.emax false m e l = pack (round_nearest_even m l) e.
Proof.
  intros Hm He. unfold binary_round_aux.
  rewrite shr_fexp_53 by lia.
  rewrite shr_m_record_of_loc, loc_of_shr_record_of_loc.
  apply normalise_rounded; [|lia].
  destruct (round_nearest_even_bounds m l) as [-> | ->]; lia.
Qed.

Lemma binary_round_aux_54 (m e : Z) (l : location) :
  2 ^ 53 <= m < 2 ^ 54 -> -1075 <= e <= 969 ->
  binary_round_aux float64.prec float64.emax false m e l
  = pack (round_nearest_even (m / 2) (halved_location m l)) (e + 1).
Proof.
  intros Hm He. unfold binary_round_aux.
  rewrite shr_fexp_54 by lia.
  assert (Hshr : shr_1 (shr_record_of_loc m l)
                 = {| shr_m := m / 2; shr_r := Z.odd m;
                      shr_s := match l with loc_Exact => false | _ => true end |}).
  { destruct l as [|[]]; simpl shr_record_of_loc; rewrite shr_1_pos by lia;
      reflexivity. }
  rewrite Hshr. cbn [shr_m]. fold (halved_location m l).
  assert (2 ^ 52 <= m / 2 < 2 ^ 53).
  { split.
    - apply Z.div_le_lower_bound; lia.
    - apply Z.div_lt_upper_bound; lia. }
  apply normalise_rounded; [|lia].
  destruct (round_nearest_even_bounds (m / 2) (halved_location m l)) as [-> | ->]; lia.
Qed.

Lemma pow2_pos (k : Z) : 0 <= k -> 0 < 2 ^ k.
Proof. intros. apply Z.pow_pos_nonneg; lia. Qed.

Lemma float64_of_int_pos (n : Z) :
  0 < n < 2 ^ 53 ->
  exists m k,
    float64.of_int n = S754_finite false m (- k) /\
    2 ^ 52 <= Z.pos m < 2 ^ 53 /\ 0 <= k <= 52 /\ Z.pos m = n * 2 ^ k.
Proof.
  intros Hn. destruct n as [|p|p]; try lia.
  pose proof (digits2_pos_bounds p) as [Dlo Dhi].
  set (d := Z.pos (digits2_pos p)) in *.
  assert (Hd : 1 <= d <= 53).
  { split; [unfold d; lia|].
    assert (d - 1 < 53); [|lia]. apply (Z.pow_lt_mono_r_iff 2); lia. }
  assert (Hshift : 2 ^ 52 <= Z.pos p * 2 ^ (53 - d) < 2 ^ 53).
  { assert (E1 : 2 ^ 52 = 2 ^ (d - 1) * 2 ^ (53 - d))
      by (rewrite <- Z.pow_add_r by lia; f_equal; lia).
    assert (E2 : 2 ^ 53 = 2 ^ d * 2 ^ (53 - d))
      by (rewrite <- Z.pow_add_r by lia; f_equal; lia).
    rewrite E1, E2.
    pose proof (pow2_pos (53 - d) ltac:(lia)). split.
    - apply Z.mul_le_mono_nonneg_r; lia.
    - apply Z.mul_lt_mono_pos_r; lia. }
  unfold float64.of_int, binary_normalize, binary_round. fold d.
  unfold fexp, emin, float64.prec, float64.emax.
  replace (Z.max (d + 0 - 53) (3 - 1024 - 53)) with (d - 53) by lia.
  unfold shl_align.
  destruct (d - 53 - 0) as [|k|k] eqn:Hk; try lia.
  - assert (d = 53) by lia.
    exists p, 0. replace (53 - d) with 0 in Hshift by lia.
    rewrite Z.mul_1_r in Hshift.
    change (binary_round_aux 53 1024 false (Z.pos p) 0 loc_Exact)
      with (binary_round_aux float64.prec float64.emax false (Z.pos p) 0 loc_Exact).
    rewrite binary_round_aux_53 by lia. simpl round_nearest_even.
    unfold pack. destruct (Z.eqb_spec (Z.pos p) (2 ^ 53)); [lia|].
    simpl Z.to_pos. repeat split; simpl; lia.
  - assert (Hkd : Z.pos k = 53 - d) by lia.
    exists (Pos.iter xO p k), (53 - d).
    pose proof (iter_xO p k) as Hiter. rewrite Hkd in Hiter.
    change (binary_round_aux 53 1024 false (Z.pos (Pos.iter xO p k)) (d - 53) loc_Exact)
      with (binary_round_aux float64.prec float64.emax false
              (Z.pos (Pos.iter xO p k)) (d - 53) loc_Exact).
    rewrite binary_round_aux_53 by lia. simpl round_nearest_even.
    unfold pack. destruct (Z.eqb_spec (Z.pos (Pos.iter xO p k)) (2 ^ 53)); [lia|].
    simpl Z.to_pos. replace (- (53 - d)) with (d - 53) by lia.
    repeat split; lia.
Qed.

Lemma new_location_spec (D r : Z) :
  0 <= r < D ->
  new_location D r = if r =? 0 then loc_Exact else loc_Inexact (2 * r ?= D).
Proof.
  intros Hr. unfold new_location, new_location_even, new_location_odd.
  destruct (Z.even D) eqn:Ev; destruct (Z.eqb_spec r 0) as [|Hne]; auto.
  f_equal.
  assert (Hodd : Z.odd D = true) by (rewrite <- Z.negb_even, Ev; reflexivity).
  apply Z.odd_spec in Hodd. destruct Hodd as [h ->].
  destruct (Z.compare_spec (2 * r + 1) (2 * h + 1));
    destruct (Z.compare_spec (2 * r) (2 * h + 1)); try reflexivity; lia.
Qed.

(** The rounded mantissa is within half a unit of the exact quotient. *)
Lemma round_quotient (D q r : Z) :
  0 <= r < D ->
  let m := round_nearest_even q (new_location D r) in
  2 * Z.abs (m * D - (q * D + r)) <= D.
Proof.
  intros Hr. cbv zeta. rewrite new_location_spec by lia.
  destruct (Z.eqb_spec r 0) as [->|Hne].
  - simpl round_nearest_even. lia.
  - destruct (Z.compare_spec (2 * r) D); simpl round_nearest_even;
      [destruct (Z.even q)| |]; lia.
Qed.

Lemma round_quotient_halved (D q r : Z) :
  0 <= r < D -> 0 < q ->
  let m := round_nearest_even (q / 2) (halved_location q (new_location D r)) in
  2 * Z.abs (m * (2 * D) - (q * D + r)) <= 2 * D.
Proof.
  intros Hr Hq. cbv zeta. rewrite new_location_spec by lia.
  pose proof (Z.div_mod q 2 ltac:(lia)) as Hdm.
  pose proof (Zmod_odd q) as Hodd.
  unfold halved_location.
  destruct (Z.odd q); destruct (Z.eqb_spec r 0) as [->|Hne];
    [| destruct (Z.compare_spec (2 * r) D)
     | | destruct (Z.compare_spec (2 * r) D)];
    simpl loc_of_shr_record; simpl round_nearest_even;
    try destruct (Z.even (q / 2)); nia.
Qed.

Lemma SFdiv_core_binary_normal (m1 m2 : positive) (k1 k2 : Z) :
  2 ^ 52 <= Z.pos m1 < 2 ^ 53 -> 2 ^ 52 <= Z.pos m2 < 2 ^ 53 ->
  0 <= k1 <= 52 -> 0 <= k2 <= 52 ->
  SFdiv_core_binary float64.prec float64.emax (Z.pos m1) (- k1) (Z.pos m2) (- k2)
  = ((Z.pos m1 * 2 ^ 53) / Z.pos m2, k2 - k1 - 53,
     new_location (Z.pos m2) ((Z.pos m1 * 2 ^ 53) mod Z.pos m2)).
Proof.
  intros H1 H2 Hk1 Hk2. unfold SFdiv_core_binary.
  rewrite (Zdigits2_of_bounds (Z.pos m1) 53) by (simpl; lia).
  rewrite (Zdigits2_of_bounds (Z.pos m2) 53) by (simpl; lia).
  unfold fexp, emin, float64.prec, float64.emax.
  replace (Z.min (Z.max (53 + - k1 - (53 + - k2) - 53) (3 - 1024 - 53)) (- k1 - - k2))
    with (k2 - k1 - 53) by lia.
  replace (- k1 - - k2 - (k2 - k1 - 53)) with 53 by lia.
  rewrite Z.shiftl_mul_pow2 by lia.
  unfold Z.div, Z.modulo.
  destruct (Z.div_eucl (Z.pos m1 * 2 ^ 53) (Z.pos m2)) as [q r]. reflexivity.
Qed.

Lemma fdiv_normal (m1 m2 : positive) (k1 k2 : Z) :
  2 ^ 52 <= Z.pos m1 < 2 ^ 53 -> 2 ^ 52 <= Z.pos m2 < 2 ^ 53 ->
  0 <= k1 <= 52 -> 0 <= k2 <= 52 ->
  exists m e D,
    float64.div (S754_finite false m1 (- k1)) (S754_finite false m2 (- k2)) = pack m e /\
    2 ^ 52 <= m <= 2 ^ 53 /\
    2 ^ 52 * D <= Z.pos m1 * 2 ^ 53 < 2 ^ 53 * D /\
    2 * Z.abs (m * D - Z.pos m1 * 2 ^ 53) <= D /\
    (D = Z.pos m2 /\ e = k2 - k1 - 53 \/ D = 2 * Z.pos m2 /\ e = k2 - k1 - 52).
Proof.
  intros H1 H2 Hk1 Hk2. unfold float64.div, SFdiv.
  rewrite SFdiv_core_binary_normal by assumption.
  set (N := Z.pos m1 * 2 ^ 53). set (D := Z.pos m2).
  pose proof (Z.div_mod N D ltac:(unfold D; lia)) as Hdm.
  pose proof (Z.mod_pos_bound N D ltac:(unfold D; lia)) as Hr.
  set (q := N / D) in *. set (r := N mod D) in *.
  assert (Hq : 2 ^ 52 <= q < 2 ^ 54).
  { unfold N, D in *. split.
    - apply Z.div_le_lower_bound; lia.
    - apply Z.div_lt_upper_bound; lia. }
  simpl xorb.
  destruct (Z_lt_le_dec q (2 ^ 53)) as [Hlt|Hge].
  - rewrite binary_round_aux_53 by lia.
    exists (round_nearest_even q (new_location D r)), (k2 - k1 - 53), D.
    split; [reflexivity|].
    pose proof (round_quotient D q r Hr) as Hround. cbv zeta in Hround.
    destruct (round_nearest_even_bounds q (new_location D r)) as [E|E];
      rewrite E in *; repeat split; try lia; try nia.
  - rewrite binary_round_aux_54 by lia.
    assert (Hh : 2 ^ 52 <= q / 2 < 2 ^ 53).
    { split.
      - apply Z.div_le_lower_bound; lia.
      - apply Z.div_lt_upper_bound; lia. }
    exists (round_nearest_even (q / 2) (halved_location q (new_location D r))),
           (k2 - k1 - 53 + 1), (2 * D).
    split; [reflexivity|].
    pose proof (round_quotient_halved D q r Hr ltac:(lia)) as Hround.
    cbv zeta in Hround.
    destruct (round_nearest_even_bounds (q / 2) (halved_location q (new_location D r)))
      as [E|E]; rewrite E in *; repeat split; try lia; try nia.
Qed.

Lemma scale_cancel (m t X P N D : Z) :
  0 < P -> N = X * P -> D = t * P ->
  2 ^ 52 * D <= N < 2 ^ 53 * D ->
  2 * Z.abs (m * D - N) <= D ->
  2 ^ 52 * t <= X < 2 ^ 53 * t /\ 2 * Z.abs (m * t - X) <= t.
Proof.
  intros HP -> -> Hb Hr.
  replace (m * (t * P) - X * P) with ((m * t - X) * P) in Hr by ring.
  rewrite Z.abs_mul, (Z.abs_eq P) in Hr by lia.
  split; [split|]; nia.
Qed.

Lemma fdiv_of_int (c t : Z) :
  0 < c < 2 ^ 53 -> 0 < t < 2 ^ 53 ->
  rounds_to c t (float64.div (float64.of_int c) (float64.of_int t)).
Proof.
  intros Hc Ht.
  destruct (float64_of_int_pos c Hc) as (m1 & k1 & -> & Hm1 & Hk1 & E1).
  destruct (float64_of_int_pos t Ht) as (m2 & k2 & -> & Hm2 & Hk2 & E2).
  destruct (fdiv_normal m1 m2 k1 k2 Hm1 Hm2 Hk1 Hk2)
    as (m & e & D & -> & Hm & Hbin & Hround & [[HD He]|[HD He]]).
  - exists m, (53 + k1 - k2). replace (- (53 + k1 - k2)) with e by lia.
    split; [reflexivity|]. split; [lia|]. split; [exact Hm|].
    apply (scale_cancel m t (c * 2 ^ (53 + k1 - k2)) (2 ^ k2)
             (Z.pos m1 * 2 ^ 53) D); auto.
    + apply pow2_pos; lia.
    + rewrite E1, <- !Z.mul_assoc, <- !Z.pow_add_r by lia. do 2 f_equal. lia.
    + lia.
  - exists m, (52 + k1 - k2). replace (- (52 + k1 - k2)) with e by lia.
    split; [reflexivity|]. split; [lia|]. split; [exact Hm|].
    apply (scale_cancel m t (c * 2 ^ (52 + k1 - k2)) (2 ^ (k2 + 1))
             (Z.pos m1 * 2 ^ 53) D); auto.
    + apply pow2_pos; lia.
    + rewrite E1, <- !Z.mul_assoc, <- !Z.pow_add_r by lia. do 2 f_equal. lia.
    + rewrite HD, E2, Z.pow_add_r by lia. simpl (2 ^ 1). lia.
Qed.

Lemma SFleb_normal (n1 n2 : positive) (e1 e2 s : Z) :
  2 ^ 52 <= Z.pos n1 < 2 ^ 53 -> 2 ^ 52 <= Z.pos n2 < 2 ^ 53 ->
  0 <= e1 + s -> 0 <= e2 + s ->
  SFleb (S754_finite false n1 e1) (S754_finite false n2 e2) = true
  <-> Z.pos n1 * 2 ^ (e1 + s) <= Z.pos n2 * 2 ^ (e2 + s).
Proof.
  intros H1 H2 Hs1 Hs2. unfold SFleb, SFcompare.
  pose proof (pow2_pos (e1 + s) Hs1) as P1.
  pose proof (pow2_pos (e2 + s) Hs2) as P2.
  destruct (Z.compare_spec e1 e2) as [->|Hlt|Hgt].
  - rewrite Pos.compare_cont_spec. simpl Pos.switch_Eq.
    change (n1 ?= n2)%positive with (Z.pos n1 ?= Z.pos n2).
    destruct (Z.compare_spec (Z.pos n1) (Z.pos n2)); split; intros; try reflexivity;
      try discriminate; try nia.
  - split; [intros _|reflexivity].
    replace (e2 + s) with ((e2 - e1 - 1) + 1 + (e1 + s)) by lia.
    rewrite (Z.pow_add_r 2 (e2 - e1 - 1 + 1) (e1 + s)) by lia.
    rewrite (Z.pow_add_r 2 (e2 - e1 - 1) 1) by lia. simpl (2 ^ 1).
    pose proof (pow2_pos (e2 - e1 - 1) ltac:(lia)) as PY.
    set (X := 2 ^ (e1 + s)) in *. set (Y := 2 ^ (e2 - e1 - 1)) in *.
    assert (Z.pos n1 * X <= 2 ^ 53 * X) by nia.
    assert (2 ^ 53 * X <= Z.pos n2 * 2 * X) by nia.
    assert (1 * (Z.pos n2 * 2 * X) <= Y * (Z.pos n2 * 2 * X))
      by (apply Z.mul_le_mono_nonneg_r; nia).
    lia.
  - split; [discriminate|]. intros Hle. exfalso.
    replace (e1 + s) with ((e1 - e2 - 1) + 1 + (e2 + s)) in Hle by lia.
    rewrite (Z.pow_add_r 2 (e1 - e2 - 1 + 1) (e2 + s)) in Hle by lia.
    rewrite (Z.pow_add_r 2 (e1 - e2 - 1) 1) in Hle by lia. simpl (2 ^ 1) in Hle.
    pose proof (pow2_pos (e1 - e2 - 1) ltac:(lia)) as PY.
    set (X := 2 ^ (e2 + s)) in *. set (Y := 2 ^ (e1 - e2 - 1)) in *.
    assert (Z.pos n2 * X < 2 ^ 53 * X) by nia.
    assert (2 ^ 53 * X <= Z.pos n1 * 2 * X) by nia.
    assert (1 * (Z.pos n1 * 2 * X) <= Y * (Z.pos n1 * 2 * X))
      by (apply Z.mul_le_mono_nonneg_r; nia).
    lia.
Qed.

Lemma pack_normal (m k s : Z) :
  2 ^ 52 <= m <= 2 ^ 53 -> 0 <= k -> 0 <= s ->
  exists n e,
    pack m (- k) = S754_finite false n e /\
    2 ^ 52 <= Z.pos n < 2 ^ 53 /\ 0 <= e + (k + s) /\
    Z.pos n * 2 ^ (e + (k + s)) = m * 2 ^ s.
Proof.
  intros Hm Hk Hs. unfold pack.
  destruct (Z.eqb_spec m (2 ^ 53)) as [->|Hne].
  - exists (2 ^ 52)%positive, (- k + 1). split; [reflexivity|].
    split; [simpl; lia|]. split; [lia|].
    replace (- k + 1 + (k + s)) with (1 + s) by lia.
    rewrite Z.pow_add_r by lia. simpl (2 ^ 1).
    change (Z.pos (2 ^ 52)) with (2 ^ 52). lia.
  - destruct m as [|p|p]; try lia. exists p, (- k). split; [reflexivity|].
    split; [lia|]. split; [lia|]. do 2 f_equal. lia.
Qed.

Lemma SFleb_pack (M K m k : Z) :
  2 ^ 52 <= M <= 2 ^ 53 -> 2 ^ 52 <= m <= 2 ^ 53 -> 0 <= K -> 0 <= k ->
  SFleb (pack M (- K)) (pack m (- k)) = true <-> M * 2 ^ k <= m * 2 ^ K.
Proof.
  intros HM Hm HK Hk.
  destruct (pack_normal M K k HM HK Hk) as (N & E & -> & HN & HE & EqN).
  destruct (pack_normal m k K Hm Hk HK) as (n & e & -> & Hn & He & Eqn).
  replace (k + K) with (K + k) in * by lia.
  rewrite (SFleb_normal N n E e (K + k)) by assumption.
  rewrite EqN, Eqn. reflexivity.
Qed.

(** Two quotients that differ are at least [1 / (100 * t)] apart, which is
    more than the two roundings can bridge. *)
Lemma compare_separated (c t p m M A B : Z) :
  0 < c <= t -> 0 < p <= 100 -> 100 * t < 2 ^ 52 -> 0 < A -> 0 < B ->
  2 ^ 52 * t <= c * A -> 2 ^ 52 * 100 <= p * B ->
  2 * Z.abs (m * t - c * A) <= t -> 2 * Z.abs (100 * M - p * B) <= 100 ->
  (p * t < 100 * c -> M * A <= m * B) /\
  (100 * c < p * t -> m * B < M * A).
Proof.
  intros Hc Hp Ht HA HB HbA HbB Hm HM.
  assert (LA : 2 ^ 52 <= A) by nia.
  assert (LB : 2 ^ 52 <= B) by nia.
  assert (T3 : 100 * t * A < A * B) by nia.
  assert (T4 : 100 * t * B < A * B) by nia.
  assert (HAB : 0 < A * B) by nia.
  assert (HtA : 0 < t * A) by nia.
  assert (HtB : 0 < t * B) by nia.
  split; intros Hlt.
  - assert (T1 : 200 * M * (t * A) <= (2 * (p * B) + 100) * (t * A))
      by (apply Z.mul_le_mono_nonneg_r; lia).
    assert (T2 : (2 * (c * A) - t) * (100 * B) <= 2 * (m * t) * (100 * B))
      by (apply Z.mul_le_mono_nonneg_r; lia).
    assert (T5 : A * B * 1 <= A * B * (100 * c - p * t))
      by (apply Z.mul_le_mono_nonneg_l; lia).
    assert (T6 : 200 * t * (M * A) <= 200 * t * (m * B)) by lia.
    apply (Z.mul_le_mono_pos_l _ _ (200 * t)); [lia | exact T6].
  - assert (T1 : (2 * (p * B) - 100) * (t * A) <= 200 * M * (t * A))
      by (apply Z.mul_le_mono_nonneg_r; lia).
    assert (T2 : 2 * (m * t) * (100 * B) <= (2 * (c * A) + t) * (100 * B))
      by (apply Z.mul_le_mono_nonneg_r; lia).
    assert (T5 : A * B * 1 <= A * B * (p * t - 100 * c))
      by (apply Z.mul_le_mono_nonneg_l; lia).
    assert (T6 : 200 * t * (m * B) < 200 * t * (M * A)) by lia.
    apply (Z.mul_lt_mono_pos_l (200 * t)); [lia | exact T6].
Qed.

(** A percentage is never half-way between two binary64 values. *)
Lemma percent_not_a_tie (p M K : Z) :
  2 <= K -> 2 * Z.abs (100 * M - p * 2 ^ K) <= 100 ->
  2 * Z.abs (100 * M - p * 2 ^ K) < 100.
Proof.
  intros HK H. replace K with (2 + (K - 2)) in * by lia.
  rewrite Z.pow_add_r in * by lia. simpl (2 ^ 2) in *.
  set (V := 2 ^ (K - 2)) in *.
  replace (p * (4 * V)) with (4 * (p * V)) in * by ring.
  lia.
Qed.

Lemma pow2_ge (k : Z) : 0 <= k -> 2 ^ 52 <= 2 ^ k -> 52 <= k.
Proof.
  intros Hk H. apply (Z.pow_le_mono_r_iff 2); lia.
Qed.

Lemma pow2_double (k K : Z) : 0 <= k < K -> 2 * 2 ^ k <= 2 ^ K.
Proof.
  intros H. replace K with ((K - k - 1) + (1 + k)) by lia.
  rewrite (Z.pow_add_r 2 (K - k - 1)), (Z.pow_add_r 2 1 k) by lia.
  simpl (2 ^ 1). pose proof (pow2_pos (K - k - 1) ltac:(lia)).
  pose proof (pow2_pos k ltac:(lia)). nia.
Qed.

(** Equal quotients round to the same value. *)
Lemma compare_equal (c t p m M k K : Z) :
  0 < c <= t -> 0 < p <= 100 -> 0 <= k -> 0 <= K ->
  p * t = 100 * c ->
  2 ^ 52 * t <= c * 2 ^ k < 2 ^ 53 * t ->
  2 ^ 52 * 100 <= p * 2 ^ K < 2 ^ 53 * 100 ->
  2 * Z.abs (m * t - c * 2 ^ k) <= t ->
  2 * Z.abs (100 * M - p * 2 ^ K) <= 100 ->
  k = K /\ m = M.
Proof.
  intros Hc Hp Hk HK Heq HbA HbB Hm HM.
  pose proof (pow2_pos k Hk) as PA. pose proof (pow2_pos K HK) as PB.
  assert (LB : 2 ^ 52 <= 2 ^ K) by nia.
  apply pow2_ge in LB; [|assumption].
  apply percent_not_a_tie in HM; [|lia].
  assert (EkK : k = K).
  { destruct (Z.lt_trichotomy k K) as [Hlt|[E|Hgt]]; [exfalso| exact E |exfalso].
    - pose proof (pow2_double k K ltac:(lia)) as Hd.
      set (A := 2 ^ k) in *. set (B := 2 ^ K) in *.
      assert (100 * (c * A) = t * (p * A)) by nia.
      assert (2 * (p * A) <= p * B) by nia.
      assert (2 ^ 52 * 100 * t <= t * (p * A)) by lia.
      assert (2 ^ 52 * 100 <= p * A) by nia.
      lia.
    - pose proof (pow2_double K k ltac:(lia)) as Hd.
      set (A := 2 ^ k) in *. set (B := 2 ^ K) in *.
      assert (100 * (c * A) = t * (p * A)) by nia.
      assert (2 * (p * B) <= p * A) by nia.
      assert (t * (p * A) < 2 ^ 53 * 100 * t) by lia.
      assert (p * A < 2 ^ 53 * 100) by nia.
      lia. }
  split; [exact EkK|]. subst K.
  set (A := 2 ^ k) in *.
  assert (E : 100 * (c * A) = t * (p * A)) by nia.
  assert (H1 : - (100 * t) <= 200 * (m * t) - 200 * (c * A) <= 100 * t) by lia.
  assert (H2 : - (100 * t) < 200 * (M * t) - 2 * (t * (p * A)) < 100 * t) by nia.
  assert (H3 : 200 * t * (-1) < 200 * t * (m - M) < 200 * t * 1) by lia.
  destruct H3 as [H3 H4].
  apply Z.mul_lt_mono_pos_l in H3; [|lia].
  apply Z.mul_lt_mono_pos_l in H4; [|lia].
  lia.
Qed.

Lemma geb_quotients (c t p : Z) :
  0 < c <= t -> 100 * t < 2 ^ 52 -> 0 < p <= 100 ->
  SFleb (float64.div (float64.of_int p) (float64.of_int 100))
    (float64.div (float64.of_int c) (float64.of_int t)) = true
  <-> p * t <= 100 * c.
Proof.
  intros Hc Ht Hp.
  destruct (fdiv_of_int p 100 ltac:(lia) ltac:(lia))
    as (M & K & -> & HK & HM & HbB & HrB).
  destruct (fdiv_of_int c t ltac:(lia) ltac:(lia))
    as (m & k & -> & Hk & Hm & HbA & HrA).
  rewrite SFleb_pack by assumption.
  replace (M * 100) with (100 * M) in HrB by ring.
  pose proof (pow2_pos k Hk) as PA. pose proof (pow2_pos K HK) as PB.
  assert (Hsep : (p * t < 100 * c -> M * 2 ^ k <= m * 2 ^ K) /\
                 (100 * c < p * t -> m * 2 ^ K < M * 2 ^ k))
    by (apply (compare_separated c t p m M (2 ^ k) (2 ^ K)); lia).
  destruct Hsep as [Hsep1 Hsep2].
  destruct (Z.lt_trichotomy (p * t) (100 * c)) as [Hlt|[Heq|Hgt]].
  - specialize (Hsep1 Hlt). split; intros _; [lia | exact Hsep1].
  - assert (Heql : k = K /\ m = M)
      by (apply (compare_equal c t p m M k K); lia).
    destruct Heql as [-> ->]. split; intros _; lia.
  - specialize (Hsep2 Hgt). split; intros; lia.
Qed.

Lemma pack_finite (m e : Z) :
  0 < m -> exists n e', pack m e = S754_finite false n e'.
Proof.
  intros Hm. unfold pack. destruct (m =? 2 ^ 53); eauto.
Qed.

Lemma fdiv_of_int_finite (c t : Z) :
  0 < c < 2 ^ 53 -> 0 < t < 2 ^ 53 ->
  exists n e, float64.div (float64.of_int c) (float64.of_int t) = S754_finite false n e.
Proof.
  intros Hc Ht. destruct (fdiv_of_int c t Hc Ht) as (m & k & -> & _ & Hm & _).
  apply pack_finite. lia.
Qed.

Lemma fdiv_zero_of_int (t : Z) :
  0 < t < 2 ^ 53 -> float64.div (float64.of_int 0) (float64.of_int t) = S754_zero false.
Proof.
  intros Ht. destruct (float64_of_int_pos t Ht) as (m & k & -> & _). reflexivity.
Qed.

Lemma percent_at_most_hundred (p : Z) :
  0 <= p <= 100 ->
  SFleb (float64.div (float64.of_int p) (float64.of_int 100))
    (float64.of_int 100) = true.
Proof.
  intros Hp.
  assert (H : forallb
                (fun p => SFleb (float64.div (float64.of_int p) (float64.of_int 100))
                            (float64.of_int 100))
                (List.map Z.of_nat (List.seq 0 101)) = true)
    by (vm_compute; reflexivity).
  rewrite List.forallb_forall in H. apply H.
  apply List.in_map_iff. exists (Z.to_nat p). split; [lia|].
  apply List.in_seq. lia.
Qed.

Lemma evaluate_exact (collected total minNumber minPercent : Z) :
  0 <= minNumber -> 0 <= minPercent <= 100 ->
  0 <= collected <= total -> 100 * total < 2 ^ 52 ->
  evaluate collected total minNumber minPercent
  = ((minNumber >? 0) && (collected >=? minNumber))
    || ((total =? 0) || (minPercent * total <=? 100 * collected)).
Proof.
  intros Hn Hp Hc Ht. unfold evaluate, float64.geb, maxPercent.
  assert (En : negb (minNumber =? 0) = (minNumber >? 0)).
  { destruct (Z.eqb_spec minNumber 0); simpl; lia. }
  rewrite En. f_equal.
  destruct (Z.eqb_spec total 0) as [->|Hne]; cbn [negb orb].
  - apply percent_at_most_hundred. exact Hp.
  -
    destruct (Z.eq_dec minPercent 0) as [->|Hp0].
    + rewrite (fdiv_zero_of_int 100) by lia.
      destruct (Z.eq_dec collected 0) as [->|Hc0].
      * rewrite (fdiv_zero_of_int total) by lia.
        unfold SFleb, SFcompare. symmetry. apply Z.leb_le. lia.
      * destruct (fdiv_of_int_finite collected total) as (n & e & ->); try lia.
        unfold SFleb, SFcompare. symmetry. apply Z.leb_le. lia.
    + destruct (Z.eq_dec collected 0) as [->|Hc0].
      * rewrite (fdiv_zero_of_int total) by lia.
        destruct (fdiv_of_int_finite minPercent 100) as (n & e & ->); try lia.
        unfold SFleb, SFcompare. symmetry. apply Z.leb_gt. nia.
      * pose proof (geb_quotients collected total minPercent
                      ltac:(lia) ltac:(lia) ltac:(lia)) as Hiff.
        destruct (SFleb (float64.div (float64.of_int minPercent) (float64.of_int 100))
                    (float64.div (float64.of_int collected) (float64.of_int total)))
          eqn:E; symmetry.
        -- apply Z.leb_le. apply Hiff. reflexivity.
        -- apply Z.leb_gt.
           destruct (Z_lt_le_dec (100 * collected) (minPercent * total)) as [Hlt|Hle];
             [exact Hlt|].
           apply Hiff in Hle. discriminate Hle.
Qed.

(** ** binary64 products of a percentage and an integer *)















(** ** The policy formula *)

Lemma satisfied_class_exact (collected total minNumber minPercent : Z) :
  0 <= total -> minPercent <= 100 ->
  satisfied_class collected total minNumber minPercent
  = ((minNumber >? 0) && (collected >=? minNumber))
    || ((total =? 0) || (minPercent * total <=? 100 * collected)).
Proof.
  intros Ht Hp. unfold satisfied_class, ratio. f_equal.
  destruct (Z.eqb_spec total 0) as [->|Hne]; cbn [orb].
  - unfold Qle_bool, Qdiv, Qmult, Qinv, inject_Z. simpl. apply Z.leb_le. lia.
  - destruct total as [|tp|tp]; try lia.
    unfold Qle_bool, Qdiv, Qmult, Qinv, inject_Z. simpl Qnum. simpl Qden.
    destruct (Z.leb_spec (minPercent * 1 * Z.pos (1 * tp))
                (collected * 1 * Z.pos (1 * 100)));
      destruct (Z.leb_spec (minPercent * Z.pos tp) (100 * collected));
      try reflexivity; lia.
Qed.

(** The float64 test of [evaluate] decides the exact formula, for a parsed
    policy and fewer than 2^45 records. *)
Lemma evaluate_satisfied_class (collected total minNumber minPercent : Z) :
  0 <= minNumber -> 0 <= minPercent <= 100 ->
  0 <= collected <= total -> total < 2 ^ 45 ->
  evaluate collected total minNumber minPercent
  = satisfied_class collected total minNumber minPercent.
Proof.
  intros Hn Hp Hc Ht.
  rewrite evaluate_exact by lia. rewrite satisfied_class_exact by lia.
  reflexivity.
Qed.

(** C1: for every list of fewer than 2^45 witness proofs and every parsed
    policy configuration, [Evaluate] returns the combination, by the policy
    operator (AND: conjunction, OR: disjunction), of the two class conditions
    (MinNumber > 0 and collected >= MinNumber) or
    (collected/total >= MinPercent/100), where a class without records has
    the ratio 100% and is satisfied. *)
Theorem C1_Evaluate_decides_policy_formula (cfg : WitnessPolicyConfig)
    (witnesses : list WitnessProof) :
  parsed cfg ->
  Z.of_nat (length witnesses) < 2 ^ 45 ->
  Evaluate (Ok cfg) witnesses
  = Ok (combine (Operator_ cfg)
          (satisfied_class (collected cfg WitnessTypeBatch witnesses)
             (total WitnessTypeBatch witnesses)
             (MinNumberBatch cfg) (MinPercentBatch cfg))
          (satisfied_class (collected cfg WitnessTypeSystem witnesses)
             (total WitnessTypeSystem witnesses)
             (MinNumberSystem cfg) (MinPercentSystem cfg)))
  /\ (forall collected minNumber minPercent,
        minPercent <= 100 ->
        ratio collected 0 = 1%Q /\
        satisfied_class collected 0 minNumber minPercent = true).
Proof.
  intros (HnB & HnS & HpB & HpS) Hlen. split.
  - unfold Evaluate.
    destruct (countWitnesses_counts cfg witnesses) as (-> & -> & -> & ->).
    pose proof (collected_le_total cfg WitnessTypeBatch witnesses) as [HcB HtB].
    pose proof (collected_le_total cfg WitnessTypeSystem witnesses) as [HcS HtS].
    rewrite !evaluate_satisfied_class by lia.
    unfold OperatorFnc, combine. destruct (Operator_ cfg); reflexivity.
  - intros collected minNumber minPercent Hp. split; [reflexivity|].
    rewrite satisfied_class_exact by lia. cbn [Z.eqb orb].
    apply orb_true_r.
Qed.

Lemma C1_Evaluate_decides_policy_formula_witness :
  parsed allOfBatch /\
  Z.of_nat (length [withProof b1 (Some ["001"%byte]); withProof b2 (Some ["002"%byte]);
                    withProof b3 None]) < 2 ^ 45 /\
  Evaluate (Ok allOfBatch)
    [withProof b1 (Some ["001"%byte]); withProof b2 (Some ["002"%byte]);
     withProof b3 None]
  = Ok false /\
  Evaluate (Ok allOfBatch)
    [withProof b1 (Some ["001"%byte]); withProof b2 (Some ["002"%byte]);
     withProof b3 None]
  = Ok (combine AND (satisfied_class 2 3 0 100) (satisfied_class 0 0 0 0)).
Proof.
  assert (Hparsed : parsed allOfBatch) by (vm_compute; intuition discriminate).
  split; [exact Hparsed|]. split; [vm_compute; reflexivity|].
  split; [vm_compute; reflexivity|].
  exact (proj1 (C1_Evaluate_decides_policy_formula allOfBatch
                  [withProof b1 (Some ["001"%byte]); withProof b2 (Some ["002"%byte]);
                   withProof b3 None]
                  Hparsed eq_refl)).
Defined.

(** ** Intersection, difference and the partition of the witnesses *)

Lemma intersection_nil_l (b : list Witness) : intersection [] b = [].
Proof.
  unfold intersection. simpl.
  assert (H : fold_left
                (fun (acc : list Witness * gmap string bool) e =>
                   match snd acc !! URI e with
                   | Some false => (fst acc ++ [e], <[URI e := true]> (snd acc))
                   | _ => acc
                   end) b ([], ∅) = ([], ∅)).
  { apply (fold_left_invariant (fun acc => acc = ([], ∅))); [reflexivity|].
    intros acc x _ ->. simpl. rewrite lookup_empty. reflexivity. }
  rewrite H. reflexivity.
Qed.

Lemma In_intersection (a b : list Witness) (w : Witness) :
  In w (intersection a b) -> In w b.
Proof.
  unfold intersection.
  set (hash := fold_left _ a ∅). clearbody hash.
  revert w.
  apply (fold_left_invariant
           (fun acc : list Witness * gmap string bool =>
              forall w, In w (fst acc) -> In w b)).
  - simpl. intros w [].
  - intros acc x Hx IH w. destruct (snd acc !! URI x) as [[|]|]; simpl; auto.
    rewrite in_app_iff. simpl. intros [H|[<-|[]]]; auto.
Qed.

Lemma In_difference (a b : list Witness) (w : Witness) :
  In w (difference a b) -> In w a.
Proof.
  unfold difference.
  set (hash := fold_left _ b ∅). clearbody hash.
  revert w.
  apply (fold_left_invariant
           (fun acc : list Witness => forall w, In w acc -> In w a)).
  - intros w [].
  - intros acc x Hx IH w. destruct (hash !! URI x); auto.
    rewrite in_app_iff. simpl. intros [H|[<-|[]]]; auto.
Qed.

Lemma partitionWitnesses_eligible (cfg : WitnessPolicyConfig)
    (witnesses exclude : list Witness) :
  let p := partitionWitnesses cfg witnesses exclude in
  (forall w, In w (eligibleBatchWitnesses p) ->
             eligibleFor cfg exclude WitnessTypeBatch witnesses w) /\
  (forall w, In w (eligibleSystemWitnesses p) ->
             eligibleFor cfg exclude WitnessTypeSystem witnesses w).
Proof.
  cbv zeta. unfold partitionWitnesses.
  apply (fold_left_invariant
           (fun p =>
              (forall w, In w (eligibleBatchWitnesses p) ->
                         eligibleFor cfg exclude WitnessTypeBatch witnesses w) /\
              (forall w, In w (eligibleSystemWitnesses p) ->
                         eligibleFor cfg exclude WitnessTypeSystem witnesses w))).
  - simpl. split; intros w [].
  - intros p x Hx [IHb IHs]. unfold partitionStep.
    destruct (Type_ x) eqn:Hty; simpl; (split; [|]); auto;
      destruct (checkLog (LogRequired cfg) (HasLog x)) eqn:Hlog; simpl; auto;
      destruct (isExcluded x exclude) eqn:Hex; simpl; auto;
      intros w; rewrite in_app_iff; simpl; intros [H|[<-|[]]]; auto;
      repeat split; auto.
Qed.

Lemma partitionWitnesses_totals_from (cfg : WitnessPolicyConfig)
    (witnesses exclude : list Witness) (p : partition) :
  let p' := fold_left (partitionStep cfg exclude) witnesses p in
  totalBatch p' = totalBatch p + totalOfClass WitnessTypeBatch witnesses /\
  totalSystem p' = totalSystem p + totalOfClass WitnessTypeSystem witnesses.
Proof.
  revert p. induction witnesses as [|w ws IH]; intros p.
  - unfold totalOfClass. simpl. lia.
  - simpl fold_left. specialize (IH (partitionStep cfg exclude p w)).
    cbv zeta in *. destruct IH as [-> ->].
    unfold totalOfClass, partitionStep, inClass, isSystem, isBatch.
    simpl List.filter. destruct (Type_ w); simpl; lia.
Qed.

Lemma partitionWitnesses_totals (cfg : WitnessPolicyConfig)
    (witnesses exclude : list Witness) :
  totalBatch (partitionWitnesses cfg witnesses exclude)
    = totalOfClass WitnessTypeBatch witnesses /\
  totalSystem (partitionWitnesses cfg witnesses exclude)
    = totalOfClass WitnessTypeSystem witnesses.
Proof.
  unfold partitionWitnesses.
  pose proof (partitionWitnesses_totals_from cfg witnesses exclude
                {| eligibleBatchWitnesses := []; eligibleSystemWitnesses := [];
                   totalSystem := 0; totalBatch := 0 |}) as H.
  cbv zeta in H. simpl in H. exact H.
Qed.

Section SelectorFacts.

Variable G : Type.
Variable selector : list Witness -> Z -> G -> result (list Witness) * G.

Lemma selectMinWitnesses_unfold (eligible : list Witness)
    (minNumber minPercent totalWitnesses : Z) (preferred : list Witness) (g : G) :
  selectMinWitnesses G selector eligible minNumber minPercent totalWitnesses
    preferred g
  = match selector (difference eligible preferred)
            (minSelection eligible minNumber minPercent totalWitnesses preferred)
            g with
    | (Err e, g') => (Err e, g')
    | (Ok selection, g') => (Ok (preferred ++ selection), g')
    end.
Proof.
  reflexivity.
Qed.

Lemma selectMinWitnesses_ok (eligible : list Witness)
    (minNumber minPercent totalWitnesses : Z) (preferred : list Witness)
    (g g' : G) (selected : list Witness) :
  selectMinWitnesses G selector eligible minNumber minPercent totalWitnesses
    preferred g = (Ok selected, g') ->
  exists selection,
    selector (difference eligible preferred)
      (minSelection eligible minNumber minPercent totalWitnesses preferred) g
    = (Ok selection, g') /\
    selected = preferred ++ selection.
Proof.
  rewrite selectMinWitnesses_unfold.
  destruct (selector _ _ g) as [[selection|e] g1]; intros H; inversion H.
  exists selection. split; reflexivity.
Qed.

(** The two class selections, when both succeed. *)
Lemma selectBatchAndSystemWitnesses_ok (witnesses : list Witness)
    (cfg : WitnessPolicyConfig) (exclude : list Witness) (g g' : G)
    (sb ss : list Witness) :
  selectBatchAndSystemWitnesses G selector witnesses cfg exclude g
    = (Ok (sb, ss), g') ->
  let p := partitionWitnesses cfg witnesses exclude in
  let common := commonWitnesses cfg p in
  exists g1,
    (eligibleBatchWitnesses p = [] /\ sb = [] /\ g1 = g \/
     eligibleBatchWitnesses p <> [] /\
     selectMinWitnesses G selector (eligibleBatchWitnesses p)
       (MinNumberBatch cfg) (MinPercentBatch cfg) (totalBatch p) common g
     = (Ok sb, g1)) /\
    selectMinWitnesses G selector (eligibleSystemWitnesses p)
      (MinNumberSystem cfg) (MinPercentSystem cfg) (totalSystem p) common g1
    = (Ok ss, g').
Proof.
  unfold selectBatchAndSystemWitnesses. cbv zeta.
  set (p := partitionWitnesses cfg witnesses exclude).
  set (common := commonWitnesses cfg p).
  destruct (eligibleBatchWitnesses p) as [|b bs] eqn:Hb; simpl negb; cbv iota.
  - destruct (selectMinWitnesses G selector (eligibleSystemWitnesses p) _ _ _ common g)
      as [[ss'|e] g2] eqn:Hs; intros H; inversion H; subst.
    exists g. split; [left; auto | assumption].
  - destruct (selectMinWitnesses G selector (b :: bs) _ _ _ common g)
      as [[sb'|e] g1] eqn:Hsb; [|intros H; inversion H].
    destruct (selectMinWitnesses G selector (eligibleSystemWitnesses p) _ _ _ common g1)
      as [[ss'|e] g2] eqn:Hs; intros H; inversion H; subst.
    exists g1. split; [right; split; [discriminate | reflexivity] | assumption].
Qed.

End SelectorFacts.

(** ** Selection *)

Lemma firstN_draws_from_candidates : draws_from_candidates firstN.
Proof.
  intros candidates n g selection g' H w Hw. unfold firstN in H.
  destruct (Z.of_nat (length candidates) <? n); inversion H; subst.
  rewrite <- (take_drop (Z.to_nat n) candidates).
  apply in_or_app. now left.
Qed.

(** C2 (counterexample): with the policy "MinNumber(1,batch) AND
    MinNumber(1,system)" and one peer registered in both classes, the peer is
    a common witness and the selection lists it twice. *)
Lemma C2_common_witness_listed_twice :
  exists r,
    Select unit firstN (Ok oneOfEach) [a_batch; a_system] [] tt = (Ok r, tt) /\
    In a_system
      (commonWitnesses oneOfEach
         (partitionWitnesses oneOfEach [a_batch; a_system] [])) /\
    length (List.filter (fun w => String.eqb (URI w) (URI a_system)) r) = 2%nat.
Proof.
  exists [a_system; a_system]. vm_compute. repeat split. left. reflexivity.
Qed.

(** C2 (amended): with Operator = AND, a successful selection is the
    concatenation of the batch selection and the system selection. Its
    members are those of the preferred (common) witnesses, of the batch
    selection and of the system selection; every preferred witness is part of
    both class selections and is therefore listed at least twice. Each class
    selection is the preferred witnesses followed by what the strategy
    returned when it was offered the eligible witnesses of the class other
    than the preferred ones and asked for the number of the class, which is
    computed from the number of all witnesses of the class in the input; the
    batch selection is empty, and the strategy not asked for it, when no
    batch witness is eligible. *)
Theorem C2_select_and_concatenates (G : Type)
    (selector : list Witness -> Z -> G -> result (list Witness) * G)
    (cfg : WitnessPolicyConfig) (witnesses exclude : list Witness)
    (g g' : G) (r : list Witness) :
  Operator_ cfg = AND ->
  Select G selector (Ok cfg) witnesses exclude g = (Ok r, g') ->
  let p := partitionWitnesses cfg witnesses exclude in
  let preferred :=
    intersection (eligibleBatchWitnesses p) (eligibleSystemWitnesses p) in
  exists batchSelection systemSelection,
    selectBatchAndSystemWitnesses G selector witnesses cfg exclude g
      = (Ok (batchSelection, systemSelection), g') /\
    r = batchSelection ++ systemSelection /\
    (forall w, In w r <->
               In w preferred \/ In w batchSelection \/ In w systemSelection) /\
    (forall w, In w preferred ->
               In w batchSelection /\ In w systemSelection /\
               (2 <= count_occ Witness_eq_dec r w)%nat) /\
    exists g1,
      (eligibleBatchWitnesses p = [] /\ batchSelection = [] /\ g1 = g \/
       eligibleBatchWitnesses p <> [] /\
       exists picked,
         selector (difference (eligibleBatchWitnesses p) preferred)
           (minSelection (eligibleBatchWitnesses p) (MinNumberBatch cfg)
              (MinPercentBatch cfg) (totalOfClass WitnessTypeBatch witnesses)
              preferred) g
         = (Ok picked, g1) /\
         batchSelection = preferred ++ picked) /\
      exists picked,
        selector (difference (eligibleSystemWitnesses p) preferred)
          (minSelection (eligibleSystemWitnesses p) (MinNumberSystem cfg)
             (MinPercentSystem cfg) (totalOfClass WitnessTypeSystem witnesses)
             preferred) g1
        = (Ok picked, g') /\
        systemSelection = preferred ++ picked.
Proof.
  intros Hand Hsel p preferred. unfold Select in Hsel.
  destruct (selectBatchAndSystemWitnesses G selector witnesses cfg exclude g)
    as [[[sb ss]|e] g1] eqn:Hboth; [|inversion Hsel].
  destruct (decide (Operator_ cfg = AND)) as [_|Hne]; [|contradiction].
  inversion Hsel; subst r g1. clear Hsel.
  exists sb, ss. split; [reflexivity|]. split; [reflexivity|].
  apply selectBatchAndSystemWitnesses_ok in Hboth. cbv zeta in Hboth.
  fold p in Hboth.
  assert (Hcommon : commonWitnesses cfg p = preferred).
  { unfold commonWitnesses. rewrite Hand. reflexivity. }
  rewrite Hcommon in Hboth.
  destruct (partitionWitnesses_totals cfg witnesses exclude) as [Tb Ts].
  fold p in Tb, Ts. rewrite Tb, Ts in Hboth.
  destruct Hboth as (g1 & Hbatch & Hsystem).
  apply selectMinWitnesses_ok in Hsystem.
  destruct Hsystem as (selS & HselS & ->).
  assert (Hbatch' :
            eligibleBatchWitnesses p = [] /\ sb = [] /\ g1 = g \/
            eligibleBatchWitnesses p <> [] /\
            exists picked,
              selector (difference (eligibleBatchWitnesses p) preferred)
                (minSelection (eligibleBatchWitnesses p) (MinNumberBatch cfg)
                   (MinPercentBatch cfg) (totalOfClass WitnessTypeBatch witnesses)
                   preferred) g
              = (Ok picked, g1) /\
              sb = preferred ++ picked).
  { destruct Hbatch as [H|(Hne & Hbatch)]; [left; exact H|right].
    split; [exact Hne|]. apply selectMinWitnesses_ok in Hbatch. exact Hbatch. }
  assert (Hpref : forall w, In w preferred -> In w sb).
  { destruct Hbatch' as [(Hnil & -> & _)|(_ & selB & _ & ->)].
    - intros w Hw. unfold preferred in Hw. rewrite Hnil in Hw.
      rewrite intersection_nil_l in Hw. destruct Hw.
    - intros w Hw. apply in_or_app. now left. }
  split; [|split].
  - intros w. specialize (Hpref w). rewrite !in_app_iff. tauto.
  - intros w Hw. split; [auto|]. split; [apply in_or_app; now left|].
    rewrite count_occ_app.
    assert (H1 : (count_occ Witness_eq_dec sb w > 0)%nat)
      by (apply count_occ_In; auto).
    assert (H2 : (count_occ Witness_eq_dec (preferred ++ selS) w > 0)%nat)
      by (apply count_occ_In; apply in_or_app; now left).
    lia.
  - exists g1. split; [exact Hbatch'|]. exists selS. split; [exact HselS|reflexivity].
Qed.

Lemma C2_select_and_concatenates_witness :
  Operator_ twoOfEach = AND /\
  Select unit firstN (Ok twoOfEach) [a_batch; b1; a_system; s1] [] tt
    = (Ok [a_system; b1; a_system; s1], tt) /\
  exists batchSelection systemSelection,
    selectBatchAndSystemWitnesses unit firstN [a_batch; b1; a_system; s1]
      twoOfEach [] tt = (Ok (batchSelection, systemSelection), tt) /\
    [a_system; b1; a_system; s1] = batchSelection ++ systemSelection /\
    exists picked,
      firstN (difference [a_system; s1] [a_system])
        (minSelection [a_system; s1] 2 0 2 [a_system]) tt
      = (Ok picked, tt) /\
      systemSelection = [a_system] ++ picked.
Proof.
  split; [reflexivity|]. split; [vm_compute; reflexivity|].
  destruct (C2_select_and_concatenates unit firstN twoOfEach
              [a_batch; b1; a_system; s1] [] tt tt [a_system; b1; a_system; s1])
    as (sb & ss & H1 & H2 & _ & _ & g1 & _ & picked & H3 & H4).
  - reflexivity.
  - vm_compute. reflexivity.
  - exists sb, ss. split; [exact H1|]. split; [exact H2|].
    exists picked. destruct g1. split; [exact H3|exact H4].
Defined.

(** *** The number of witnesses asked of the strategy *)







(** C5: with Operator = OR, when both class selections succeed, [Select]
    returns the system selection if the batch selection is empty or the
    system selection is strictly smaller, and the batch selection otherwise
    (so the batch selection wins ties). *)
Theorem C5_select_or_returns_smaller (G : Type)
    (selector : list Witness -> Z -> G -> result (list Witness) * G)
    (cfg : WitnessPolicyConfig) (witnesses exclude : list Witness)
    (g g' : G) (batchSelection systemSelection : list Witness) :
  Operator_ cfg = OR ->
  selectBatchAndSystemWitnesses G selector witnesses cfg exclude g
    = (Ok (batchSelection, systemSelection), g') ->
  Select G selector (Ok cfg) witnesses exclude g
  = (Ok (if decide (batchSelection = []) then systemSelection
         else if decide (length systemSelection < length batchSelection)%nat
              then systemSelection
              else batchSelection), g').
Proof.
  intros Hor Hboth. unfold Select. rewrite Hboth.
  destruct (decide (Operator_ cfg = AND)) as [Hand|_]; [congruence|].
  destruct batchSelection as [|b bs].
  - reflexivity.
  - change (Nat.eqb (length (b :: bs)) 0) with false. cbn [orb].
    destruct (decide (b :: bs = [])) as [H|_]; [discriminate|].
    destruct (decide (length systemSelection < length (b :: bs))%nat) as [H|H].
    + apply Nat.ltb_lt in H. rewrite H. reflexivity.
    + apply Nat.ltb_nlt in H. rewrite H. reflexivity.
Qed.

Lemma C5_select_or_returns_smaller_witness :
  Operator_ twoOfEither = OR /\
  selectBatchAndSystemWitnesses unit firstN [b1; b3; s1; s2; s3] twoOfEither [] tt
    = (Ok ([b1; b3], [s1; s2]), tt) /\
  Select unit firstN (Ok twoOfEither) [b1; b3; s1; s2; s3] [] tt
    = (Ok [b1; b3], tt).
Proof.
  split; [reflexivity|]. split; [vm_compute; reflexivity|].
  apply (C5_select_or_returns_smaller unit firstN twoOfEither
           [b1; b3; s1; s2; s3] [] tt tt [b1; b3] [s1; s2]).
  - reflexivity.
  - vm_compute. reflexivity.
Defined.

Lemma In_commonWitnesses (cfg : WitnessPolicyConfig) (p : partition)
    (w : Witness) :
  In w (commonWitnesses cfg p) -> In w (eligibleSystemWitnesses p).
Proof.
  unfold commonWitnesses. destruct (Operator_ cfg).
  - apply In_intersection.
  - intros [].
Qed.

Lemma selectMinWitnesses_members (G : Type)
    (selector : list Witness -> Z -> G -> result (list Witness) * G)
    (eligible : list Witness) (minNumber minPercent totalWitnesses : Z)
    (preferred : list Witness) (g g' : G) (selected : list Witness) :
  draws_from_candidates selector ->
  selectMinWitnesses G selector eligible minNumber minPercent totalWitnesses
    preferred g = (Ok selected, g') ->
  forall w, In w selected -> In w preferred \/ In w eligible.
Proof.
  intros Hdraw Hsel w Hw.
  apply selectMinWitnesses_ok in Hsel. destruct Hsel as (selection & Hs & ->).
  apply in_app_or in Hw. destruct Hw as [Hw|Hw]; [now left|].
  right. eapply In_difference. eapply Hdraw; eauto.
Qed.

(** Every selected witness went through the partition loop: it is one of the
    given witnesses, passed the log check and is not excluded. *)
Lemma Select_members_eligible (G : Type)
    (selector : list Witness -> Z -> G -> result (list Witness) * G)
    (cfg : WitnessPolicyConfig) (witnesses exclude : list Witness)
    (g g' : G) (r : list Witness) :
  draws_from_candidates selector ->
  Select G selector (Ok cfg) witnesses exclude g = (Ok r, g') ->
  forall w, In w r -> exists ty, eligibleFor cfg exclude ty witnesses w.
Proof.
  intros Hdraw Hsel. unfold Select in Hsel.
  destruct (selectBatchAndSystemWitnesses G selector witnesses cfg exclude g)
    as [[[sb ss]|e] g1] eqn:Hboth; [|inversion Hsel].
  apply selectBatchAndSystemWitnesses_ok in Hboth. cbv zeta in Hboth.
  destruct (partitionWitnesses_eligible cfg witnesses exclude) as [Hb Hs].
  cbv zeta in Hb, Hs.
  set (p := partitionWitnesses cfg witnesses exclude) in *.
  destruct Hboth as (g2 & Hbatch & Hsystem).
  assert (Hss : forall w, In w ss -> exists ty, eligibleFor cfg exclude ty witnesses w).
  { intros w Hw.
    destruct (selectMinWitnesses_members _ _ _ _ _ _ _ _ _ _ Hdraw Hsystem w Hw)
      as [H|H].
    - exists WitnessTypeSystem. apply Hs. now apply In_commonWitnesses with cfg.
    - exists WitnessTypeSystem. now apply Hs. }
  assert (Hsb : forall w, In w sb -> exists ty, eligibleFor cfg exclude ty witnesses w).
  { intros w Hw. destruct Hbatch as [(_ & -> & _)|(_ & Hbatch)]; [destruct Hw|].
    destruct (selectMinWitnesses_members _ _ _ _ _ _ _ _ _ _ Hdraw Hbatch w Hw)
      as [H|H].
    - exists WitnessTypeSystem. apply Hs. now apply In_commonWitnesses with cfg.
    - exists WitnessTypeBatch. now apply Hb. }
  destruct (decide (Operator_ cfg = AND)).
  - inversion Hsel; subst. intros w Hw. apply in_app_or in Hw. destruct Hw; auto.
  - destruct (Nat.eqb (length sb) 0 || Nat.ltb (length ss) (length sb));
      inversion Hsel; subst; auto.
Qed.

(** C6: when the policy requires a log, every witness that [Select] returns
    has one, whatever strategy picks among the candidates: a witness without
    a log is in neither list of eligible witnesses. *)
Theorem C6_log_required_selects_logged (G : Type)
    (selector : list Witness -> Z -> G -> result (list Witness) * G)
    (cfg : WitnessPolicyConfig) (witnesses exclude : list Witness)
    (g g' : G) (r : list Witness) :
  draws_from_candidates selector ->
  LogRequired cfg = true ->
  Select G selector (Ok cfg) witnesses exclude g = (Ok r, g') ->
  forall w, In w r -> HasLog w = true /\ In w witnesses.
Proof.
  intros Hdraw Hlog Hsel w Hw.
  destruct (Select_members_eligible G selector cfg witnesses exclude g g' r
              Hdraw Hsel w Hw) as (ty & Hin & _ & Hcheck & _).
  unfold checkLog in Hcheck. rewrite Hlog in Hcheck. split; assumption.
Qed.

Lemma C6_log_required_selects_logged_witness :
  draws_from_candidates firstN /\
  LogRequired halfOfBatchWithLog = true /\
  Select unit firstN (Ok halfOfBatchWithLog) [b1; b2; b3; b4] [] tt
    = (Ok [b1; b3], tt) /\
  forall w, In w [b1; b3] -> HasLog w = true /\ In w [b1; b2; b3; b4].
Proof.
  split; [exact firstN_draws_from_candidates|].
  split; [reflexivity|]. split; [vm_compute; reflexivity|].
  apply (C6_log_required_selects_logged unit firstN halfOfBatchWithLog
           [b1; b2; b3; b4] [] tt tt [b1; b3]).
  - exact firstN_draws_from_candidates.
  - reflexivity.
  - vm_compute. reflexivity.
Defined.

(** ** The witness store *)

Import storage.

Lemma In_records (s : witness.Store) (anchorID k : string) (v : json.bytes) :
  In (k, v) (records s anchorID) <->
  exists tags, witness.store s !! k = Some (v, tags) /\
               hasTag witness.anchorIndex (encoded anchorID) tags = true.
Proof.
  unfold records, Query. rewrite in_map_iff. split.
  - intros ([k' [v' tags]] & Heq & Hin). simpl in Heq. inversion Heq; subst.
    apply filter_In in Hin. destruct Hin as [Hin Htag]. simpl in Htag.
    exists tags. split; [|exact Htag].
    apply elem_of_map_to_list. apply list_elem_of_In. exact Hin.
  - intros (tags & Hlook & Htag). exists (k, (v, tags)). split; [reflexivity|].
    apply filter_In. split; [|exact Htag].
    apply list_elem_of_In. apply elem_of_map_to_list. exact Hlook.
Qed.

Lemma NoDup_map_fst_filter {A B : Type} (P : A * B -> bool) (l : list (A * B)) :
  NoDup (map fst l) -> NoDup (map fst (List.filter P l)).
Proof.
  induction l as [|x l IH]; simpl; intros H; [constructor|].
  apply NoDup_cons in H. destruct H as [Hnotin Hnodup].
  destruct (P x); simpl; [apply NoDup_cons; split|]; auto.
  intros Hin. apply Hnotin. apply list_elem_of_In.
  apply list_elem_of_In in Hin. apply in_map_iff in Hin.
  destruct Hin as (y & Hy & Hin). apply filter_In in Hin.
  apply in_map_iff. exists y. tauto.
Qed.

Lemma NoDup_records_keys (s : witness.Store) (anchorID : string) :
  NoDup (map fst (records s anchorID)).
Proof.
  unfold records, Query. rewrite map_map. simpl.
  apply NoDup_map_fst_filter.
  pose proof (NoDup_fst_map_to_list (witness.store s)) as H.
  assert (E : forall l : list (string * (json.bytes * list Tag)),
             l.*1 = map fst l).
  { induction l as [|x l IH]; simpl; [reflexivity|]. now rewrite <- IH. }
  rewrite <- E. exact H.
Qed.

Lemma getWitnessesMap_lookup_from (witnesses : list string)
    (h : gmap string bool) (u : string) :
  fold_left
    (fun witnessesMap w =>
       match witnessesMap !! w with
       | Some _ => witnessesMap
       | None => <[w := true]> witnessesMap
       end) witnesses h !! u = None
  <-> h !! u = None /\ ~ In u witnesses.
Proof.
  revert h. induction witnesses as [|w ws IH]; intros h; simpl.
  - tauto.
  - rewrite IH. destruct (h !! w) eqn:Hw.
    + split.
      * intros [H1 H2]. split; [exact H1|]. intros [->|H]; [congruence|auto].
      * intros [H1 H2]. split; [exact H1|]. tauto.
    + destruct (decide (w = u)) as [->|Hne].
      * rewrite lookup_insert_eq. split; [intros [H _]; discriminate|].
        intros [_ H]. exfalso. apply H. now left.
      * rewrite lookup_insert_ne by exact Hne. split.
        -- intros [H1 H2]. split; [exact H1|]. intros [H|H]; [congruence|auto].
        -- intros [H1 H2]. split; [exact H1|]. tauto.
Qed.

Lemma getWitnessesMap_lookup (witnesses : list string) (u : string) :
  witness.getWitnessesMap witnesses !! u =
    if existsb (String.eqb u) witnesses then Some true
    else None.
Proof.
  destruct (existsb (String.eqb u) witnesses) eqn:Hex.
  - apply existsb_exists in Hex. destruct Hex as (x & Hin & Heq).
    apply String.eqb_eq in Heq. subst x.
    destruct (witness.getWitnessesMap witnesses !! u) as [b|] eqn:Hlook.
    + assert (Hb : forall (ws : list string) (h : gmap string bool),
                 (forall k v, h !! k = Some v -> v = true) ->
                 forall k v,
                   fold_left
                     (fun witnessesMap w =>
                        match witnessesMap !! w with
                        | Some _ => witnessesMap
                        | None => <[w := true]> witnessesMap
                        end) ws h !! k = Some v -> v = true).
      { induction ws as [|w ws IH]; intros h Hh k v; simpl; [apply Hh|].
        apply IH. destruct (h !! w) eqn:Hw; [exact Hh|].
        intros k' v'. destruct (decide (w = k')) as [->|Hne].
        - rewrite lookup_insert_eq. congruence.
        - rewrite lookup_insert_ne by exact Hne. apply Hh. }
      f_equal. eapply Hb; [|exact Hlook]. intros k v. rewrite lookup_empty.
      discriminate.
    + apply getWitnessesMap_lookup_from in Hlook. tauto.
  - apply getWitnessesMap_lookup_from. split; [apply lookup_empty|].
    intros Hin. assert (existsb (String.eqb u) witnesses = true) as E.
    { apply existsb_exists. exists u. split; [exact Hin|apply String.eqb_refl]. }
    congruence.
Qed.

Lemma filter_length_zero_existsb {A : Type} (P : A -> bool) (l : list A) :
  (Z.of_nat (length (List.filter P l)) =? 0) = negb (existsb P l).
Proof.
  induction l as [|x l IH]; simpl; [reflexivity|].
  destruct (P x); simpl; [|exact IH].
  first [reflexivity | apply Z.eqb_neq; lia].
Qed.

(** The update loop over decodable records with distinct keys: it counts the
    matching records, rewrites each of them under its own key and touches no
    other key. *)
Lemma updateWitnesses_spec (anchorID : string) (uris : list string)
    (updateFnc : WitnessProof -> WitnessProof)
    (items : list (string * json.bytes)) :
  allDecode items = true -> NoDup (map fst items) ->
  forall (d : db) (n : Z),
  exists d',
    witness.updateWitnesses anchorID (encoded anchorID)
      (witness.getWitnessesMap uris) updateFnc items d n
    = (Ok (n + Z.of_nat (length (List.filter (itemMatches uris) items))), d') /\
    (forall k w, In (k, json.Document w) items ->
                 existsb (String.eqb (URI w)) uris = true ->
                 d' !! k = Some (json.Document (updateFnc w),
                                 [witness.anchorTag (encoded anchorID)])) /\
    (forall k, (forall w, In (k, json.Document w) items ->
                          existsb (String.eqb (URI w)) uris = false) ->
               d' !! k = d !! k).
Proof.
  induction items as [|[key value] rest IH]; intros Hdec Hnodup d n.
  - exists d. simpl. split; [f_equal; f_equal; lia|].
    split; [intros k w []|reflexivity].
  - simpl in Hdec. apply andb_true_iff in Hdec. destruct Hdec as [Hv Hdec].
    destruct value as [w|raw]; [|discriminate]. clear Hv.
    simpl in Hnodup. apply NoDup_cons in Hnodup.
    destruct Hnodup as [Hnotin Hnodup'].
    specialize (IH Hdec Hnodup').
    assert (Hfresh : forall w', ~ In (key, json.Document w') rest).
    { intros w' Hin. apply Hnotin. apply list_elem_of_In. apply in_map_iff.
      exists (key, json.Document w'). split; [reflexivity|exact Hin]. }
    simpl witness.updateWitnesses. rewrite getWitnessesMap_lookup.
    cbn [List.filter itemMatches snd]. unfold json.Marshal.
    destruct (existsb (String.eqb (URI w)) uris) eqn:Hmatch.
    + destruct (IH (<[key := (json.Document (updateFnc w),
                              [witness.anchorTag (encoded anchorID)])]> d) (n + 1))
        as (d' & Hrun & Hhit & Hframe).
      exists d'. split; [|split].
      * rewrite Hrun. f_equal. f_equal. simpl length. lia.
      * intros k w' [Heq|Hin] Hm.
        -- inversion Heq; subst. rewrite Hframe.
           ++ apply lookup_insert_eq.
           ++ intros w'' Hin. exfalso. eapply Hfresh; eauto.
        -- eapply Hhit; eauto.
      * intros k Hk. rewrite Hframe.
        -- apply lookup_insert_ne. intros ->.
           specialize (Hk w (or_introl eq_refl)). congruence.
        -- intros w' Hin. apply Hk. now right.
    + destruct (IH d n) as (d' & Hrun & Hhit & Hframe).
      exists d'. split; [exact Hrun|split].
      * intros k w' [Heq|Hin] Hm.
        -- inversion Heq; subst. congruence.
        -- eapply Hhit; eauto.
      * intros k Hk. apply Hframe. intros w' Hin. apply Hk. now right.
Qed.

Lemma Query_records (s : witness.Store) (anchorID : string) :
  Query (witness.store s) witness.anchorIndex
    (base64.RawURLEncodeToString anchorID) = Ok (records s anchorID).
Proof. reflexivity. Qed.

Lemma allDecode_In (items : list (string * json.bytes)) (k : string)
    (v : json.bytes) :
  allDecode items = true -> In (k, v) items -> exists w, v = json.Document w.
Proof.
  unfold allDecode. rewrite forallb_forall. intros H Hin.
  specialize (H _ Hin). simpl in H. destruct v as [w|raw]; [|discriminate].
  exists w. reflexivity.
Qed.

Lemma hasTag_anchorTag (enc : string) :
  hasTag witness.anchorIndex enc [witness.anchorTag enc] = true.
Proof.
  unfold hasTag, witness.anchorTag. simpl.
  rewrite !String.eqb_refl. reflexivity.
Qed.

(** [updateWitnessProof] on an anchor whose records all decode: the outcome
    and the backend it leaves. *)
Lemma updateWitnessProof_spec (s : witness.Store) (anchorID : string)
    (uris : list string) (updateFnc : WitnessProof -> WitnessProof) :
  allDecode (records s anchorID) = true ->
  witness.updateWitnessProof s anchorID uris updateFnc
  = (if existsb (itemMatches uris) (records s anchorID)
     then Ok tt
     else Err (witness.witnessNotFound uris anchorID),
     witness.withStore s (rewritten anchorID uris updateFnc <$> witness.store s)).
Proof.
  intros Hdec. unfold witness.updateWitnessProof.
  rewrite Query_records.
  destruct (updateWitnesses_spec anchorID uris updateFnc (records s anchorID)
              Hdec (NoDup_records_keys s anchorID) (witness.store s) 0)
    as (d' & Hrun & Hhit & Hframe).
  fold (encoded anchorID). rewrite Hrun.
  assert (Hd : d' = rewritten anchorID uris updateFnc <$> witness.store s).
  { apply map_eq. intros k. rewrite lookup_fmap.
    destruct (witness.store s !! k) as [[v tags]|] eqn:Hlook; simpl.
    - destruct (hasTag witness.anchorIndex (encoded anchorID) tags) eqn:Htag.
      + assert (Hin : In (k, v) (records s anchorID)).
        { apply In_records. exists tags. split; assumption. }
        destruct (allDecode_In _ _ _ Hdec Hin) as (w & ->).
        unfold rewritten, matches. simpl. rewrite Htag. simpl.
        destruct (existsb (String.eqb (URI w)) uris) eqn:Hm.
        * apply Hhit; assumption.
        * rewrite Hframe; [exact Hlook|].
          intros w' Hin'. apply In_records in Hin'.
          destruct Hin' as (tags' & Hlook' & _).
          rewrite Hlook in Hlook'. inversion Hlook'; subst. exact Hm.
      + rewrite Hframe.
        * rewrite Hlook. f_equal. unfold rewritten, matches. simpl.
          rewrite Htag. simpl. destruct v; reflexivity.
        * intros w' Hin'. apply In_records in Hin'.
          destruct Hin' as (tags' & Hlook' & Htag').
          rewrite Hlook in Hlook'. inversion Hlook'; subst. congruence.
    - rewrite Hframe; [exact Hlook|].
      intros w' Hin'. apply In_records in Hin'.
      destruct Hin' as (tags' & Hlook' & _). congruence. }
  rewrite <- Hd. rewrite Z.add_0_l, filter_length_zero_existsb.
  destruct (existsb (itemMatches uris) (records s anchorID)); reflexivity.
Qed.

Lemma existsb_itemMatches_false (uris : list string)
    (items : list (string * json.bytes)) :
  existsb (itemMatches uris) items = false <->
  forall k w, In (k, json.Document w) items ->
              existsb (String.eqb (URI w)) uris = false.
Proof.
  split.
  - intros H k w Hin.
    destruct (existsb (String.eqb (URI w)) uris) eqn:Hm; [|reflexivity].
    assert (existsb (itemMatches uris) items = true) as E.
    { apply existsb_exists. exists (k, json.Document w). split; assumption. }
    congruence.
  - intros H. destruct (existsb (itemMatches uris) items) eqn:E; [|reflexivity].
    apply existsb_exists in E. destruct E as ([k v] & Hin & Hm).
    unfold itemMatches in Hm. simpl in Hm. destruct v as [w|raw]; [|discriminate].
    rewrite (H k w Hin) in Hm. discriminate.
Qed.

Lemma existsb_eqb_false (u : string) (uris : list string) :
  existsb (String.eqb u) uris = false <-> ~ In u uris.
Proof.
  split.
  - intros H Hin. assert (existsb (String.eqb u) uris = true) as E.
    { apply existsb_exists. exists u. split; [exact Hin|apply String.eqb_refl]. }
    congruence.
  - intros H. destruct (existsb (String.eqb u) uris) eqn:E; [|reflexivity].
    apply existsb_exists in E. destruct E as (x & Hin & Heq).
    apply String.eqb_eq in Heq. subst. contradiction.
Qed.

(** A matched record is found again, updated, among the anchor's records. *)
Lemma updateWitnessProof_records (s : witness.Store) (anchorID : string)
    (uris : list string) (updateFnc : WitnessProof -> WitnessProof)
    (k : string) (w : WitnessProof) :
  allDecode (records s anchorID) = true ->
  In (k, json.Document w) (records s anchorID) ->
  In (URI w) uris ->
  In (k, json.Document (updateFnc w))
     (records (snd (witness.updateWitnessProof s anchorID uris updateFnc))
        anchorID) /\
  GetTags (witness.store
             (snd (witness.updateWitnessProof s anchorID uris updateFnc))) k
  = Ok [witness.anchorTag (encoded anchorID)].
Proof.
  intros Hdec Hin Huri. rewrite (updateWitnessProof_spec _ _ _ _ Hdec).
  simpl snd. apply In_records in Hin. destruct Hin as (tags & Hlook & Htag).
  assert (Hm : existsb (String.eqb (URI w)) uris = true).
  { destruct (existsb (String.eqb (URI w)) uris) eqn:E; [reflexivity|].
    apply existsb_eqb_false in E. contradiction. }
  assert (Hnew : (rewritten anchorID uris updateFnc <$> witness.store s) !! k
                 = Some (json.Document (updateFnc w),
                         [witness.anchorTag (encoded anchorID)])).
  { rewrite lookup_fmap, Hlook. simpl. unfold rewritten, matches. simpl.
    rewrite Htag, Hm. reflexivity. }
  split.
  - apply In_records. simpl.
    exists [witness.anchorTag (encoded anchorID)].
    split; [exact Hnew | apply hasTag_anchorTag].
  - unfold GetTags. simpl. rewrite Hnew. reflexivity.
Qed.

Lemma append_assoc (a b c : string) : (a +:+ b) +:+ c = a +:+ (b +:+ c).
Proof.
  induction a as [|x a IH]; [reflexivity|].
  change (String x ((a +:+ b) +:+ c) = String x (a +:+ (b +:+ c))).
  f_equal. exact IH.
Qed.

Lemma witnessNotFound_message (uris : list string) (anchorID : string) :
  exists msg,
    witness.witnessNotFound uris anchorID = Errorf msg /\
    contains msg (witness.joinURLs uris) /\ contains msg anchorID.
Proof.
  eexists. split; [reflexivity|]. split.
  - exists "witness[", ("] not found for anchorID[" +:+ anchorID +:+ "]").
    reflexivity.
  - exists ("witness[" +:+ witness.joinURLs uris +:+ "] not found for anchorID["), "]".
    rewrite !append_assoc. reflexivity.
Qed.

(** C7: on an anchor whose records decode, [AddProof] sets the proof on
    every stored record with the given URI (and leaves the other entries as
    they are); it returns the "not found" error exactly when no record of the
    anchor has that URI, and success otherwise; the message of that error
    contains the witness URI and the anchor ID. *)
Theorem C7_AddProof_sets_proof_or_reports_not_found (s : witness.Store)
    (anchorID uri : string) (p : option (list byte)) :
  allDecode (records s anchorID) = true ->
  witness.AddProof s anchorID uri p
  = (if existsb (itemMatches [uri]) (records s anchorID)
     then Ok tt
     else Err (witness.witnessNotFound [uri] anchorID),
     witness.withStore s
       (rewritten anchorID [uri] (setProof p) <$> witness.store s))
  /\ (fst (witness.AddProof s anchorID uri p)
        = Err (witness.witnessNotFound [uri] anchorID)
      <-> forall k w, In (k, json.Document w) (records s anchorID) ->
                      URI w <> uri)
  /\ (forall k w, In (k, json.Document w) (records s anchorID) ->
                  URI w = uri ->
                  In (k, json.Document (setProof p w))
                     (records (snd (witness.AddProof s anchorID uri p)) anchorID))
  /\ (exists msg,
        witness.witnessNotFound [uri] anchorID = Errorf msg /\
        contains msg uri /\ contains msg anchorID).
Proof.
  intros Hdec.
  assert (Hspec := updateWitnessProof_spec s anchorID [uri] (setProof p) Hdec).
  change (witness.updateWitnessProof s anchorID [uri] (setProof p))
    with (witness.AddProof s anchorID uri p) in Hspec.
  split; [exact Hspec|]. split; [|split].
  - rewrite Hspec. simpl fst.
    destruct (existsb (itemMatches [uri]) (records s anchorID)) eqn:E.
    + split; [discriminate|]. intros H. exfalso.
      assert (E' : existsb (itemMatches [uri]) (records s anchorID) = false).
      { apply existsb_itemMatches_false. intros k w Hin.
        apply existsb_eqb_false. intros [Heq|[]]. apply (H k w Hin). auto. }
      congruence.
    + split; [|reflexivity]. intros _ k w Hin Heq.
      apply existsb_itemMatches_false with (k := k) (w := w) in E; [|exact Hin].
      apply existsb_eqb_false in E. apply E. left. auto.
  - intros k w Hin Heq.
    apply (updateWitnessProof_records s anchorID [uri] (setProof p) k w Hdec Hin).
    left. auto.
  - apply (witnessNotFound_message [uri] anchorID).
Qed.

Lemma C7_AddProof_sets_proof_or_reports_not_found_witness :
  allDecode (records storeWithTwo "id") = true /\
  fst (witness.AddProof storeWithTwo "id" (URI b1) (Some ["001"%byte])) = Ok tt /\
  witness.AddProof storeWithTwo "id" "https://domain3.com/service" (Some ["001"%byte])
  = (Err (Errorf "witness[https://domain3.com/service] not found for anchorID[id]"),
     storeWithTwo) /\
  (fst (witness.AddProof storeWithTwo "id" "https://domain3.com/service" None)
     = Err (witness.witnessNotFound ["https://domain3.com/service"] "id")
   <-> forall k w, In (k, json.Document w) (records storeWithTwo "id") ->
                   URI w <> "https://domain3.com/service").
Proof.
  split; [vm_compute; reflexivity|].
  split; [vm_compute; reflexivity|].
  split; [vm_compute; reflexivity|].
  refine (proj1 (proj2 (C7_AddProof_sets_proof_or_reports_not_found
                          storeWithTwo "id" "https://domain3.com/service"
                          None _))).
  vm_compute. reflexivity.
Defined.

(** C8 (counterexample): one of the two given URIs matches no record of the
    anchor, and [UpdateWitnessSelection] succeeds all the same. *)
Lemma C8_partial_match_succeeds :
  (forall k w, In (k, json.Document w) (records storeWithTwo "id") ->
               URI w <> "https://domain3.com/service") /\
  fst (witness.UpdateWitnessSelection storeWithTwo "id"
         [URI b1; "https://domain3.com/service"] true) = Ok tt.
Proof.
  split; [|vm_compute; reflexivity].
  intros k w Hin Heq.
  assert (E : existsb (itemMatches ["https://domain3.com/service"])
                (records storeWithTwo "id") = false)
    by (vm_compute; reflexivity).
  apply existsb_itemMatches_false with (k := k) (w := w) in E; [|exact Hin].
  apply existsb_eqb_false in E. apply E. left. auto.
Qed.

(** C8 (amended): on an anchor whose records decode,
    [UpdateWitnessSelection] sets the Selected flag on each record whose URI
    is in the given list and returns the "not found" error exactly when none
    of the given URIs matches a record of the anchor; URIs without a record
    are ignored as long as one matches. *)
Theorem C8_UpdateWitnessSelection_not_found_iff_none_match
    (s : witness.Store) (anchorID : string) (uris : list string)
    (selected : bool) :
  allDecode (records s anchorID) = true ->
  witness.UpdateWitnessSelection s anchorID uris selected
  = (if existsb (itemMatches uris) (records s anchorID)
     then Ok tt
     else Err (witness.witnessNotFound uris anchorID),
     witness.withStore s
       (rewritten anchorID uris (setSelected selected) <$> witness.store s))
  /\ (fst (witness.UpdateWitnessSelection s anchorID uris selected)
        = Err (witness.witnessNotFound uris anchorID)
      <-> forall k w, In (k, json.Document w) (records s anchorID) ->
                      ~ In (URI w) uris)
  /\ (forall k w, In (k, json.Document w) (records s anchorID) ->
                  In (URI w) uris ->
                  In (k, json.Document (setSelected selected w))
                     (records
                        (snd (witness.UpdateWitnessSelection s anchorID uris selected))
                        anchorID)).
Proof.
  intros Hdec.
  assert (Hspec := updateWitnessProof_spec s anchorID uris (setSelected selected) Hdec).
  change (witness.updateWitnessProof s anchorID uris (setSelected selected))
    with (witness.UpdateWitnessSelection s anchorID uris selected) in Hspec.
  split; [exact Hspec|]. split.
  - rewrite Hspec. simpl fst.
    destruct (existsb (itemMatches uris) (records s anchorID)) eqn:E.
    + split; [discriminate|]. intros H. exfalso.
      assert (E' : existsb (itemMatches uris) (records s anchorID) = false).
      { apply existsb_itemMatches_false. intros k w Hin.
        apply existsb_eqb_false. apply (H k w Hin). }
      congruence.
    + split; [|reflexivity]. intros _ k w Hin.
      apply existsb_itemMatches_false with (k := k) (w := w) in E; [|exact Hin].
      apply existsb_eqb_false in E. exact E.
  - intros k w Hin Huri.
    apply (updateWitnessProof_records s anchorID uris (setSelected selected)
             k w Hdec Hin Huri).
Qed.

Lemma C8_UpdateWitnessSelection_not_found_iff_none_match_witness :
  allDecode (records storeWithTwo "id") = true /\
  fst (witness.UpdateWitnessSelection storeWithTwo "id"
         ["https://domain3.com/service"] true)
  = Err (witness.witnessNotFound ["https://domain3.com/service"] "id") /\
  (fst (witness.UpdateWitnessSelection storeWithTwo "id" [URI b1; URI b3] true)
     = Err (witness.witnessNotFound [URI b1; URI b3] "id")
   <-> forall k w, In (k, json.Document w) (records storeWithTwo "id") ->
                   ~ In (URI w) [URI b1; URI b3]).
Proof.
  split; [vm_compute; reflexivity|].
  split; [vm_compute; reflexivity|].
  refine (proj1 (proj2 (C8_UpdateWitnessSelection_not_found_iff_none_match
                          storeWithTwo "id" [URI b1; URI b3] true _))).
  vm_compute. reflexivity.
Defined.

(** *** Batches *)

Lemma Batch_frame (operations : list Operation) (m : db) (k : string) :
  (forall op, In op operations -> Key op <> k) ->
  fold_left applyOperation operations m !! k = m !! k.
Proof.
  revert m. induction operations as [|op ops IH]; intros m H; simpl; [reflexivity|].
  rewrite IH by (intros op' Hin; apply H; now right).
  assert (Hne : Key op <> k) by (apply H; now left).
  unfold applyOperation. destruct (OpValue op).
  - now apply lookup_insert_ne.
  - now apply lookup_delete_ne.
Qed.

Lemma Batch_deletes_lookup (keys : list string) (m : db) (k : string) :
  fold_left applyOperation
    (map (fun k => {| Key := k; OpValue := None; Tags := [] |}) keys) m !! k
  = if existsb (String.eqb k) keys then None else m !! k.
Proof.
  revert m. induction keys as [|k' keys IH]; intros m; simpl; [reflexivity|].
  rewrite IH. unfold applyOperation. simpl.
  destruct (existsb (String.eqb k) keys) eqn:E.
  - rewrite orb_true_r. reflexivity.
  - rewrite orb_false_r. destruct (String.eqb k k') eqn:Ek.
    + apply String.eqb_eq in Ek. subst. apply lookup_delete_eq.
    + apply String.eqb_neq in Ek. apply lookup_delete_ne. congruence.
Qed.

Lemma Batch_puts_lookup (operations : list Operation) (m : db) (i : nat)
    (op : Operation) (value : json.bytes) :
  NoDup (Key <$> operations) ->
  operations !! i = Some op -> OpValue op = Some value ->
  fold_left applyOperation operations m !! Key op = Some (value, Tags op).
Proof.
  revert m i. induction operations as [|op0 ops IH]; intros m i Hnd Hi Hv.
  - rewrite lookup_nil in Hi. discriminate.
  - rewrite fmap_cons in Hnd. apply NoDup_cons in Hnd.
    destruct Hnd as [Hnotin Hnd]. destruct i as [|i]; simpl in Hi.
    + inversion Hi; subst op0. simpl. rewrite Batch_frame.
      * unfold applyOperation. rewrite Hv. apply lookup_insert_eq.
      * intros op' Hin Heq. apply Hnotin. rewrite <- Heq.
        apply list_elem_of_fmap. exists op'. split; [reflexivity|].
        now apply list_elem_of_In.
    + simpl. eapply IH; eauto.
Qed.

(** What [Put] stores for the witness of iteration [i], when the keys drawn
    are distinct: its JSON form under the key [uuid i], tagged with the anchor
    index and with the expiry time. *)
Lemma Put_entry (s : witness.Store) (anchorID : string)
    (witnesses : list Witness) (uuid : nat -> string) (now : nat -> Z)
    (i : nat) (w : Witness) :
  (forall i j, (i < length witnesses)%nat -> (j < length witnesses)%nat ->
               uuid i = uuid j -> i = j) ->
  witnesses !! i = Some w ->
  fst (witness.Put s anchorID witnesses uuid now) = Ok tt /\
  witness.store (snd (witness.Put s anchorID witnesses uuid now)) !! uuid i
  = Some (json.MarshalWitness w,
          [ witness.anchorTag (encoded anchorID);
            {| Name := witness.expiryTagName;
               Value := pretty (now i + witness.expiryPeriod s) |} ]).
Proof.
  intros Hinj Hi. unfold witness.Put, Batch. simpl. split; [reflexivity|].
  set (mk := fun (i : nat) (w : Witness) =>
               {| Key := uuid i; OpValue := Some (json.MarshalWitness w);
                  Tags := [ witness.anchorTag (base64.RawURLEncodeToString anchorID);
                            {| Name := witness.expiryTagName;
                               Value := pretty (now i + witness.expiryPeriod s) |} ] |}).
  change (uuid i) with (Key (mk i w)).
  change [witness.anchorTag (encoded anchorID);
          {| Name := witness.expiryTagName;
             Value := pretty (now i + witness.expiryPeriod s) |}]
    with (Tags (mk i w)).
  apply Batch_puts_lookup with (i := i).
  - apply NoDup_alt. intros a b x Ha Hb.
    rewrite list_lookup_fmap, list_lookup_imap in Ha.
    rewrite list_lookup_fmap, list_lookup_imap in Hb.
    destruct (witnesses !! a) as [wa|] eqn:Ea; [|discriminate].
    destruct (witnesses !! b) as [wb|] eqn:Eb; [|discriminate].
    simpl in Ha, Hb. inversion Ha; inversion Hb; subst.
    apply Hinj; [eapply lookup_lt_Some; eauto | eapply lookup_lt_Some; eauto | congruence].
  - rewrite list_lookup_imap, Hi. reflexivity.
  - reflexivity.
Qed.

(** C9: [Delete] succeeds, removes every record of the anchor and nothing
    else, and leaves the store as it is when the anchor has no record;
    afterwards [Get] reports that the anchor is not found. *)
Theorem C9_Delete_removes_all_records (s : witness.Store) (anchorID : string) :
  fst (witness.Delete s anchorID) = Ok tt /\
  records (snd (witness.Delete s anchorID)) anchorID = [] /\
  (forall k,
     witness.store (snd (witness.Delete s anchorID)) !! k
     = if existsb (String.eqb k) (map fst (records s anchorID))
       then None
       else witness.store s !! k) /\
  (records s anchorID = [] -> snd (witness.Delete s anchorID) = s) /\
  witness.Get (snd (witness.Delete s anchorID)) anchorID
  = Err (notFoundInStore anchorID).
Proof.
  assert (Hlook : forall k,
            witness.store (snd (witness.Delete s anchorID)) !! k
            = if existsb (String.eqb k) (map fst (records s anchorID))
              then None
              else witness.store s !! k).
  { intros k. unfold witness.Delete. rewrite Query_records.
    destruct (records s anchorID) as [|item items] eqn:Hitems; [reflexivity|].
    unfold Batch. cbn [snd witness.withStore witness.store].
    apply Batch_deletes_lookup. }
  assert (Hnone : records (snd (witness.Delete s anchorID)) anchorID = []).
  { destruct (records (snd (witness.Delete s anchorID)) anchorID)
      as [|[k v] rest] eqn:Hrec; [reflexivity|]. exfalso.
    assert (Hin : In (k, v) (records (snd (witness.Delete s anchorID)) anchorID))
      by (rewrite Hrec; now left).
    apply In_records in Hin. destruct Hin as (tags & Hk & Htag).
    rewrite Hlook in Hk.
    destruct (existsb (String.eqb k) (map fst (records s anchorID))) eqn:E;
      [discriminate|].
    apply existsb_eqb_false in E. apply E. apply in_map_iff.
    exists (k, v). split; [reflexivity|]. apply In_records. eauto. }
  split; [|split; [exact Hnone|split; [exact Hlook|split]]].
  - unfold witness.Delete. rewrite Query_records.
    destruct (records s anchorID); reflexivity.
  - intros Hempty. unfold witness.Delete. rewrite Query_records, Hempty.
    reflexivity.
  - unfold witness.Get. rewrite Query_records, Hnone. reflexivity.
Qed.

(** C10: a record written by [Put] carries the anchor index tag and the
    ExpiryTime tag; once [AddProof] or [UpdateWitnessSelection] has rewritten
    it, the entry under the same key carries the anchor index tag alone, so
    no ExpiryTime tag is left on it. *)
Theorem C10_update_drops_expiry_tag (s : witness.Store) (anchorID : string)
    (witnesses : list Witness) (uuid : nat -> string) (now : nat -> Z)
    (i : nat) (w : Witness) (p : option (list byte)) (selected : bool) :
  (forall i j, (i < length witnesses)%nat -> (j < length witnesses)%nat ->
               uuid i = uuid j -> i = j) ->
  witnesses !! i = Some w ->
  let s1 := snd (witness.Put s anchorID witnesses uuid now) in
  allDecode (records s1 anchorID) = true ->
  GetTags (witness.store s1) (uuid i)
    = Ok [ witness.anchorTag (encoded anchorID);
           {| Name := witness.expiryTagName;
              Value := pretty (now i + witness.expiryPeriod s) |} ] /\
  GetTags (witness.store (snd (witness.AddProof s1 anchorID (URI w) p))) (uuid i)
    = Ok [witness.anchorTag (encoded anchorID)] /\
  GetTags (witness.store
             (snd (witness.UpdateWitnessSelection s1 anchorID [URI w] selected)))
    (uuid i)
    = Ok [witness.anchorTag (encoded anchorID)] /\
  (forall v, hasTag witness.expiryTagName v
               [witness.anchorTag (encoded anchorID)] = false).
Proof.
  intros Hinj Hi s1 Hdec.
  destruct (Put_entry s anchorID witnesses uuid now i w Hinj Hi) as [_ Hentry].
  fold s1 in Hentry.
  assert (Hin : In (uuid i, json.Document {| witness := w; Proof_ := None |})
                   (records s1 anchorID)).
  { apply In_records. eexists. split; [exact Hentry|].
    unfold hasTag. simpl. unfold witness.anchorTag. simpl.
    rewrite !String.eqb_refl. reflexivity. }
  split; [|split; [|split]].
  - unfold GetTags. rewrite Hentry. reflexivity.
  - apply (updateWitnessProof_records s1 anchorID [URI w] (setProof p)
             (uuid i) _ Hdec Hin). left. reflexivity.
  - apply (updateWitnessProof_records s1 anchorID [URI w] (setSelected selected)
             (uuid i) _ Hdec Hin). left. reflexivity.
  - intros v. reflexivity.
Qed.

Lemma C10_update_drops_expiry_tag_witness :
  (forall i j, (i < length [b1; b3])%nat -> (j < length [b1; b3])%nat ->
               examples.uuid i = examples.uuid j -> i = j) /\
  [b1; b3] !! 0%nat = Some b1 /\
  allDecode (records storeWithTwo "id") = true /\
  GetTags (witness.store storeWithTwo) "key-0"
    = Ok [ {| Name := "anchorID"; Value := "aWQ" |};
           {| Name := "ExpiryTime"; Value := "1010" |} ] /\
  GetTags (witness.store
             (snd (witness.AddProof storeWithTwo "id" (URI b1) (Some ["001"%byte]))))
    "key-0"
    = Ok [ {| Name := "anchorID"; Value := "aWQ" |} ].
Proof.
  assert (Hinj : forall i j, (i < length [b1; b3])%nat -> (j < length [b1; b3])%nat ->
                             examples.uuid i = examples.uuid j -> i = j).
  { intros i j Hi Hj. simpl in Hi, Hj.
    destruct i as [|[|i]]; destruct j as [|[|j]]; try lia;
      vm_compute; intros H; first [reflexivity | discriminate H]. }
  split; [exact Hinj|]. split; [reflexivity|]. split; [vm_compute; reflexivity|].
  pose proof (C10_update_drops_expiry_tag emptyStore "id" [b1; b3] examples.uuid
                (fun _ => 1000) 0%nat b1 (Some ["001"%byte]) true Hinj eq_refl) as H.
  cbv zeta in H. specialize (H eq_refl). destruct H as (H1 & H2 & _).
  split; [exact H1 | exact H2].
Defined.

(** * Further properties *)

(** ** More about [Evaluate] *)

Lemma filter_length_Permutation {A : Type} (f : A -> bool) (l l' : list A) :
  Permutation l l' ->
  length (List.filter f l) = length (List.filter f l').
Proof.
  induction 1 as [|x l l' _ IH|x y l|l l' l'' _ IH1 _ IH2]; simpl.
  - reflexivity.
  - destruct (f x); simpl; congruence.
  - destruct (f x), (f y); reflexivity.
  - congruence.
Qed.

Lemma counters_eq (c c' : counters) :
  totalSystemWitnesses c = totalSystemWitnesses c' ->
  collectedSystemWitnesses c = collectedSystemWitnesses c' ->
  totalBatchWitnesses c = totalBatchWitnesses c' ->
  collectedBatchWitnesses c = collectedBatchWitnesses c' ->
  c = c'.
Proof. destruct c, c'; simpl; congruence. Qed.

(** X1: [Evaluate] does not depend on the order of the records. *)
Theorem X1_Evaluate_order_irrelevant (policyCfg : result WitnessPolicyConfig)
    (witnesses witnesses' : list WitnessProof) :
  Permutation witnesses witnesses' ->
  Evaluate policyCfg witnesses = Evaluate policyCfg witnesses'.
Proof.
  intros Hperm. destruct policyCfg as [cfg|e]; [|reflexivity]. unfold Evaluate.
  replace (countWitnesses cfg witnesses') with (countWitnesses cfg witnesses);
    [reflexivity|].
  destruct (countWitnesses_counts cfg witnesses) as (A1 & A2 & A3 & A4).
  destruct (countWitnesses_counts cfg witnesses') as (B1 & B2 & B3 & B4).
  apply counters_eq; rewrite ?A1, ?A2, ?A3, ?A4, ?B1, ?B2, ?B3, ?B4;
    unfold total, collected; f_equal; now apply filter_length_Permutation.
Qed.

Lemma X1_Evaluate_order_irrelevant_witness :
  Permutation [withProof b1 None; withProof s1 (Some [])]
              [withProof s1 (Some []); withProof b1 None] /\
  Evaluate (Ok oneOfEach) [withProof b1 None; withProof s1 (Some [])]
  = Evaluate (Ok oneOfEach) [withProof s1 (Some []); withProof b1 None].
Proof.
  split; [apply perm_swap|].
  apply (X1_Evaluate_order_irrelevant (Ok oneOfEach)). apply perm_swap.
Defined.

Lemma sameForPolicy_counts (cfg : WitnessPolicyConfig) (ty : WitnessType)
    (witnesses witnesses' : list WitnessProof) :
  Forall2 sameForPolicy witnesses witnesses' ->
  total ty witnesses = total ty witnesses' /\
  collected cfg ty witnesses = collected cfg ty witnesses'.
Proof.
  unfold total, collected.
  induction 1 as [|w w' ws ws' (Ht & Hl & Hp) _ [IHt IHc]]; [split; reflexivity|].
  cbn [List.filter].
  assert (Ec : inClass ty w = inClass ty w').
  { unfold inClass, isSystem, isBatch. now rewrite Ht. }
  rewrite Ec, Hl, Hp.
  destruct (inClass ty w'); cbn [andb length]; [|split; assumption].
  split; [lia|].
  destruct (checkLog (LogRequired cfg) (HasLog w') && proofNotNil w');
    cbn [length]; lia.
Qed.

(** X2: [Evaluate] reads the type of a record, whether it has a log and whether
    its proof is nil, and nothing else: neither the URI, nor the selection
    flag, nor the bytes of the proof change its answer. *)
Theorem X2_Evaluate_reads_type_log_proof (policyCfg : result WitnessPolicyConfig)
    (witnesses witnesses' : list WitnessProof) :
  Forall2 sameForPolicy witnesses witnesses' ->
  Evaluate policyCfg witnesses = Evaluate policyCfg witnesses'.
Proof.
  intros Hsame. destruct policyCfg as [cfg|e]; [|reflexivity]. unfold Evaluate.
  replace (countWitnesses cfg witnesses') with (countWitnesses cfg witnesses);
    [reflexivity|].
  destruct (countWitnesses_counts cfg witnesses) as (A1 & A2 & A3 & A4).
  destruct (countWitnesses_counts cfg witnesses') as (B1 & B2 & B3 & B4).
  destruct (sameForPolicy_counts cfg WitnessTypeBatch _ _ Hsame) as [Tb Cb].
  destruct (sameForPolicy_counts cfg WitnessTypeSystem _ _ Hsame) as [Ts Cs].
  apply counters_eq; congruence.
Qed.

Lemma X2_Evaluate_reads_type_log_proof_witness :
  Forall2 sameForPolicy
    [withProof b1 (Some ["001"%byte]); withProof s1 None]
    [withProof b3 (Some []); withProof s2 None] /\
  Evaluate (Ok oneOfEach) [withProof b1 (Some ["001"%byte]); withProof s1 None]
  = Evaluate (Ok oneOfEach) [withProof b3 (Some []); withProof s2 None].
Proof.
  assert (H : Forall2 sameForPolicy
                [withProof b1 (Some ["001"%byte]); withProof s1 None]
                [withProof b3 (Some []); withProof s2 None])
    by (repeat constructor).
  split; [exact H|]. apply (X2_Evaluate_reads_type_log_proof (Ok oneOfEach) _ _ H).
Defined.

Lemma addsProof_counts (cfg : WitnessPolicyConfig) (ty : WitnessType)
    (witnesses witnesses' : list WitnessProof) :
  Forall2 addsProof witnesses witnesses' ->
  total ty witnesses' = total ty witnesses /\
  collected cfg ty witnesses <= collected cfg ty witnesses'.
Proof.
  unfold total, collected.
  induction 1 as [|w w' ws ws' [Hw Hp] _ IH]; [split; [reflexivity|lia]|].
  destruct IH as [IHt IHc]. cbn [List.filter]. rewrite <- Hw.
  destruct (inClass ty (witness w)); cbn [andb length].
  - split; [lia|].
    destruct (checkLog (LogRequired cfg) (HasLog (witness w))); cbn [andb length];
      [|lia].
    destruct (proofNotNil w); [rewrite Hp by reflexivity|destruct (proofNotNil w')];
      cbn [length]; lia.
  - split; lia.
Qed.

Lemma evaluate_monotone (collected collected' total minNumber minPercent : Z) :
  0 <= minNumber -> 0 <= minPercent <= 100 ->
  0 <= collected <= collected' -> collected' <= total -> 100 * total < 2 ^ 52 ->
  evaluate collected total minNumber minPercent = true ->
  evaluate collected' total minNumber minPercent = true.
Proof.
  intros Hn Hp Hc Hc' Ht.
  rewrite !evaluate_exact by lia.
  rewrite !orb_true_iff, !andb_true_iff.
  rewrite !Z.eqb_eq, !Z.leb_le, !Z.geb_le, !Z.gtb_lt. lia.
Qed.

(** X3: Proofs that arrive later never turn a satisfied policy into an
    unsatisfied one. *)
Theorem X3_Evaluate_more_proofs (cfg : WitnessPolicyConfig)
    (witnesses witnesses' : list WitnessProof) :
  parsed cfg -> Z.of_nat (length witnesses) < 2 ^ 45 ->
  Forall2 addsProof witnesses witnesses' ->
  Evaluate (Ok cfg) witnesses = Ok true ->
  Evaluate (Ok cfg) witnesses' = Ok true.
Proof.
  intros (Hnb & Hns & Hpb & Hps) Hlen Hadd. unfold Evaluate.
  destruct (countWitnesses_counts cfg witnesses) as (A1 & A2 & A3 & A4).
  destruct (countWitnesses_counts cfg witnesses') as (B1 & B2 & B3 & B4).
  rewrite A1, A2, A3, A4, B1, B2, B3, B4.
  destruct (addsProof_counts cfg WitnessTypeBatch _ _ Hadd) as [Tb Cb].
  destruct (addsProof_counts cfg WitnessTypeSystem _ _ Hadd) as [Ts Cs].
  rewrite Tb, Ts.
  pose proof (collected_le_total cfg WitnessTypeBatch witnesses) as [Lb Lb'].
  pose proof (collected_le_total cfg WitnessTypeSystem witnesses) as [Ls Ls'].
  pose proof (collected_le_total cfg WitnessTypeBatch witnesses') as [Mb _].
  pose proof (collected_le_total cfg WitnessTypeSystem witnesses') as [Ms _].
  assert (P45 : 100 * 2 ^ 45 < 2 ^ 52) by reflexivity.
  pose proof (evaluate_monotone (collected cfg WitnessTypeBatch witnesses)
                (collected cfg WitnessTypeBatch witnesses')
                (total WitnessTypeBatch witnesses)
                (MinNumberBatch cfg) (MinPercentBatch cfg)
                Hnb Hpb ltac:(lia) ltac:(lia) ltac:(lia)) as Eb.
  pose proof (evaluate_monotone (collected cfg WitnessTypeSystem witnesses)
                (collected cfg WitnessTypeSystem witnesses')
                (total WitnessTypeSystem witnesses)
                (MinNumberSystem cfg) (MinPercentSystem cfg)
                Hns Hps ltac:(lia) ltac:(lia) ltac:(lia)) as Es.
  intros H. injection H as H'. f_equal.
  unfold OperatorFnc in *. destruct (Operator_ cfg).
  - apply andb_true_iff in H'. destruct H' as [H1 H2].
    rewrite (Eb H1), (Es H2). reflexivity.
  - apply orb_true_iff in H'. destruct H' as [H1|H2].
    + rewrite (Eb H1). reflexivity.
    + rewrite (Es H2). apply orb_true_r.
Qed.

Lemma X3_Evaluate_more_proofs_witness :
  parsed oneOfEach /\
  Evaluate (Ok oneOfEach) [withProof b1 (Some []); withProof s1 (Some [])] = Ok true /\
  Evaluate (Ok oneOfEach)
    [withProof b1 (Some ["001"%byte]); withProof s1 (Some [])] = Ok true.
Proof.
  assert (Hp : parsed oneOfEach) by (unfold parsed; simpl; lia).
  split; [exact Hp|]. split; [vm_compute; reflexivity|].
  apply (X3_Evaluate_more_proofs oneOfEach
           [withProof b1 (Some []); withProof s1 (Some [])]
           [withProof b1 (Some ["001"%byte]); withProof s1 (Some [])] Hp).
  - simpl. lia.
  - repeat constructor.
  - vm_compute. reflexivity.
Defined.

Lemma evaluate_no_witnesses (collected minNumber minPercent : Z) :
  0 <= minPercent <= 100 -> evaluate collected 0 minNumber minPercent = true.
Proof.
  intros Hp. unfold evaluate, float64.geb, maxPercent. cbn [Z.eqb negb].
  rewrite percent_at_most_hundred by exact Hp. apply orb_true_r.
Qed.

(** X4: A class without any record is satisfied: under OR the policy then holds
    whatever the other class has collected, under AND the other class
    decides. *)
Theorem X4_Evaluate_absent_class (cfg : WitnessPolicyConfig)
    (witnesses : list WitnessProof) :
  parsed cfg ->
  (total WitnessTypeSystem witnesses = 0 ->
   Evaluate (Ok cfg) witnesses
   = Ok (match Operator_ cfg with
         | OR => true
         | AND => evaluate (collected cfg WitnessTypeBatch witnesses)
                    (total WitnessTypeBatch witnesses)
                    (MinNumberBatch cfg) (MinPercentBatch cfg)
         end)) /\
  (total WitnessTypeBatch witnesses = 0 ->
   Evaluate (Ok cfg) witnesses
   = Ok (match Operator_ cfg with
         | OR => true
         | AND => evaluate (collected cfg WitnessTypeSystem witnesses)
                    (total WitnessTypeSystem witnesses)
                    (MinNumberSystem cfg) (MinPercentSystem cfg)
         end)) /\
  Evaluate (Ok cfg) [] = Ok true.
Proof.
  intros (Hnb & Hns & Hpb & Hps). unfold Evaluate.
  destruct (countWitnesses_counts cfg witnesses) as (A1 & A2 & A3 & A4).
  rewrite A1, A2, A3, A4. unfold OperatorFnc.
  split; [|split].
  - intros Hz. rewrite Hz, (evaluate_no_witnesses _ _ _ Hps).
    destruct (Operator_ cfg); [now rewrite andb_true_r|now rewrite orb_true_r].
  - intros Hz. rewrite Hz, (evaluate_no_witnesses _ _ _ Hpb).
    destruct (Operator_ cfg); reflexivity.
  - cbn [countWitnesses fold_left collectedBatchWitnesses totalBatchWitnesses
         collectedSystemWitnesses totalSystemWitnesses].
    rewrite (evaluate_no_witnesses _ _ _ Hps), (evaluate_no_witnesses _ _ _ Hpb).
    destruct (Operator_ cfg); reflexivity.
Qed.

Lemma X4_Evaluate_absent_class_witness :
  parsed twoOfEither /\
  total WitnessTypeSystem [withProof b1 None; withProof b3 None] = 0 /\
  Evaluate (Ok twoOfEither) [withProof b1 None; withProof b3 None] = Ok true.
Proof.
  assert (Hp : parsed twoOfEither) by (unfold parsed; simpl; lia).
  split; [exact Hp|]. split; [reflexivity|].
  apply (proj1 (X4_Evaluate_absent_class twoOfEither
                  [withProof b1 None; withProof b3 None] Hp)).
  reflexivity.
Defined.

(** X5: With a minimum percentage of zero a class is satisfied whatever has been
    collected, and whatever its minimum number is. *)
Theorem X5_evaluate_zero_percent (collected total minNumber : Z) :
  0 <= collected < 2 ^ 53 -> 0 <= total < 2 ^ 53 ->
  evaluate collected total minNumber 0 = true.
Proof.
  intros Hc Ht. unfold evaluate, float64.geb, maxPercent.
  rewrite (fdiv_zero_of_int 100) by lia.
  match goal with |- _ || ?x = true => assert (E : x = true); [|rewrite E; apply orb_true_r] end.
  destruct (Z.eqb_spec total 0) as [->|Hne]; cbn [negb].
  - vm_compute. reflexivity.
  - destruct (Z.eq_dec collected 0) as [->|Hc0].
    + rewrite (fdiv_zero_of_int total) by lia. reflexivity.
    + destruct (fdiv_of_int_finite collected total) as (n & e & ->); try lia.
      reflexivity.
Qed.

Lemma X5_evaluate_zero_percent_witness :
  0 <= 0 < 2 ^ 53 /\ 0 <= 3 < 2 ^ 53 /\ evaluate 0 3 2 0 = true.
Proof.
  assert (H1 : 0 <= 0 < 2 ^ 53) by lia.
  assert (H2 : 0 <= 3 < 2 ^ 53) by lia.
  split; [exact H1|]. split; [exact H2|].
  apply (X5_evaluate_zero_percent 0 3 2 H1 H2).
Defined.

(** ** More about the selection *)

(** *** Intersection and difference by URI *)

Lemma existsb_eqb_In (u : string) (l : list string) :
  existsb (String.eqb u) l = true <-> In u l.
Proof.
  rewrite existsb_exists. split.
  - intros (x & Hx & E). apply String.eqb_eq in E. now subst.
  - intros H. exists u. split; [exact H|apply String.eqb_refl].
Qed.

Lemma existsb_of_map {A B : Type} (f : B -> bool) (g : A -> B) (l : list A) :
  existsb f (map g l) = existsb (fun x => f (g x)) l.
Proof. induction l as [|x l IH]; simpl; [reflexivity|now rewrite IH]. Qed.

Lemma isExcluded_In (w : Witness) (l : list Witness) :
  isExcluded w l = true <-> In (URI w) (map URI l).
Proof.
  unfold isExcluded. rewrite existsb_exists, in_map_iff. split.
  - intros (e & He & E). apply String.eqb_eq in E. eauto.
  - intros (e & E & He). exists e. split; [exact He|]. rewrite E. apply String.eqb_refl.
Qed.

Lemma hash_of_list (v : bool) (l : list Witness) (h : gmap string bool) (u : string) :
  fold_left (fun h e => <[URI e := v]> h) l h !! u
  = if existsb (String.eqb u) (map URI l) then Some v else h !! u.
Proof.
  revert h. induction l as [|e l IH]; intros h; simpl; [reflexivity|].
  rewrite IH. destruct (String.eqb u (URI e)) eqn:E; simpl.
  - apply String.eqb_eq in E. subst u. rewrite lookup_insert_eq.
    now destruct (existsb _ _).
  - apply String.eqb_neq in E. rewrite lookup_insert_ne by congruence.
    reflexivity.
Qed.

Lemma difference_from (hash : gmap string bool) (a acc : list Witness) :
  fold_left
    (fun result e =>
       match hash !! URI e with
       | Some _ => result
       | None => result ++ [e]
       end) a acc
  = acc ++ List.filter (fun e => match hash !! URI e with
                                 | Some _ => false
                                 | None => true
                                 end) a.
Proof.
  revert acc. induction a as [|e a IH]; intros acc; simpl.
  - now rewrite app_nil_r.
  - rewrite IH. destruct (hash !! URI e); [reflexivity|].
    now rewrite <- app_assoc.
Qed.

Lemma difference_filter (a b : list Witness) :
  difference a b = List.filter (fun e => negb (isExcluded e b)) a.
Proof.
  unfold difference. rewrite difference_from. simpl.
  apply filter_ext. intros e. rewrite hash_of_list, lookup_empty.
  unfold isExcluded. rewrite existsb_of_map.
  destruct (existsb _ b); reflexivity.
Qed.

Lemma intersection_from (a b acc : list Witness) (h : gmap string bool) :
  marks a acc h ->
  let r := fold_left
             (fun (acc : list Witness * gmap string bool) e =>
                match snd acc !! URI e with
                | Some false => (fst acc ++ [e], <[URI e := true]> (snd acc))
                | _ => acc
                end) b (acc, h) in
  marks a (fst r) (snd r) /\
  (exists l, fst r = acc ++ l /\ sublist l b) /\
  (forall w, In w b -> In (URI w) (map URI a) -> In (URI w) (map URI (fst r))).
Proof.
  revert acc h. induction b as [|e b IH]; intros acc h Hm; simpl.
  - split; [exact Hm|]. split; [|intros w []].
    exists []. split; [now rewrite app_nil_r|constructor].
  - destruct Hm as (Hnd & Hacc & Hh).
    assert (Hcase :
      exists acc' h',
        match h !! URI e with
        | Some false => (acc ++ [e], <[URI e := true]> h)
        | _ => (acc, h)
        end = (acc', h') /\
        marks a acc' h' /\
        (exists l, acc' = acc ++ l /\ sublist l [e]) /\
        (In (URI e) (map URI a) -> In (URI e) (map URI acc'))).
    { pose proof (Hh (URI e)) as He.
      destruct (existsb (String.eqb (URI e)) (map URI a)) eqn:Ea.
      - destruct (existsb (String.eqb (URI e)) (map URI acc)) eqn:Eacc; rewrite He.
        + exists acc, h. split; [reflexivity|]. split; [repeat split; assumption|].
          split; [exists []; split; [now rewrite app_nil_r|apply sublist_nil_l]|].
          intros _. now apply existsb_eqb_In.
        + exists (acc ++ [e]), (<[URI e := true]> h). split; [reflexivity|].
          split; [split; [|split]|split].
          * rewrite map_app. simpl. apply NoDup_app. split; [exact Hnd|].
            split; [|apply NoDup_singleton].
            intros u Hu Hu'. apply list_elem_of_In in Hu. apply list_elem_of_In in Hu'.
            destruct Hu' as [<-|[]].
            apply existsb_eqb_In in Hu. congruence.
          * intros w Hw. apply in_app_or in Hw. destruct Hw as [Hw|[<-|[]]].
            -- now apply Hacc.
            -- now apply existsb_eqb_In.
          * intros u. rewrite map_app, existsb_app. simpl. rewrite orb_false_r.
            destruct (String.eqb u (URI e)) eqn:E.
            -- apply String.eqb_eq in E. subst u. rewrite lookup_insert_eq, Ea.
               now rewrite orb_true_r.
            -- apply String.eqb_neq in E. rewrite lookup_insert_ne by congruence.
               rewrite Hh. now rewrite orb_false_r.
          * exists [e]. split; [reflexivity|]. reflexivity.
          * intros _. rewrite map_app. apply in_or_app. right. now left.
      - rewrite He. exists acc, h. split; [reflexivity|]. split; [repeat split; assumption|].
        split; [exists []; split; [now rewrite app_nil_r|apply sublist_nil_l]|].
        intros Hin. apply existsb_eqb_In in Hin. congruence. }
    destruct Hcase as (acc' & h' & Estep & Hm' & (l1 & El1 & Hs1) & He).
    rewrite Estep.
    specialize (IH acc' h' Hm'). cbv zeta in IH.
    destruct IH as (Hm2 & (l2 & El2 & Hs2) & Hall).
    split; [exact Hm2|]. split.
    + exists (l1 ++ l2). split; [rewrite El2, El1; now rewrite app_assoc|].
      change (e :: b) with ([e] ++ b). now apply sublist_app.
    + intros w [<-|Hw] Hin; [|now apply Hall].
      rewrite El2, map_app. apply in_or_app. left. now apply He.
Qed.

Lemma sublist_In {A : Type} (l k : list A) (x : A) :
  sublist l k -> In x l -> In x k.
Proof.
  intros Hs Hx. apply list_elem_of_In. eapply elem_of_sublist; [|exact Hs].
  now apply list_elem_of_In.
Qed.

Lemma marks_initial (a : list Witness) :
  marks a [] (fold_left (fun h e => <[URI e := false]> h) a ∅).
Proof.
  split; [constructor|]. split; [intros w []|].
  intros u. rewrite hash_of_list, lookup_empty. reflexivity.
Qed.

(** X6: [intersection a b] lists, in the order of [b], the first witness of [b]
    for every URI that occurs in both lists: its members come from [b] and
    have a URI of [a], no URI is listed twice, and every URI common to both
    lists is represented. *)
Theorem X6_intersection_by_uri (a b : list Witness) :
  sublist (intersection a b) b /\
  NoDup (map URI (intersection a b)) /\
  (forall w, In w (intersection a b) -> In w b /\ In (URI w) (map URI a)) /\
  (forall u, In u (map URI (intersection a b))
             <-> In u (map URI a) /\ In u (map URI b)).
Proof.
  pose proof (intersection_from a b [] _ (marks_initial a)) as H.
  cbv zeta in H. fold (intersection a b) in H.
  destruct H as ((Hnd & Hmem & Hh) & (l & El & Hs) & Hall).
  simpl in El. subst l.
  split; [exact Hs|]. split; [exact Hnd|]. split.
  - intros w Hw. split; [eapply sublist_In; eauto|now apply Hmem].
  - intros u. split.
    + intros Hu. apply in_map_iff in Hu. destruct Hu as (w & <- & Hw). split.
      * now apply Hmem.
      * apply in_map. eapply sublist_In; eauto.
    + intros [Ha Hb]. apply in_map_iff in Hb. destruct Hb as (w & <- & Hw).
      now apply Hall.
Qed.

Lemma In_difference_iff (a b : list Witness) (w : Witness) :
  In w (difference a b) <-> In w a /\ ~ In (URI w) (map URI b).
Proof.
  rewrite difference_filter, filter_In, negb_true_iff.
  rewrite <- isExcluded_In. destruct (isExcluded w b); intuition congruence.
Qed.

(** X7: [difference a b] keeps, in their order and with their repetitions, the
    witnesses of [a] whose URI is not the URI of a witness of [b]; it is the
    filter of [a] by [isExcluded]. *)
Theorem X7_difference_by_uri (a b : list Witness) :
  difference a b = List.filter (fun e => negb (isExcluded e b)) a /\
  (forall w, In w (difference a b) <-> In w a /\ ~ In (URI w) (map URI b)) /\
  intersection b (difference a b) = [].
Proof.
  split; [apply difference_filter|]. split; [apply In_difference_iff|].
  destruct (intersection b (difference a b)) as [|w l] eqn:E; [reflexivity|].
  exfalso.
  destruct (intersection_from b (difference a b) [] _ (marks_initial b))
    as ((_ & Hmem & _) & (l' & El & Hs) & _).
  fold (intersection b (difference a b)) in Hmem, El. simpl in El. subst l'.
  assert (Hw : In w (intersection b (difference a b))) by (rewrite E; now left).
  pose proof (Hmem w Hw) as Hb.
  apply (sublist_In _ _ _ Hs) in Hw. apply In_difference_iff in Hw. tauto.
Qed.

(** The partition loop as two filters. *)
Lemma partitionWitnesses_from (cfg : WitnessPolicyConfig)
    (witnesses exclude : list Witness) (p : partition) :
  let ok := fun w => checkLog (LogRequired cfg) (HasLog w)
                     && negb (isExcluded w exclude) in
  let p' := fold_left (partitionStep cfg exclude) witnesses p in
  eligibleBatchWitnesses p'
  = eligibleBatchWitnesses p ++ List.filter (fun w => isBatch w && ok w) witnesses /\
  eligibleSystemWitnesses p'
  = eligibleSystemWitnesses p ++ List.filter (fun w => isSystem w && ok w) witnesses.
Proof.
  cbv zeta. revert p. induction witnesses as [|w ws IH]; intros p; simpl.
  - now rewrite !app_nil_r.
  - destruct (IH (partitionStep cfg exclude p w)) as [Hb Hs]. rewrite Hb, Hs.
    unfold partitionStep, isSystem, isBatch.
    destruct (Type_ w); simpl;
      destruct (checkLog (LogRequired cfg) (HasLog w) && negb (isExcluded w exclude));
      simpl; rewrite <- ?app_assoc; split; reflexivity.
Qed.

(** X8: The eligible witnesses of a class are, in the order of the input, the
    witnesses of that class that pass the log check and are not excluded. *)
Theorem X8_partitionWitnesses_filters (cfg : WitnessPolicyConfig)
    (witnesses exclude : list Witness) :
  let ok := fun w => checkLog (LogRequired cfg) (HasLog w)
                     && negb (isExcluded w exclude) in
  let p := partitionWitnesses cfg witnesses exclude in
  eligibleBatchWitnesses p = List.filter (fun w => isBatch w && ok w) witnesses /\
  eligibleSystemWitnesses p = List.filter (fun w => isSystem w && ok w) witnesses /\
  totalBatch p + totalSystem p = Z.of_nat (length witnesses).
Proof.
  cbv zeta. unfold partitionWitnesses.
  destruct (partitionWitnesses_from cfg witnesses exclude
              {| eligibleBatchWitnesses := []; eligibleSystemWitnesses := [];
                 totalSystem := 0; totalBatch := 0 |}) as [Hb Hs].
  split; [exact Hb|]. split; [exact Hs|].
  destruct (partitionWitnesses_totals cfg witnesses exclude) as [Tb Ts].
  unfold partitionWitnesses in Tb, Ts. rewrite Tb, Ts.
  unfold totalOfClass, inClass, isSystem.
  assert (H : (length (List.filter (fun w => isBatch w) witnesses)
               + length (List.filter (fun w => negb (isBatch w)) witnesses)
               = length witnesses)%nat).
  { clear. induction witnesses as [|w ws IH]; [reflexivity|].
    cbn [List.filter]. destruct (isBatch w); cbn [negb length]; lia. }
  lia.
Qed.

(** X9: Whatever the strategy picks for a class is an eligible witness whose URI
    is not the URI of a preferred witness. *)
Theorem X9_selectMinWitnesses_selection_disjoint (G : Type)
    (selector : list Witness -> Z -> G -> result (list Witness) * G)
    (eligible : list Witness) (minNumber minPercent totalWitnesses : Z)
    (preferred : list Witness) (g g' : G) (selected : list Witness) :
  draws_from_candidates selector ->
  selectMinWitnesses G selector eligible minNumber minPercent totalWitnesses
    preferred g = (Ok selected, g') ->
  exists selection,
    selected = preferred ++ selection /\
    forall w, In w selection ->
      In w eligible /\ ~ In (URI w) (map URI preferred).
Proof.
  intros Hdraw Hsel. apply selectMinWitnesses_ok in Hsel.
  destruct Hsel as (selection & Hs & ->). exists selection. split; [reflexivity|].
  intros w Hw. apply In_difference_iff. eapply Hdraw; eauto.
Qed.

(** X10: [Select] never returns a witness with the URI of an excluded one. *)
Theorem X10_Select_skips_excluded (G : Type)
    (selector : list Witness -> Z -> G -> result (list Witness) * G)
    (cfg : WitnessPolicyConfig) (witnesses exclude : list Witness)
    (g g' : G) (r : list Witness) :
  draws_from_candidates selector ->
  Select G selector (Ok cfg) witnesses exclude g = (Ok r, g') ->
  forall w, In w r -> ~ In (URI w) (map URI exclude).
Proof.
  intros Hdraw Hsel w Hw.
  destruct (Select_members_eligible G selector cfg witnesses exclude g g' r
              Hdraw Hsel w Hw) as (ty & _ & _ & _ & Hex).
  rewrite <- isExcluded_In. congruence.
Qed.

Lemma X9_selectMinWitnesses_selection_disjoint_witness :
  draws_from_candidates firstN /\
  selectMinWitnesses unit firstN [a_system; s1; s2] 2 0 3 [a_system] tt
  = (Ok [a_system; s1], tt) /\
  exists selection,
    [a_system; s1] = [a_system] ++ selection /\
    forall w, In w selection ->
      In w [a_system; s1; s2] /\ ~ In (URI w) (map URI [a_system]).
Proof.
  split; [exact firstN_draws_from_candidates|].
  assert (H : selectMinWitnesses unit firstN [a_system; s1; s2] 2 0 3 [a_system] tt
              = (Ok [a_system; s1], tt)) by (vm_compute; reflexivity).
  split; [exact H|].
  apply (X9_selectMinWitnesses_selection_disjoint unit firstN _ _ _ _ _ _ _ _
           firstN_draws_from_candidates H).
Defined.

Lemma X10_Select_skips_excluded_witness :
  draws_from_candidates firstN /\
  Select unit firstN (Ok twoOfEither) [b1; b2; b3; s1; s2; s3] [b1] tt
  = (Ok [b2; b3], tt) /\
  forall w, In w [b2; b3] -> ~ In (URI w) (map URI [b1]).
Proof.
  split; [exact firstN_draws_from_candidates|].
  assert (H : Select unit firstN (Ok twoOfEither) [b1; b2; b3; s1; s2; s3] [b1] tt
              = (Ok [b2; b3], tt)) by (vm_compute; reflexivity).
  split; [exact H|].
  apply (X10_Select_skips_excluded unit firstN _ _ _ _ _ _
           firstN_draws_from_candidates H).
Defined.

(** ** base64 *)

Lemma list_ind3 {A : Type} (P : list A -> Prop) :
  P [] -> (forall a, P [a]) -> (forall a b, P [a; b]) ->
  (forall a b c rest, P rest -> P (a :: b :: c :: rest)) ->
  forall l, P l.
Proof.
  intros H0 H1 H2 H3 l.
  assert (H : P l /\ (forall a, P (a :: l)) /\ (forall a b, P (a :: b :: l))).
  { induction l as [|x l (IH0 & IH1 & IH2)].
    - auto.
    - split; [apply IH1|]. split; [intros a; apply IH2|].
      intros a b. apply H3. exact IH0. }
  apply H.
Qed.

Lemma decodeMap_digit (n : N) :
  (n < 64)%N -> base64.decodeMap (base64.digit n) = Some n.
Proof.
  intros Hn.
  assert (H : forallb
                (fun i => match base64.decodeMap (base64.digit (N.of_nat i)) with
                          | Some j => N.eqb j (N.of_nat i)
                          | None => false
                          end)
                (List.seq 0 64) = true) by (vm_compute; reflexivity).
  rewrite forallb_forall in H. specialize (H (N.to_nat n)).
  rewrite N2Nat.id in H.
  destruct (base64.decodeMap (base64.digit n)) as [j|].
  - f_equal. apply N.eqb_eq. apply H. apply in_seq. lia.
  - exfalso. enough (false = true) by discriminate. apply H. apply in_seq. lia.
Qed.

Lemma quantum3 (a b c : N) :
  (a < 256)%N -> (b < 256)%N -> (c < 256)%N ->
  let v := base64.val (a / 4) ((a mod 4) * 16 + b / 16)
             ((b mod 16) * 4 + c / 64) (c mod 64) in
  base64.byte0 v = a /\ base64.byte1 v = b /\ base64.byte2 v = c.
Proof.
  intros Ha Hb Hc. unfold base64.val, base64.byte0, base64.byte1, base64.byte2.
  cbv zeta.
  change (2 ^ 18)%N with 262144%N. change (2 ^ 12)%N with 4096%N.
  change (2 ^ 6)%N with 64%N. change (2 ^ 16)%N with 65536%N.
  change (2 ^ 8)%N with 256%N.
  assert (Ev : (a / 4 * 262144 + (a mod 4 * 16 + b / 16) * 4096
                + (b mod 16 * 4 + c / 64) * 64 + c mod 64
                = 65536 * a + 256 * b + c)%N).
  { pose proof (N.div_mod a 4 ltac:(lia)). pose proof (N.div_mod b 16 ltac:(lia)).
    pose proof (N.div_mod c 64 ltac:(lia)). lia. }
  rewrite Ev. clear Ev.
  assert (E0 : ((65536 * a + 256 * b + c) / 65536 = a)%N).
  { symmetry. apply (N.div_unique _ _ _ (256 * b + c)%N); lia. }
  assert (E1 : ((65536 * a + 256 * b + c) / 256 = 256 * a + b)%N).
  { symmetry. apply (N.div_unique _ _ _ c); lia. }
  rewrite E0, E1. split; [|split].
  - apply N.mod_small. lia.
  - symmetry. apply (N.mod_unique _ _ a); lia.
  - symmetry. apply (N.mod_unique _ _ (256 * a + b)%N); lia.
Qed.


Lemma digit_bounds (a b c : N) :
  (a < 256)%N -> (b < 256)%N -> (c < 256)%N ->
  (a / 4 < 64)%N /\ (a mod 4 * 16 + b / 16 < 64)%N /\
  (b mod 16 * 4 + c / 64 < 64)%N /\ (c mod 64 < 64)%N.
Proof.
  intros Ha Hb Hc.
  assert (A1 : (a / 4 < 64)%N) by (apply N.Div0.div_lt_upper_bound; lia).
  assert (B1 : (b / 16 < 16)%N) by (apply N.Div0.div_lt_upper_bound; lia).
  assert (C1 : (c / 64 < 4)%N) by (apply N.Div0.div_lt_upper_bound; lia).
  pose proof (N.mod_lt a 4 ltac:(lia)) as A0.
  pose proof (N.mod_lt b 16 ltac:(lia)) as B0.
  pose proof (N.mod_lt c 64 ltac:(lia)) as C0.
  set (a1 := (a / 4)%N) in *. set (a0 := (a mod 4)%N) in *.
  set (b1 := (b / 16)%N) in *. set (b0 := (b mod 16)%N) in *.
  set (c1 := (c / 64)%N) in *. set (c0 := (c mod 64)%N) in *.
  lia.
Qed.

Lemma decode_encode (src : list N) :
  Forall (fun a => (a < 256)%N) src ->
  forall si, base64.decode (list_ascii_of_string (base64.encode src)) si [] = Ok src.
Proof.
  induction src as [|a|a b|a b c rest IH] using list_ind3; intros Hall si.
  - reflexivity.
  - inversion Hall as [|? ? Ha _]; subst.
    destruct (digit_bounds a 0 0 Ha ltac:(lia) ltac:(lia)) as (D1 & D2 & _).
    destruct (quantum3 a 0 0 Ha ltac:(lia) ltac:(lia)) as (Q0 & _).
    cbv zeta in Q0. change (0 / 16)%N with 0%N in *. change (0 / 64)%N with 0%N in *.
    change (0 mod 16 * 4 + 0)%N with 0%N in *. change (0 mod 64)%N with 0%N in *.
    rewrite N.add_0_r in D2, Q0.
    cbn [base64.encode list_ascii_of_string base64.decode].
    rewrite (decodeMap_digit _ D1). cbn [app base64.decode].
    rewrite (decodeMap_digit _ D2). cbn [app]. now rewrite Q0.
  - inversion Hall as [|? ? Ha Hall']; subst.
    inversion Hall' as [|? ? Hb _]; subst.
    destruct (digit_bounds a b 0 Ha Hb ltac:(lia)) as (D1 & D2 & D3 & _).
    destruct (quantum3 a b 0 Ha Hb ltac:(lia)) as (Q0 & Q1 & _).
    cbv zeta in Q0, Q1. change (0 / 64)%N with 0%N in *.
    change (0 mod 64)%N with 0%N in *.
    rewrite N.add_0_r in D3, Q0, Q1.
    cbn [base64.encode list_ascii_of_string base64.decode].
    rewrite (decodeMap_digit _ D1). cbn [app base64.decode].
    rewrite (decodeMap_digit _ D2). cbn [app base64.decode].
    rewrite (decodeMap_digit _ D3). cbn [app]. now rewrite Q0, Q1.
  - inversion Hall as [|? ? Ha Hall']; subst.
    inversion Hall' as [|? ? Hb Hall'']; subst.
    inversion Hall'' as [|? ? Hc Hrest]; subst.
    destruct (digit_bounds a b c Ha Hb Hc) as (D1 & D2 & D3 & D4).
    destruct (quantum3 a b c Ha Hb Hc) as (Q0 & Q1 & Q2). cbv zeta in Q0, Q1, Q2.
    cbn [base64.encode list_ascii_of_string base64.decode].
    rewrite (decodeMap_digit _ D1). cbn [app base64.decode].
    rewrite (decodeMap_digit _ D2). cbn [app base64.decode].
    rewrite (decodeMap_digit _ D3). cbn [app base64.decode].
    rewrite (decodeMap_digit _ D4).
    rewrite (IH Hrest). now rewrite Q0, Q1, Q2.
Qed.

Lemma ascii_of_N_of_ascii (l : list ascii) :
  map ascii_of_N (map N_of_ascii l) = l.
Proof.
  induction l as [|c l IH]; simpl; [reflexivity|].
  now rewrite ascii_N_embedding, IH.
Qed.

Lemma RawURLDecodeString_RawURLEncodeToString (s : string) :
  base64.RawURLDecodeString (base64.RawURLEncodeToString s) = Ok s.
Proof.
  unfold base64.RawURLDecodeString, base64.RawURLEncodeToString.
  rewrite decode_encode.
  - now rewrite ascii_of_N_of_ascii, string_of_list_ascii_of_string.
  - apply List.Forall_forall. intros a Ha. apply in_map_iff in Ha.
    destruct Ha as (c & <- & _). apply N_ascii_bounded.
Qed.

Lemma RawURLEncodeToString_inj (a a' : string) :
  base64.RawURLEncodeToString a = base64.RawURLEncodeToString a' -> a = a'.
Proof.
  intros H. apply (f_equal base64.RawURLDecodeString) in H.
  rewrite !RawURLDecodeString_RawURLEncodeToString in H. congruence.
Qed.

(** X11: decoding the tag value that [Put] computed from an anchor ID, as
    [HandleExpiredKeys] does, gives the anchor ID back; so two anchor IDs
    with the same encoding are equal, and the records of different anchors
    carry different tags. *)
Theorem X11_base64_round_trip (anchorID : string) :
  base64.RawURLDecodeString (base64.RawURLEncodeToString anchorID) = Ok anchorID /\
  (forall other,
     base64.RawURLEncodeToString other = base64.RawURLEncodeToString anchorID ->
     other = anchorID) /\
  (forall other,
     other <> anchorID ->
     storage.hasTag witness.anchorIndex (encoded other)
       [witness.anchorTag (encoded anchorID)] = false).
Proof.
  split; [apply RawURLDecodeString_RawURLEncodeToString|].
  split; [intros other; apply RawURLEncodeToString_inj|].
  intros other Hne. unfold hasTag, witness.anchorTag. cbn [existsb Name Value].
  rewrite String.eqb_refl, orb_false_r. cbn [andb].
  apply String.eqb_neq. intros E. apply Hne. symmetry.
  now apply RawURLEncodeToString_inj.
Qed.

(** ** Reading the store *)

Lemma decodeWitnesses_spec (anchorID : string) (items : list (string * json.bytes)) :
  witness.decodeWitnesses anchorID items
  = if allDecode items then Ok (documents items)
    else Err (unmarshalFailed anchorID (Errorf "invalid character")).
Proof.
  induction items as [|[k v] rest IH]; [reflexivity|].
  cbn [witness.decodeWitnesses allDecode forallb snd documents flat_map].
  destruct v as [w|raw]; cbn [json.Unmarshal andb]; [|reflexivity].
  rewrite IH. fold (allDecode rest). destruct (allDecode rest); reflexivity.
Qed.

Lemma documents_length (items : list (string * json.bytes)) :
  allDecode items = true -> length (documents items) = length items.
Proof.
  induction items as [|[k v] rest IH]; [reflexivity|].
  cbn [allDecode forallb snd documents flat_map]. fold (allDecode rest).
  destruct v; cbn [andb]; [|discriminate].
  intros H. cbn [app length]. fold (documents rest). now rewrite IH.
Qed.

Lemma Get_spec (s : witness.Store) (anchorID : string) :
  witness.Get s anchorID
  = match records s anchorID with
    | [] => Err (notFoundInStore anchorID)
    | _ :: _ =>
        if allDecode (records s anchorID)
        then Ok (documents (records s anchorID))
        else Err (unmarshalFailed anchorID (Errorf "invalid character"))
    end.
Proof.
  unfold witness.Get. rewrite Query_records, decodeWitnesses_spec.
  destruct (records s anchorID) as [|[k v] rest] eqn:E; [reflexivity|].
  destruct (allDecode ((k, v) :: rest)) eqn:Ed; [|reflexivity].
  pose proof (documents_length _ Ed) as Hl.
  destruct (documents ((k, v) :: rest)); [discriminate Hl|reflexivity].
Qed.

(** X12: [Get] reports that the anchor is not found exactly when the store holds
    no record for it; it fails with the decoding error when a record of the
    anchor does not decode; otherwise it returns one witness record for every
    stored record, so never an empty list. *)
Theorem X12_Get_cases (s : witness.Store) (anchorID : string) :
  (witness.Get s anchorID = Err (notFoundInStore anchorID)
   <-> records s anchorID = []) /\
  (allDecode (records s anchorID) = false ->
   exists inner, witness.Get s anchorID = Err (unmarshalFailed anchorID inner)) /\
  (forall witnesses,
     witness.Get s anchorID = Ok witnesses ->
     witnesses <> [] /\
     map json.Document witnesses = map snd (records s anchorID)).
Proof.
  rewrite Get_spec. split; [|split].
  - destruct (records s anchorID) as [|kv rest]; [tauto|].
    unfold unmarshalFailed, notFoundInStore.
    destruct (allDecode (kv :: rest)); split; discriminate.
  - destruct (records s anchorID) as [|kv rest]; [discriminate|].
    cbv beta iota zeta. intros ->. eexists. reflexivity.
  - intros l. destruct (records s anchorID) as [|kv rest] eqn:E; [discriminate|].
    cbv beta iota zeta. destruct (allDecode (kv :: rest)) eqn:Ed; [|discriminate].
    intros Heq. assert (El : documents (kv :: rest) = l) by (injection Heq; trivial).
    clear Heq. split.
    + pose proof (documents_length _ Ed) as Hl. rewrite El in Hl.
      intros ->. discriminate Hl.
    + rewrite <- El. clear E El. revert Ed. generalize (kv :: rest). clear.
      induction l as [|[k v] l IH]; [reflexivity|].
      cbn [allDecode forallb snd documents flat_map]. fold (allDecode l).
      destruct v; cbn [andb]; [|discriminate]. intros H.
      cbn [app map snd]. fold (documents l). now rewrite IH.
Qed.

(** ** Updates, as seen through [Get] *)

Lemma map_filter_map {A B : Type} (P : A -> bool) (g : A -> A) (proj : A -> B)
    (upd : B -> B) (l : list A) :
  (forall x, P (g x) = P x) ->
  (forall x, P x = true -> proj (g x) = upd (proj x)) ->
  map proj (List.filter P (map g l)) = map upd (map proj (List.filter P l)).
Proof.
  intros HP Hproj. induction l as [|x l IH]; [reflexivity|].
  cbn [map List.filter]. rewrite HP. destruct (P x) eqn:E; [|exact IH].
  cbn [map]. now rewrite IH, Hproj.
Qed.

Lemma records_rewritten (s : witness.Store) (anchorID : string)
    (uris : list string) (updateFnc : WitnessProof -> WitnessProof) :
  records (witness.withStore s
             (rewritten anchorID uris updateFnc <$> witness.store s)) anchorID
  = map (updatedItem uris updateFnc) (records s anchorID).
Proof.
  unfold records, Query. cbn [witness.withStore witness.store].
  rewrite map_to_list_fmap.
  apply (map_filter_map
           (fun kv => hasTag witness.anchorIndex
                        (base64.RawURLEncodeToString anchorID) (snd (snd kv)))
           (prod_map id (rewritten anchorID uris updateFnc))).
  - intros [k [v tags]]. unfold prod_map, rewritten, matches. cbn [fst snd].
    destruct v as [w|raw]; [|reflexivity]. unfold encoded.
    destruct (hasTag witness.anchorIndex (base64.RawURLEncodeToString anchorID) tags)
      eqn:Htag; cbn [andb].
    + destruct (existsb (String.eqb (URI w)) uris); cbn [snd]; [|exact Htag].
      apply hasTag_anchorTag.
    + cbn [snd]. exact Htag.
  - intros [k [v tags]]. unfold prod_map, rewritten, matches, updatedItem, updated.
    cbn [fst snd]. intros Htag. destruct v as [w|raw]; [|reflexivity].
    unfold encoded. rewrite Htag. cbn [andb].
    destruct (existsb (String.eqb (URI w)) uris); reflexivity.
Qed.

Lemma allDecode_updated (uris : list string)
    (updateFnc : WitnessProof -> WitnessProof)
    (items : list (string * json.bytes)) :
  allDecode (map (updatedItem uris updateFnc) items) = allDecode items.
Proof.
  unfold allDecode. induction items as [|[k v] rest IH]; [reflexivity|].
  cbn [map forallb]. rewrite IH. f_equal.
  unfold updatedItem. cbn [snd]. destruct v; reflexivity.
Qed.






(** ** How updates compose *)

Lemma itemMatches_updated (uris uris' : list string)
    (updateFnc : WitnessProof -> WitnessProof)
    (items : list (string * json.bytes)) :
  (forall w, URI (updateFnc w) = URI w) ->
  existsb (itemMatches uris') (map (updatedItem uris updateFnc) items)
  = existsb (itemMatches uris') items.
Proof.
  intros Huri. induction items as [|[k v] rest IH]; [reflexivity|].
  cbn [map existsb]. rewrite IH. f_equal.
  unfold updatedItem, itemMatches, updated. cbn [snd fst].
  destruct v as [w|raw]; [|reflexivity]. cbn [snd].
  destruct (existsb (String.eqb (URI w)) uris); [|reflexivity].
  now rewrite Huri.
Qed.

Lemma updateWitnessProof_twice (s : witness.Store) (anchorID : string)
    (uris1 uris2 : list string) (f1 f2 : WitnessProof -> WitnessProof) :
  allDecode (records s anchorID) = true ->
  (forall w, URI (f1 w) = URI w) ->
  witness.updateWitnessProof
    (snd (witness.updateWitnessProof s anchorID uris1 f1)) anchorID uris2 f2
  = (fst (witness.updateWitnessProof s anchorID uris2 f2),
     witness.withStore s
       ((fun e => rewritten anchorID uris2 f2 (rewritten anchorID uris1 f1 e))
          <$> witness.store s)).
Proof.
  intros Hdec Huri.
  rewrite (updateWitnessProof_spec s anchorID uris1 f1 Hdec). cbn [snd].
  rewrite updateWitnessProof_spec
    by (rewrite records_rewritten, allDecode_updated; exact Hdec).
  rewrite (updateWitnessProof_spec s anchorID uris2 f2 Hdec). cbn [fst].
  rewrite records_rewritten, (itemMatches_updated _ _ _ _ Huri).
  f_equal. unfold witness.withStore. cbn [witness.store witness.expiryPeriod].
  f_equal. rewrite <- map_fmap_compose. reflexivity.
Qed.

Ltac rewritten_cases e :=
  let w := fresh "w" in
  let tags := fresh "tags" in
  destruct e as [[w|?] tags]; [|reflexivity];
  unfold rewritten, matches; cbn [fst snd];
  destruct (hasTag witness.anchorIndex (encoded _) tags) eqn:?; cbn [andb fst snd];
  repeat match goal with
         | H : existsb (String.eqb (URI ?w)) ?us = _
           |- context [existsb (String.eqb (URI ?w)) ?us] =>
             rewrite H; cbn [andb fst snd]
         | H : hasTag _ _ ?t = _ |- context [hasTag _ _ ?t] =>
             rewrite H; cbn [andb fst snd]
         | |- context [hasTag witness.anchorIndex ?enc [witness.anchorTag ?enc]] =>
             rewrite (hasTag_anchorTag enc); cbn [andb fst snd]
         | |- context [existsb (String.eqb (URI ?w)) ?us] =>
             destruct (existsb (String.eqb (URI w)) us) eqn:?;
             cbn [andb fst snd setProof setSelected URI proof.witness]
         end;
  try reflexivity; try congruence.

(** X14: A second [AddProof] for the same witness replaces the proof stored by
    the first: the store ends as if only the second had been made, and the
    second succeeds or fails as it would have on its own. *)
Theorem X14_AddProof_replaces_proof (s : witness.Store) (anchorID uri : string)
    (p1 p2 : option (list byte)) :
  allDecode (records s anchorID) = true ->
  witness.AddProof (snd (witness.AddProof s anchorID uri p1)) anchorID uri p2
  = witness.AddProof s anchorID uri p2.
Proof.
  intros Hdec.
  change (witness.updateWitnessProof
            (snd (witness.updateWitnessProof s anchorID [uri] (setProof p1)))
            anchorID [uri] (setProof p2)
          = witness.updateWitnessProof s anchorID [uri] (setProof p2)).
  rewrite (updateWitnessProof_twice s anchorID [uri] [uri] (setProof p1)
             (setProof p2) Hdec) by reflexivity.
  rewrite (updateWitnessProof_spec s anchorID [uri] (setProof p2) Hdec).
  cbn [fst]. f_equal. f_equal. apply map_fmap_ext. intros k e _.
  rewritten_cases e.
Qed.

Lemma X14_AddProof_replaces_proof_witness :
  allDecode (records storeWithTwo "id") = true /\
  witness.AddProof
    (snd (witness.AddProof storeWithTwo "id" (URI b1) (Some ["001"%byte])))
    "id" (URI b1) (Some ["002"%byte])
  = witness.AddProof storeWithTwo "id" (URI b1) (Some ["002"%byte]).
Proof.
  assert (H : allDecode (records storeWithTwo "id") = true)
    by (vm_compute; reflexivity).
  split; [exact H|].
  apply (X14_AddProof_replaces_proof storeWithTwo "id" (URI b1) _ _ H).
Defined.

(** X15: Recording a proof and setting the selection flag can be done in either
    order: the store ends the same, and each of the two succeeds or fails as
    it would have on the original store. *)
Theorem X15_AddProof_UpdateWitnessSelection_commute (s : witness.Store)
    (anchorID uri : string) (p : option (list byte)) (uris : list string)
    (selected : bool) :
  allDecode (records s anchorID) = true ->
  let s1 := snd (witness.AddProof s anchorID uri p) in
  let s2 := snd (witness.UpdateWitnessSelection s anchorID uris selected) in
  snd (witness.UpdateWitnessSelection s1 anchorID uris selected)
  = snd (witness.AddProof s2 anchorID uri p) /\
  fst (witness.UpdateWitnessSelection s1 anchorID uris selected)
  = fst (witness.UpdateWitnessSelection s anchorID uris selected) /\
  fst (witness.AddProof s2 anchorID uri p)
  = fst (witness.AddProof s anchorID uri p).
Proof.
  intros Hdec s1 s2.
  pose proof (updateWitnessProof_twice s anchorID [uri] uris (setProof p)
                (setSelected selected) Hdec ltac:(reflexivity)) as H12.
  pose proof (updateWitnessProof_twice s anchorID uris [uri] (setSelected selected)
                (setProof p) Hdec ltac:(reflexivity)) as H21.
  change (witness.updateWitnessProof s1 anchorID uris (setSelected selected)
          = (fst (witness.UpdateWitnessSelection s anchorID uris selected),
             witness.withStore s
               ((fun e => rewritten anchorID uris (setSelected selected)
                            (rewritten anchorID [uri] (setProof p) e))
                  <$> witness.store s))) in H12.
  change (witness.updateWitnessProof s2 anchorID [uri] (setProof p)
          = (fst (witness.AddProof s anchorID uri p),
             witness.withStore s
               ((fun e => rewritten anchorID [uri] (setProof p)
                            (rewritten anchorID uris (setSelected selected) e))
                  <$> witness.store s))) in H21.
  change (witness.UpdateWitnessSelection s1 anchorID uris selected)
    with (witness.updateWitnessProof s1 anchorID uris (setSelected selected)).
  change (witness.AddProof s2 anchorID uri p)
    with (witness.updateWitnessProof s2 anchorID [uri] (setProof p)).
  rewrite H12, H21. cbn [fst snd]. split; [|split; reflexivity].
  f_equal. apply map_fmap_ext. intros k e _.
  rewritten_cases e.
Qed.

Lemma X15_AddProof_UpdateWitnessSelection_commute_witness :
  allDecode (records storeWithTwo "id") = true /\
  snd (witness.UpdateWitnessSelection
         (snd (witness.AddProof storeWithTwo "id" (URI b1) (Some ["001"%byte])))
         "id" [URI b1; URI b3] true)
  = snd (witness.AddProof
           (snd (witness.UpdateWitnessSelection storeWithTwo "id"
                   [URI b1; URI b3] true))
           "id" (URI b1) (Some ["001"%byte])).
Proof.
  assert (H : allDecode (records storeWithTwo "id") = true)
    by (vm_compute; reflexivity).
  split; [exact H|].
  apply (proj1 (X15_AddProof_UpdateWitnessSelection_commute storeWithTwo "id" (URI b1)
                  (Some ["001"%byte]) [URI b1; URI b3] true H)).
Defined.

(** ** An invariant of the store *)

Lemma consistent_lookup (d : db) :
  consistent d = true <->
  forall k e, d !! k = Some e -> consistentEntry e = true.
Proof.
  unfold consistent. rewrite forallb_forall. split.
  - intros H k e Hk. apply (H (k, e)). apply list_elem_of_In.
    now apply elem_of_map_to_list.
  - intros H [k e] Hin. apply list_elem_of_In, elem_of_map_to_list in Hin.
    exact (H k e Hin).
Qed.

Lemma hasTag_In (name value : string) (tags : list Tag) :
  hasTag name value tags = true <-> In {| Name := name; Value := value |} tags.
Proof.
  unfold hasTag. rewrite existsb_exists. split.
  - intros ([n v] & Hin & E). cbn [Name Value] in E.
    apply andb_true_iff in E. destruct E as [E1 E2].
    apply String.eqb_eq in E1, E2. now subst.
  - intros Hin. eexists. split; [exact Hin|]. cbn [Name Value].
    now rewrite !String.eqb_refl.
Qed.

Lemma consistentEntry_single (e : json.bytes * list Tag) (v1 v2 : string) :
  consistentEntry e = true ->
  hasTag witness.anchorIndex v1 (snd e) = true ->
  hasTag witness.anchorIndex v2 (snd e) = true ->
  v1 = v2.
Proof.
  unfold consistentEntry. intros H H1 H2.
  apply andb_true_iff in H. destruct H as [_ H]. apply Nat.eqb_eq in H.
  apply hasTag_In in H1, H2.
  assert (F : forall v, In {| Name := witness.anchorIndex; Value := v |} (snd e) ->
                        In {| Name := witness.anchorIndex; Value := v |}
                          (List.filter
                             (fun t => String.eqb (Name t) witness.anchorIndex)
                             (snd e))).
  { intros v Hv. apply filter_In. split; [exact Hv|]. apply String.eqb_refl. }
  apply F in H1, H2.
  destruct (List.filter _ (snd e)) as [|t [|t' l]]; try discriminate H.
  destruct H1 as [E1|[]]. destruct H2 as [E2|[]]. congruence.
Qed.

Lemma consistent_allDecode (s : witness.Store) (anchorID : string) :
  consistent (witness.store s) = true -> allDecode (records s anchorID) = true.
Proof.
  intros Hc. unfold allDecode. apply forallb_forall. intros [k v] Hin.
  apply In_records in Hin. destruct Hin as (tags & Hk & _).
  pose proof (proj1 (consistent_lookup _) Hc k _ Hk) as He.
  unfold consistentEntry in He. cbn [fst snd] in *.
  destruct v; [reflexivity|discriminate He].
Qed.

Lemma Delete_lookup (s : witness.Store) (anchorID k : string) :
  witness.store (snd (witness.Delete s anchorID)) !! k
  = if existsb (String.eqb k) (map fst (records s anchorID))
    then None
    else witness.store s !! k.
Proof.
  unfold witness.Delete. rewrite Query_records.
  destruct (records s anchorID) as [|item items] eqn:Hitems; [reflexivity|].
  unfold Batch. cbn [snd witness.withStore witness.store].
  apply Batch_deletes_lookup.
Qed.

Lemma Put_preserves (P : json.bytes * list Tag -> Prop) (s : witness.Store)
    (anchorID : string) (witnesses : list Witness) (uuid : nat -> string)
    (now : nat -> Z) :
  (forall w v, P (json.MarshalWitness w,
                  [ witness.anchorTag (encoded anchorID);
                    {| Name := witness.expiryTagName; Value := v |} ])) ->
  (forall k e, witness.store s !! k = Some e -> P e) ->
  forall k e,
    witness.store (snd (witness.Put s anchorID witnesses uuid now)) !! k = Some e ->
    P e.
Proof.
  intros Hnew Hold. unfold witness.Put, Batch.
  cbn [snd witness.withStore witness.store].
  apply fold_left_invariant; [exact Hold|].
  intros m op Hop Hm k e.
  apply list_elem_of_In, elem_of_lookup_imap in Hop.
  destruct Hop as (i & w & -> & _). unfold applyOperation. cbn [OpValue Key Tags].
  destruct (decide (uuid i = k)) as [<-|Hne].
  - rewrite lookup_insert_eq. intros [= <-]. apply Hnew.
  - rewrite lookup_insert_ne by exact Hne. apply Hm.
Qed.

Lemma consistentEntry_rewritten (anchorID : string) (uris : list string)
    (updateFnc : WitnessProof -> WitnessProof) (e : json.bytes * list Tag) :
  consistentEntry e = true ->
  consistentEntry (rewritten anchorID uris updateFnc e) = true.
Proof.
  intros He. unfold rewritten. destruct e as [[w|raw] tags]; cbn [fst]; [|exact He].
  destruct (matches anchorID uris (json.Document w, tags)); [reflexivity|exact He].
Qed.

(** X16: [Put], [Delete], [AddProof] and [UpdateWitnessSelection] keep a
    consistent store consistent: every entry still decodes as a witness record
    and carries exactly one anchor tag. The empty store is consistent, so this
    holds of every store that was only written through the four operations. *)
Theorem X16_store_stays_consistent (s : witness.Store) (anchorID : string)
    (witnesses : list Witness) (uuid : nat -> string) (now : nat -> Z)
    (uri : string) (p : option (list byte)) (uris : list string)
    (selected : bool) :
  consistent (witness.store s) = true ->
  consistent (witness.store (snd (witness.Put s anchorID witnesses uuid now))) = true /\
  consistent (witness.store (snd (witness.Delete s anchorID))) = true /\
  consistent (witness.store (snd (witness.AddProof s anchorID uri p))) = true /\
  consistent (witness.store
                (snd (witness.UpdateWitnessSelection s anchorID uris selected)))
  = true.
Proof.
  intros Hc. pose proof (proj1 (consistent_lookup _) Hc) as Hl.
  pose proof (consistent_allDecode s anchorID Hc) as Hdec.
  assert (Hupd : forall us f,
            consistent (witness.store
                          (snd (witness.updateWitnessProof s anchorID us f))) = true).
  { intros us f. rewrite (updateWitnessProof_spec s anchorID us f Hdec).
    cbn [snd witness.withStore witness.store].
    apply consistent_lookup. intros k e. rewrite lookup_fmap.
    destruct (witness.store s !! k) as [e0|] eqn:Hk; [|discriminate].
    intros [= <-]. apply consistentEntry_rewritten. eauto. }
  split; [|split; [|split]].
  - apply consistent_lookup.
    apply (Put_preserves (fun e => consistentEntry e = true)); [|exact Hl].
    intros w v. reflexivity.
  - apply consistent_lookup. intros k e. rewrite Delete_lookup.
    destruct (existsb _ _); [discriminate|]. apply Hl.
  - apply (Hupd [uri] (setProof p)).
  - apply (Hupd uris (setSelected selected)).
Qed.

Lemma X16_store_stays_consistent_witness :
  consistent (witness.store emptyStore) = true /\
  consistent (witness.store storeWithTwo) = true /\
  consistent (witness.store
                (snd (witness.AddProof storeWithTwo "id" (URI b1) (Some []))))
  = true.
Proof.
  assert (H0 : consistent (witness.store emptyStore) = true) by reflexivity.
  split; [exact H0|].
  pose proof (proj1 (X16_store_stays_consistent emptyStore "id" [b1; b3] examples.uuid
                       (fun _ => 1000) "" None [] true H0)) as H1.
  split; [exact H1|].
  apply (proj1 (proj2 (proj2 (X16_store_stays_consistent storeWithTwo "id" []
                                examples.uuid (fun _ => 0) (URI b1) (Some [])
                                [] true H1)))).
Defined.

(** ** Other anchors *)

Lemma NoDup_records (s : witness.Store) (anchorID : string) :
  NoDup (records s anchorID).
Proof. eapply NoDup_fmap_1. apply NoDup_records_keys. Qed.

Lemma records_Permutation (s s' : witness.Store) (anchorID : string) :
  (forall k v,
     (exists tags, witness.store s' !! k = Some (v, tags) /\
                   hasTag witness.anchorIndex (encoded anchorID) tags = true)
     <-> (exists tags, witness.store s !! k = Some (v, tags) /\
                       hasTag witness.anchorIndex (encoded anchorID) tags = true)) ->
  Permutation (records s' anchorID) (records s anchorID).
Proof.
  intros H. apply NoDup_Permutation; try apply NoDup_records.
  intros [k v]. rewrite !list_elem_of_In, !In_records. apply H.
Qed.

Lemma hasTag_other_anchor (e : json.bytes * list Tag) (anchorID other : string) :
  consistentEntry e = true -> other <> anchorID ->
  hasTag witness.anchorIndex (encoded anchorID) (snd e) = true ->
  hasTag witness.anchorIndex (encoded other) (snd e) = false.
Proof.
  intros He Hne Ha.
  destruct (hasTag witness.anchorIndex (encoded other) (snd e)) eqn:Ho;
    [|reflexivity].
  exfalso. apply Hne. apply RawURLEncodeToString_inj.
  exact (consistentEntry_single e _ _ He Ho Ha).
Qed.

(** X17: In a consistent store, deleting the records of one anchor or updating
    them leaves the records of every other anchor as they are. *)
Theorem X17_other_anchors_untouched (s : witness.Store) (anchorID other : string)
    (uri : string) (p : option (list byte)) (uris : list string)
    (selected : bool) :
  consistent (witness.store s) = true -> other <> anchorID ->
  Permutation (records (snd (witness.Delete s anchorID)) other) (records s other) /\
  records (snd (witness.AddProof s anchorID uri p)) other = records s other /\
  records (snd (witness.UpdateWitnessSelection s anchorID uris selected)) other
  = records s other.
Proof.
  intros Hc Hne. pose proof (proj1 (consistent_lookup _) Hc) as Hl.
  pose proof (consistent_allDecode s anchorID Hc) as Hdec.
  assert (Hupd : forall us f,
            records (snd (witness.updateWitnessProof s anchorID us f)) other
            = records s other).
  { intros us f. rewrite (updateWitnessProof_spec s anchorID us f Hdec).
    cbn [snd]. unfold records, Query. cbn [witness.withStore witness.store].
    rewrite map_to_list_fmap. f_equal.
    assert (Hall : forall kv, In kv (map_to_list (witness.store s)) ->
                              consistentEntry (snd kv) = true).
    { intros [k e] Hin. apply list_elem_of_In, elem_of_map_to_list in Hin.
      eauto. }
    induction (map_to_list (witness.store s)) as [|[k e] l IH]; [reflexivity|].
    cbn [fmap list_fmap List.filter prod_map fst snd id].
    assert (He : consistentEntry e = true) by (apply (Hall (k, e)); now left).
    assert (IH' := IH (fun kv Hin => Hall kv (or_intror Hin))).
    cbn [fmap] in IH'.
    assert (Hr : hasTag witness.anchorIndex (base64.RawURLEncodeToString other)
                   (snd (rewritten anchorID us f e))
                 = hasTag witness.anchorIndex (base64.RawURLEncodeToString other)
                     (snd e)
                 /\ (hasTag witness.anchorIndex (base64.RawURLEncodeToString other)
                       (snd e) = true -> rewritten anchorID us f e = e)).
    { unfold rewritten, matches. destruct e as [[w|raw] tags]; cbn [fst snd];
        [|split; reflexivity].
      destruct (hasTag witness.anchorIndex (encoded anchorID) tags) eqn:Ha;
        cbn [andb]; [|split; reflexivity].
      pose proof (hasTag_other_anchor (json.Document w, tags) anchorID other
                    He Hne Ha) as Ho. cbn [snd] in Ho. unfold encoded in Ho.
      rewrite Ho.
      destruct (existsb (String.eqb (URI w)) us); cbn [snd];
        [|split; [exact Ho|discriminate]].
      split; [|discriminate].
      pose proof (hasTag_other_anchor
                    (json.Document w, [witness.anchorTag (encoded anchorID)])
                    anchorID other eq_refl Hne (hasTag_anchorTag _)) as Ho'.
      exact Ho'. }
    destruct Hr as [Hr1 Hr2]. rewrite Hr1.
    destruct (hasTag witness.anchorIndex (base64.RawURLEncodeToString other) (snd e))
      eqn:Ho.
    - rewrite (Hr2 eq_refl). f_equal. exact IH'.
    - exact IH'. }
  split; [|split].
  - apply records_Permutation. intros k v. rewrite Delete_lookup.
    destruct (existsb (String.eqb k) (map fst (records s anchorID))) eqn:E.
    + split; [intros (tags & Hk & _); discriminate|].
      intros (tags & Hk & Ho). exfalso.
      apply existsb_exists in E. destruct E as (k' & Hin & Ek).
      apply String.eqb_eq in Ek. subst k'.
      apply in_map_iff in Hin. destruct Hin as ([k' v'] & Ek & Hin).
      cbn [fst] in Ek. subst k'. apply In_records in Hin.
      destruct Hin as (tags' & Hk' & Ha). rewrite Hk in Hk'.
      injection Hk' as <- <-.
      pose proof (hasTag_other_anchor (v, tags) anchorID other (Hl k _ Hk) Hne Ha)
        as Ho'. cbn [snd] in Ho'. congruence.
    + reflexivity.
  - apply (Hupd [uri] (setProof p)).
  - apply (Hupd uris (setSelected selected)).
Qed.

Lemma X17_other_anchors_untouched_witness :
  consistent (witness.store storeWithTwoAnchors) = true /\
  "id" <> "id2" /\
  Permutation (records (snd (witness.Delete storeWithTwoAnchors "id2")) "id")
    (records storeWithTwoAnchors "id") /\
  records (snd (witness.AddProof storeWithTwoAnchors "id2" (URI s1) (Some []))) "id"
  = records storeWithTwoAnchors "id".
Proof.
  assert (Hc : consistent (witness.store storeWithTwoAnchors) = true)
    by (vm_compute; reflexivity).
  assert (Hne : "id" <> "id2") by discriminate.
  split; [exact Hc|]. split; [exact Hne|].
  destruct (X17_other_anchors_untouched storeWithTwoAnchors "id2" "id" (URI s1)
              (Some []) [] true Hc Hne) as (H1 & H2 & _).
  split; [exact H1|exact H2].
Defined.

(** ** Put, then read or delete *)

Lemma examples_uuid_distinct :
  forall i j, (i < length [b1; b3])%nat -> (j < length [b1; b3])%nat ->
              examples.uuid i = examples.uuid j -> i = j.
Proof.
  intros i j Hi Hj. simpl in Hi, Hj.
  destruct i as [|[|i]]; destruct j as [|[|j]]; try lia;
    vm_compute; intros H; first [reflexivity | discriminate H].
Qed.

Lemma Put_lookup_old (s : witness.Store) (anchorID : string)
    (witnesses : list Witness) (uuid : nat -> string) (now : nat -> Z)
    (k : string) :
  (forall i, (i < length witnesses)%nat -> uuid i <> k) ->
  witness.store (snd (witness.Put s anchorID witnesses uuid now)) !! k
  = witness.store s !! k.
Proof.
  intros Hk. unfold witness.Put, Batch. cbn [snd witness.withStore witness.store].
  apply Batch_frame. intros op Hop.
  apply list_elem_of_In, elem_of_lookup_imap in Hop.
  destruct Hop as (i & w & -> & Hi). cbn [Key]. apply Hk.
  eapply lookup_lt_Some; eauto.
Qed.

Lemma key_cases (uuid : nat -> string) (n : nat) (k : string) :
  (exists i, (i < n)%nat /\ uuid i = k) \/ (forall i, (i < n)%nat -> uuid i <> k).
Proof.
  induction n as [|n [(i & Hi & E)|H]].
  - right. intros i Hi. lia.
  - left. exists i. split; [lia|exact E].
  - destruct (string_dec (uuid n) k) as [E|Hne].
    + left. exists n. split; [lia|exact E].
    + right. intros i Hi. destruct (Nat.eq_dec i n) as [->|Hin]; [exact Hne|].
      apply H. lia.
Qed.

Lemma hasTag_Put_tags (anchorID other v : string) :
  hasTag witness.anchorIndex (encoded other)
    [ witness.anchorTag (encoded anchorID);
      {| Name := witness.expiryTagName; Value := v |} ]
  = String.eqb (encoded anchorID) (encoded other).
Proof.
  unfold hasTag, witness.anchorTag. cbn [existsb Name Value].
  rewrite String.eqb_refl. cbn [andb].
  change (String.eqb witness.expiryTagName witness.anchorIndex) with false.
  cbn [andb]. now rewrite !orb_false_r.
Qed.

Lemma records_after_Put (s : witness.Store) (anchorID : string)
    (witnesses : list Witness) (uuid : nat -> string) (now : nat -> Z) :
  (forall i j, (i < length witnesses)%nat -> (j < length witnesses)%nat ->
               uuid i = uuid j -> i = j) ->
  (forall i, (i < length witnesses)%nat -> witness.store s !! uuid i = None) ->
  let s' := snd (witness.Put s anchorID witnesses uuid now) in
  Permutation (records s' anchorID)
    (records s anchorID
     ++ imap (fun i w => (uuid i, json.MarshalWitness w)) witnesses) /\
  forall other, other <> anchorID ->
    Permutation (records s' other) (records s other).
Proof.
  intros Hinj Hfresh s'.
  assert (Hnew : forall i w, witnesses !! i = Some w ->
            witness.store s' !! uuid i
            = Some (json.MarshalWitness w,
                    [ witness.anchorTag (encoded anchorID);
                      {| Name := witness.expiryTagName;
                         Value := pretty (now i + witness.expiryPeriod s) |} ])).
  { intros i w Hi. apply (Put_entry s anchorID witnesses uuid now i w Hinj Hi). }
  assert (Hold : forall k, (forall i, (i < length witnesses)%nat -> uuid i <> k) ->
            witness.store s' !! k = witness.store s !! k).
  { intros k Hk. apply Put_lookup_old. exact Hk. }
  split.
  - apply NoDup_Permutation.
    + apply NoDup_records.
    + apply NoDup_app. split; [apply NoDup_records|]. split.
      * intros [k v] Hold' Hnew'. apply list_elem_of_In, In_records in Hold'.
        destruct Hold' as (tags & Hk & _).
        apply elem_of_lookup_imap in Hnew'. destruct Hnew' as (i & w & E & Hi).
        injection E as -> ->. rewrite Hfresh in Hk; [discriminate|].
        eapply lookup_lt_Some; eauto.
      * eapply NoDup_fmap_1 with (f := fst). apply NoDup_alt. intros i j k.
        rewrite !list_lookup_fmap, !list_lookup_imap.
        destruct (witnesses !! i) as [wi|] eqn:Ei; [|discriminate].
        destruct (witnesses !! j) as [wj|] eqn:Ej; [|discriminate].
        cbn. intros [= <-] [= E].
        apply Hinj; [eapply lookup_lt_Some; eauto|eapply lookup_lt_Some; eauto|
                     congruence].
    + intros [k v]. rewrite elem_of_app, !list_elem_of_In, !In_records.
      rewrite <- list_elem_of_In, elem_of_lookup_imap.
      destruct (key_cases uuid (length witnesses) k) as [(i & Hi & <-)|Hk].
      * destruct (lookup_lt_is_Some_2 witnesses i Hi) as [w Hw].
        rewrite (Hnew i w Hw), (Hfresh i Hi). split.
        -- intros (tags & [= <- <-] & _). right. exists i, w. split; [reflexivity|exact Hw].
        -- intros [(tags & Hk & _)|(j & w' & E & Hj)]; [discriminate|].
           injection E as E ->.
           assert (i = j) by (apply Hinj; [exact Hi|eapply lookup_lt_Some; eauto|exact E]).
           subst j. rewrite Hw in Hj. injection Hj as <-.
           eexists. split; [reflexivity|].
           rewrite hasTag_Put_tags. apply String.eqb_refl.
      * rewrite (Hold k Hk). split; [intros H; now left|].
        intros [H|(j & w' & E & Hj)]; [exact H|]. exfalso.
        injection E as E _. apply (Hk j); [eapply lookup_lt_Some; eauto|].
        congruence.
  - intros other Hne. apply records_Permutation. intros k v.
    destruct (key_cases uuid (length witnesses) k) as [(i & Hi & <-)|Hk].
    + destruct (lookup_lt_is_Some_2 witnesses i Hi) as [w Hw].
      rewrite (Hnew i w Hw), (Hfresh i Hi). split.
      * intros (tags & [= <- <-] & Htag). rewrite hasTag_Put_tags in Htag.
        apply String.eqb_eq, RawURLEncodeToString_inj in Htag. congruence.
      * intros (tags & Hk & _). discriminate.
    + rewrite (Hold k Hk). reflexivity.
Qed.

Lemma allDecode_Permutation (l l' : list (string * json.bytes)) :
  Permutation l l' -> allDecode l = allDecode l'.
Proof.
  unfold allDecode.
  induction 1 as [|x l l' _ IH|x y l|l l' l'' _ IH1 _ IH2]; cbn [forallb].
  - reflexivity.
  - now rewrite IH.
  - rewrite !andb_assoc. f_equal. apply andb_comm.
  - congruence.
Qed.

Lemma documents_new (uuid : nat -> string) (witnesses : list Witness) :
  allDecode (imap (fun i w => (uuid i, json.MarshalWitness w)) witnesses) = true /\
  documents (imap (fun i w => (uuid i, json.MarshalWitness w)) witnesses)
  = map nilProof witnesses.
Proof.
  revert uuid. induction witnesses as [|w ws IH]; intros uuid; [split; reflexivity|].
  destruct (IH (fun i => uuid (S i))) as [IH1 IH2].
  cbn [imap]. unfold allDecode, documents in *. cbn [forallb flat_map map snd].
  unfold compose. split.
  - exact IH1.
  - cbn [json.MarshalWitness app]. f_equal. exact IH2.
Qed.

(** X18: After a [Put] under fresh keys, [Get] returns the records the anchor had
    before together with one record for every new witness, which has the
    fields of the witness and no proof; the records of every other anchor are
    as they were. *)
Theorem X18_Put_then_Get (s : witness.Store) (anchorID : string)
    (witnesses : list Witness) (uuid : nat -> string) (now : nat -> Z) :
  (forall i j, (i < length witnesses)%nat -> (j < length witnesses)%nat ->
               uuid i = uuid j -> i = j) ->
  (forall i, (i < length witnesses)%nat -> witness.store s !! uuid i = None) ->
  allDecode (records s anchorID) = true ->
  witnesses <> [] ->
  let s' := snd (witness.Put s anchorID witnesses uuid now) in
  fst (witness.Put s anchorID witnesses uuid now) = Ok tt /\
  (exists l, witness.Get s' anchorID = Ok l /\
             Permutation l (documents (records s anchorID)
                            ++ map nilProof witnesses)) /\
  (forall other, other <> anchorID ->
     Permutation (records s' other) (records s other)).
Proof.
  intros Hinj Hfresh Hdec Hne s'.
  destruct (records_after_Put s anchorID witnesses uuid now Hinj Hfresh)
    as [Hperm Hother]. fold s' in Hperm, Hother.
  destruct (documents_new uuid witnesses) as [Hnd Hnew].
  split; [reflexivity|]. split; [|exact Hother].
  exists (documents (records s' anchorID)). split.
  - rewrite Get_spec.
    destruct (records s' anchorID) as [|kv rest] eqn:E.
    + exfalso. apply Permutation_nil_l in Hperm.
      symmetry in Hperm. apply app_eq_nil in Hperm. destruct Hperm as [_ Hnil].
      apply (f_equal length) in Hnil. rewrite length_imap in Hnil.
      destruct witnesses; [congruence|discriminate Hnil].
    + rewrite (allDecode_Permutation _ _ Hperm).
      unfold allDecode in *. rewrite forallb_app, Hdec, Hnd. reflexivity.
  - rewrite <- Hnew. unfold documents.
    rewrite <- flat_map_app. apply Permutation_flat_map. exact Hperm.
Qed.

Lemma X18_Put_then_Get_witness :
  (forall i, (i < length [b1; b3])%nat ->
             witness.store emptyStore !! examples.uuid i = None) /\
  allDecode (records emptyStore "id") = true /\
  [b1; b3] <> [] /\
  exists l,
    witness.Get storeWithTwo "id" = Ok l /\
    Permutation l (documents (records emptyStore "id") ++ map nilProof [b1; b3]).
Proof.
  assert (Hfresh : forall i, (i < length [b1; b3])%nat ->
                             witness.store emptyStore !! examples.uuid i = None)
    by (intros i _; reflexivity).
  assert (Hne : [b1; b3] <> []) by discriminate.
  split; [exact Hfresh|]. split; [reflexivity|]. split; [exact Hne|].
  apply (proj1 (proj2 (X18_Put_then_Get emptyStore "id" [b1; b3] examples.uuid
                         (fun _ => 1000) examples_uuid_distinct Hfresh eq_refl
                         Hne))).
Defined.

Lemma Store_eq (s s' : witness.Store) :
  witness.store s = witness.store s' ->
  witness.expiryPeriod s = witness.expiryPeriod s' -> s = s'.
Proof. destruct s, s'. cbn. intros -> ->. reflexivity. Qed.

Lemma expiryPeriod_Delete (s : witness.Store) (anchorID : string) :
  witness.expiryPeriod (snd (witness.Delete s anchorID)) = witness.expiryPeriod s.
Proof.
  unfold witness.Delete. rewrite Query_records.
  destruct (records s anchorID); reflexivity.
Qed.

(** X19: [Delete] undoes a [Put]: when the anchor had no record and the keys were
    fresh, the store is afterwards what it was before the [Put]. *)
Theorem X19_Put_then_Delete (s : witness.Store) (anchorID : string)
    (witnesses : list Witness) (uuid : nat -> string) (now : nat -> Z) :
  (forall i j, (i < length witnesses)%nat -> (j < length witnesses)%nat ->
               uuid i = uuid j -> i = j) ->
  (forall i, (i < length witnesses)%nat -> witness.store s !! uuid i = None) ->
  records s anchorID = [] ->
  witness.Delete (snd (witness.Put s anchorID witnesses uuid now)) anchorID
  = (Ok tt, s).
Proof.
  intros Hinj Hfresh Hempty.
  set (s' := snd (witness.Put s anchorID witnesses uuid now)).
  destruct (records_after_Put s anchorID witnesses uuid now Hinj Hfresh)
    as [Hperm _]. fold s' in Hperm. rewrite Hempty, app_nil_l in Hperm.
  assert (Hfst : fst (witness.Delete s' anchorID) = Ok tt).
  { unfold witness.Delete. rewrite Query_records.
    destruct (records s' anchorID); reflexivity. }
  rewrite (surjective_pairing (witness.Delete s' anchorID)), Hfst. f_equal.
  apply Store_eq; [|now rewrite expiryPeriod_Delete].
  apply map_eq. intros k. rewrite Delete_lookup.
  destruct (existsb (String.eqb k) (map fst (records s' anchorID))) eqn:E.
  - apply existsb_exists in E. destruct E as (k' & Hin & Ek).
    apply String.eqb_eq in Ek. subst k'.
    apply in_map_iff in Hin. destruct Hin as ([k' v] & Ek & Hin).
    cbn [fst] in Ek. subst k'.
    apply list_elem_of_In in Hin. rewrite Hperm in Hin.
    apply elem_of_lookup_imap in Hin. destruct Hin as (i & w & [= -> ->] & Hi).
    symmetry. apply Hfresh. eapply lookup_lt_Some; eauto.
  - destruct (key_cases uuid (length witnesses) k) as [(i & Hi & <-)|Hk].
    + exfalso. destruct (lookup_lt_is_Some_2 witnesses i Hi) as [w Hw].
      assert (Hin : In (uuid i) (map fst (records s' anchorID))).
      { apply in_map_iff. exists (uuid i, json.MarshalWitness w). split; [reflexivity|].
        apply list_elem_of_In. rewrite Hperm. apply elem_of_lookup_imap.
        exists i, w. split; [reflexivity|exact Hw]. }
      apply existsb_eqb_false in E. contradiction.
    + apply Put_lookup_old. exact Hk.
Qed.

Lemma X19_Put_then_Delete_witness :
  (forall i, (i < length [b1; b3])%nat ->
             witness.store emptyStore !! examples.uuid i = None) /\
  records emptyStore "id" = [] /\
  witness.Delete storeWithTwo "id" = (Ok tt, emptyStore).
Proof.
  assert (Hfresh : forall i, (i < length [b1; b3])%nat ->
                             witness.store emptyStore !! examples.uuid i = None)
    by (intros i _; reflexivity).
  split; [exact Hfresh|]. split; [reflexivity|].
  apply (X19_Put_then_Delete emptyStore "id" [b1; b3] examples.uuid
           (fun _ => 1000) examples_uuid_distinct Hfresh eq_refl).
Defined.

(** ** Expired keys *)

Lemma anchorsOfTags_Put (anchorID v : string) (u : gmap string bool) :
  witness.anchorsOfTags
    [ witness.anchorTag (encoded anchorID);
      {| Name := witness.expiryTagName; Value := v |} ] u
  = inr (<[anchorID := true]> u).
Proof.
  cbn [witness.anchorsOfTags witness.anchorTag Name Value].
  rewrite String.eqb_refl. unfold encoded.
  rewrite RawURLDecodeString_RawURLEncodeToString.
  change (String.eqb witness.expiryTagName witness.anchorIndex) with false.
  reflexivity.
Qed.

Lemma anchorsOfKeys_Put (d : db) (anchorID : string) (keys : list string)
    (u : gmap string bool) :
  (forall k, In k keys ->
     exists value v,
       d !! k = Some (value, [ witness.anchorTag (encoded anchorID);
                               {| Name := witness.expiryTagName; Value := v |} ])) ->
  witness.anchorsOfKeys d keys u
  = inr (match keys with [] => u | _ => <[anchorID := true]> u end).
Proof.
  revert u. induction keys as [|k keys IH]; intros u Hk; [reflexivity|].
  cbn [witness.anchorsOfKeys]. unfold GetTags.
  destruct (Hk k ltac:(now left)) as (value & v & ->). cbn [snd].
  rewrite anchorsOfTags_Put, IH by (intros k' Hk'; apply Hk; now right).
  destruct keys; [reflexivity|]. now rewrite insert_insert_eq.
Qed.

(** X20: When entries that [Put] wrote for an anchor expire, [HandleExpiredKeys]
    returns nil and logs that anchor, once, as not processed. *)
Theorem X20_HandleExpiredKeys_after_Put (s : witness.Store) (anchorID : string)
    (witnesses : list Witness) (uuid : nat -> string) (now : nat -> Z)
    (keys : list string) :
  (forall i j, (i < length witnesses)%nat -> (j < length witnesses)%nat ->
               uuid i = uuid j -> i = j) ->
  keys <> [] ->
  (forall k, In k keys -> exists i, (i < length witnesses)%nat /\ k = uuid i) ->
  witness.HandleExpiredKeys (snd (witness.Put s anchorID witnesses uuid now)) keys
  = (Ok tt, Some (witness.FailedToProcess [anchorID])).
Proof.
  intros Hinj Hne Hkeys. unfold witness.HandleExpiredKeys.
  rewrite (anchorsOfKeys_Put _ anchorID keys).
  - destruct keys; [congruence|]. now rewrite insert_empty, map_to_list_singleton.
  - intros k Hk. destruct (Hkeys k Hk) as (i & Hi & ->).
    destruct (lookup_lt_is_Some_2 witnesses i Hi) as [w Hw].
    destruct (Put_entry s anchorID witnesses uuid now i w Hinj Hw) as [_ He].
    eauto.
Qed.

Lemma X20_HandleExpiredKeys_after_Put_witness :
  ["key-1"; "key-0"] <> [] /\
  (forall k, In k ["key-1"; "key-0"] ->
             exists i, (i < length [b1; b3])%nat /\ k = examples.uuid i) /\
  witness.HandleExpiredKeys storeWithTwo ["key-1"; "key-0"]
  = (Ok tt, Some (witness.FailedToProcess ["id"])).
Proof.
  assert (Hne : ["key-1"; "key-0"] <> []) by discriminate.
  assert (Hkeys : forall k, In k ["key-1"; "key-0"] ->
                            exists i, (i < length [b1; b3])%nat /\ k = examples.uuid i).
  { intros k [<-|[<-|[]]]; [exists 1%nat|exists 0%nat];
      (split; [simpl; lia|vm_compute; reflexivity]). }
  split; [exact Hne|]. split; [exact Hkeys|].
  apply (X20_HandleExpiredKeys_after_Put emptyStore "id" [b1; b3] examples.uuid
           (fun _ => 1000) ["key-1"; "key-0"] examples_uuid_distinct Hne Hkeys).
Defined.
